(** * Chess-Game-Bot: the rules engine of [app.js], embedded in Rocq

    The development follows class [ChessGame] of [src/githubchessbot/app.js]:
    the board store, the FEN codec ([validateFEN], [setPositionFromFEN],
    [parseFENPlacement], [boardToPlacement], [syncFENFromState]), the move
    applier ([applyMoveToState]), the legality checker
    ([isLegalMoveWithState]) with its snapshot/restore pair, the attack
    oracle ([isSquareAttacked], [isKingInCheck]), the enumerator
    ([generateAllPseudoLegalMoves], [generateAllLegalMoves]) and the
    end-of-turn logic ([endPlayerTurn], [checkGameEndEarly], [checkGameEnd]).

    Conventions of the embedding:
    - a JS one-character string (a piece letter) is an [ascii]; a board cell
      is [option ascii], [None] standing for [null]/[undefined] (both falsy);
    - JS numbers that are always integers on the paths modelled are [Z];
      the two clocks, which [parseInt] may turn into [NaN], are [number];
    - the object [this] is the record [ChessGame]; methods that mutate it
      live in the monad [M] (state passing, [None] = a thrown [TypeError]
      or, for the mutually recursive methods, exhausted fuel);
    - [this.board] and [this.castlingRights] are values: every reader goes
      through [this] at the time of the read, [snapshotState] copies the rows
      and the rights object, and [restoreSnapshot] installs fresh copies, so
      no reference to a mutated array outlives a call;
    - DOM updates, toasts and timers are outside the core and left out. *)

From Stdlib Require Import ZArith Ascii String List Lia Bool.
From stdpp Require Import base tactics option list numbers strings gmap.

Local Open Scope string_scope.
Local Open Scope Z_scope.
Local Open Scope list_scope.

(** ** Characters and pieces *)

Inductive Player := white | black.

#[global] Instance Player_eq_dec : EqDecision Player.
Proof. solve_decision. Defined.

Definition Player_eqb (a b : Player) : bool := bool_decide (a = b).

(** [color === 'white' ? 'black' : 'white'] *)
Definition opponent (c : Player) : Player :=
  match c with white => black | black => white end.

(** A board cell: [null] or a piece letter. *)
Abbreviation Cell := (option ascii).

Definition chr_in (c : ascii) (s : string) : bool :=
  existsb (Ascii.eqb c) (list_ascii_of_string s).

(** [/[PRNBQK]/.test(piece)] and [/[prnbqk]/.test(piece)] on a one-character
    string. *)
Definition isWhitePiece (p : ascii) : bool := chr_in p "PRNBQK".
Definition isBlackPiece (p : ascii) : bool := chr_in p "prnbqk".

(** [/[PRNBQK]/.test(piece) ? 'white' : 'black'] *)
Definition colorOf (p : ascii) : Player :=
  if isWhitePiece p then white else black.

(** [String.prototype.toLowerCase] / [toUpperCase] on one character, a code
    unit below 256. Only the letters A-Z / a-z are mapped; the source
    compares the result with ASCII letters only, and no other character
    below 256 maps onto those. On the ASCII range (below 128) the two
    functions are those of JavaScript. *)
Definition toLowerCase (c : ascii) : ascii :=
  let n := N_of_ascii c in
  if ((65 <=? n) && (n <=? 90))%N then ascii_of_N (n + 32) else c.

Definition toUpperCase (c : ascii) : ascii :=
  let n := N_of_ascii c in
  if ((97 <=? n) && (n <=? 122))%N then ascii_of_N (n - 32) else c.

Definition isPieceOwnedByPlayer (piece : ascii) (player : Player) : bool :=
  match player with
  | white => isWhitePiece piece
  | black => isBlackPiece piece
  end.

Definition isSameColor (piece1 piece2 : ascii) : bool :=
  (isWhitePiece piece1 && isWhitePiece piece2)
  || (isBlackPiece piece1 && isBlackPiece piece2).

(** ** Numbers and their decimal text *)

(** A JS number on the paths where [parseInt] can produce [NaN]. Integers
    are kept exact, as doubles are up to 2^53. *)
Inductive number := Int (z : Z) | NaN.

#[global] Instance number_eq_dec : EqDecision number.
Proof. solve_decision. Defined.

(** [x++] *)
Definition incr (n : number) : number :=
  match n with Int z => Int (z + 1) | NaN => NaN end.

(** [x | 0]: ToInt32, with the 32-bit wrap-around written out. *)
Definition toInt32 (n : number) : Z :=
  match n with
  | NaN => 0
  | Int z => (z + 2147483648) mod 4294967296 - 2147483648
  end.

(** [/\d/.test(char)] *)
Definition isDigit (c : ascii) : bool :=
  let n := N_of_ascii c in ((48 <=? n) && (n <=? 57))%N.

Definition digitVal (c : ascii) : Z := Z.of_N (N_of_ascii c) - 48.

Definition digitChar (d : Z) : ascii := ascii_of_N (Z.to_N (48 + d)).

(** Decimal digits of a non-negative integer, most significant first. *)
Fixpoint digitsOf (fuel : nat) (n : Z) (acc : string) : string :=
  let acc' := String (digitChar (n mod 10)) acc in
  match fuel with
  | O => acc'
  | S k => if n / 10 =? 0 then acc' else digitsOf k (n / 10) acc'
  end.

(** [Number.prototype.toString] on an integer. *)
Definition numberToString (z : Z) : string :=
  if z <? 0 then String "-" (digitsOf (Z.to_nat (Z.log2 (- z))) (- z) "")
  else digitsOf (Z.to_nat (Z.log2 z)) z "".

(** The digit loop of [parseInt(s, 10)]: stops at the first non-digit;
    [None] when no digit was read. *)
Fixpoint parseDigits (s : string) (acc : option Z) : option Z :=
  match s with
  | "" => acc
  | String c r =>
      if isDigit c then parseDigits r (Some (10 * default 0 acc + digitVal c))
      else acc
  end.

(** StrWhiteSpaceChar below code 256. *)
Definition isWhiteSpace (c : ascii) : bool :=
  let n := N_of_ascii c in
  (((9 <=? n) && (n <=? 13)) || (n =? 32) || (n =? 160))%N.

Fixpoint skipWhiteSpace (s : string) : string :=
  match s with
  | String c r => if isWhiteSpace c then skipWhiteSpace r else s
  | "" => ""
  end.

(** [parseInt(s, 10)] for a string argument. *)
Definition parseInt (s : string) : number :=
  match skipWhiteSpace s with
  | String "-" r =>
      match parseDigits r None with Some z => Int (- z) | None => NaN end
  | String "+" r =>
      match parseDigits r None with Some z => Int z | None => NaN end
  | r => match parseDigits r None with Some z => Int z | None => NaN end
  end.

(** ** The board store *)

Abbreviation Board := (list (list Cell)).

Record Square := mkSquare { rank : Z; file : Z }.

#[global] Instance Square_eq_dec : EqDecision Square.
Proof. solve_decision. Defined.

(** [Array.from({ length: 8 }, () => Array(8).fill(null))] *)
Definition createEmptyBoard : Board := replicate 8 (replicate 8 None).

(** [board[r][f]] as an r-value. A missing row makes the second index a
    property access on [undefined], a [TypeError] ([None]); a missing
    element of an existing row reads [undefined] (an empty cell). *)
Definition readSq (b : Board) (r f : Z) : option Cell :=
  if decide (0 <= r) then
    match b !! Z.to_nat r with
    | Some row =>
        Some (if decide (0 <= f) then default None (row !! Z.to_nat f) else None)
    | None => None
    end
  else None.

(** [row[f] = v] on a JS array: in range it overwrites, past the end the
    array grows and the skipped holes read [undefined]. *)
Definition setElem (row : list Cell) (f : nat) (v : Cell) : list Cell :=
  if decide (f < length row)%nat then <[f := v]> row
  else (row ++ replicate (f - length row) None ++ [v])%list.

(** [board[r][f] = v]. A missing row throws ([None]). A negative file
    index would create a non-element property on the row array; the
    embedding does not represent those and gives [None] there too. *)
Definition writeSq (b : Board) (r f : Z) (v : Cell) : option Board :=
  if decide (0 <= r /\ 0 <= f) then
    match b !! Z.to_nat r with
    | Some row => Some (<[Z.to_nat r := setElem row (Z.to_nat f) v]> b)
    | None => None
    end
  else None.

Record CastlingRights := mkCR { crK : bool; crQ : bool; crk : bool; crq : bool }.

#[global] Instance CastlingRights_eq_dec : EqDecision CastlingRights.
Proof. solve_decision. Defined.

Record GameResult := mkGameResult {
  reason : string;
  winner : string;
  finalScoreWhite : Z;
  finalScoreBlack : Z;
  totalMoves : Z
}.

(** The fields of [this] that the rules engine reads or writes. *)
Record ChessGame := mkGame {
  board : Board;
  currentFEN : string;
  currentPlayer : Player;
  castlingRights : CastlingRights;
  enPassantTarget : string;
  halfmoveClock : number;
  fullmoveNumber : number;
  scoresWhite : Z;
  scoresBlack : Z;
  moveCountWhite : Z;
  moveCountBlack : Z;
  maxMoves : Z;
  gameActive : bool;
  gameResult : option GameResult;
  currentPhase : Z
}.

(** ** Algebraic squares *)

(** [algebraicToCoords]: [charCodeAt(0) - 97] and [8 - parseInt(s[1], 10)];
    either is [NaN] when the character is missing (or not a digit). *)
Definition algebraicToCoords (algebraic : string) : number * number :=
  match algebraic with
  | "" => (NaN, NaN)
  | String c0 r =>
      let f := Int (Z.of_N (N_of_ascii c0) - 97) in
      match r with
      | "" => (NaN, f)
      | String c1 _ =>
          match parseInt (String c1 "") with
          | Int d => (Int (8 - d), f)
          | NaN => (NaN, f)
          end
      end
  end.

(** [coordsToAlgebraic]: [String.fromCharCode(97 + file) + (8 - rank)].
    Character codes are kept below 256. *)
Definition coordsToAlgebraic (rank file : Z) : string :=
  String (ascii_of_N (Z.to_N ((97 + file) mod 256))) (numberToString (8 - rank)).


(** ** FEN encoding *)

(** The loop of [boardToPlacement] over one row: [fenRow] and [emptyCount]
    are the two locals of the arrow function. *)
Fixpoint rowToFen (row : list Cell) (fenRow : string) (emptyCount : Z) : string :=
  match row with
  | [] =>
      if 0 <? emptyCount then fenRow +:+ numberToString emptyCount else fenRow
  | None :: rest => rowToFen rest fenRow (emptyCount + 1)
  | Some piece :: rest =>
      let fenRow :=
        if 0 <? emptyCount then fenRow +:+ numberToString emptyCount else fenRow in
      rowToFen rest (fenRow +:+ String piece "") 0
  end.

(** [Array.prototype.join] *)
Fixpoint join (sep : string) (l : list string) : string :=
  match l with
  | [] => ""
  | [x] => x
  | x :: rest => x +:+ sep +:+ join sep rest
  end.

Definition boardToPlacement (b : Board) : string :=
  join "/" (map (fun row => rowToFen row "" 0) b).

Definition castlingToFen (c : CastlingRights) : string :=
  let s := (if crK c then "K" else "") +:+ (if crQ c then "Q" else "")
           +:+ (if crk c then "k" else "") +:+ (if crq c then "q" else "") in
  if String.eqb s "" then "-" else s.

Definition set_currentFEN (fen : string) (st : ChessGame) : ChessGame :=
  mkGame (board st) fen (currentPlayer st) (castlingRights st)
    (enPassantTarget st) (halfmoveClock st) (fullmoveNumber st)
    (scoresWhite st) (scoresBlack st) (moveCountWhite st) (moveCountBlack st)
    (maxMoves st) (gameActive st) (gameResult st) (currentPhase st).

(** The text that [syncFENFromState] stores in [currentFEN]. *)
Definition fenOfState (st : ChessGame) : string :=
  let placement := boardToPlacement (board st) in
  let side := match currentPlayer st with white => "w" | black => "b" end in
  let c := castlingToFen (castlingRights st) in
  let ep := if String.eqb (enPassantTarget st) "" then "-" else enPassantTarget st in
  let half := Z.max 0 (toInt32 (halfmoveClock st)) in
  let full := Z.max 1 (toInt32 (fullmoveNumber st)) in
  placement +:+ " " +:+ side +:+ " " +:+ c +:+ " " +:+ ep +:+ " "
    +:+ numberToString half +:+ " " +:+ numberToString full.

Definition syncFENFromState (st : ChessGame) : ChessGame :=
  set_currentFEN (fenOfState st) st.

(** ** The move applier *)

Record Move := mkMove {
  from : Square;
  to : Square;
  piece : Cell;
  capturedPiece : Cell;
  promotion : option ascii;
  isEnPassant : bool;
  isCastling : bool
}.

(** The closure [updateCR] of [applyMoveToState]. *)
Definition updateCR (p : Cell) (r f : Z) (c : CastlingRights) : CastlingRights :=
  match p with
  | None => c
  | Some p =>
      let c := if Ascii.eqb p "K" then mkCR false false (crk c) (crq c) else c in
      let c := if Ascii.eqb p "k" then mkCR (crK c) (crQ c) false false else c in
      let c := if Ascii.eqb p "R" && (r =? 7) && (f =? 0)
               then mkCR (crK c) false (crk c) (crq c) else c in
      let c := if Ascii.eqb p "R" && (r =? 7) && (f =? 7)
               then mkCR false (crQ c) (crk c) (crq c) else c in
      let c := if Ascii.eqb p "r" && (r =? 0) && (f =? 0)
               then mkCR (crK c) (crQ c) (crk c) false else c in
      let c := if Ascii.eqb p "r" && (r =? 0) && (f =? 7)
               then mkCR (crK c) (crQ c) false (crq c) else c in
      c
  end.

(** [this.pieceValues[victim] || 0] *)
Definition pieceValue (p : ascii) : Z :=
  let l := toLowerCase p in
  if negb (isWhitePiece p || isBlackPiece p) then 0
  else if Ascii.eqb l "p" then 1
  else if Ascii.eqb l "r" then 5
  else if Ascii.eqb l "n" then 3
  else if Ascii.eqb l "b" then 3
  else if Ascii.eqb l "q" then 9
  else 0.

Definition updateScoreOnCapture (attacker : ascii) (victim : Cell)
    (st : ChessGame) : ChessGame :=
  match victim with
  | None => st
  | Some v =>
      let points := pieceValue v in
      match colorOf attacker with
      | white =>
          mkGame (board st) (currentFEN st) (currentPlayer st) (castlingRights st)
            (enPassantTarget st) (halfmoveClock st) (fullmoveNumber st)
            (scoresWhite st + points) (scoresBlack st)
            (moveCountWhite st) (moveCountBlack st)
            (maxMoves st) (gameActive st) (gameResult st) (currentPhase st)
      | black =>
          mkGame (board st) (currentFEN st) (currentPlayer st) (castlingRights st)
            (enPassantTarget st) (halfmoveClock st) (fullmoveNumber st)
            (scoresWhite st) (scoresBlack st + points)
            (moveCountWhite st) (moveCountBlack st)
            (maxMoves st) (gameActive st) (gameResult st) (currentPhase st)
      end
  end.

Definition isPawn (p : ascii) : bool := Ascii.eqb (toLowerCase p) "p".

(** The board writes of [applyMoveToState], in source order. *)
Definition applyBoard (move : Move) (p : ascii) (b : Board) : option Board :=
  let color := colorOf p in
  b ← (if isEnPassant move then
         let dir := match color with white => 1 | black => -1 end in
         writeSq b (rank (to move) + dir) (file (to move)) None
       else Some b);
  b ← (if isCastling move then
         let kingSide := file (to move) =? 6 in
         let rookFromFile := if kingSide then 7 else 0 in
         let rookToFile := if kingSide then 5 else 3 in
         rook ← readSq b (rank (from move)) rookFromFile;
         b ← writeSq b (rank (from move)) rookFromFile None;
         writeSq b (rank (from move)) rookToFile rook
       else Some b);
  b ← writeSq b (rank (to move)) (file (to move)) (Some p);
  b ← writeSq b (rank (from move)) (file (from move)) None;
  match promotion move with
  | Some pr => writeSq b (rank (to move)) (file (to move)) (Some pr)
  | None => Some b
  end.

(** The value [applyMoveToState] leaves in [enPassantTarget]. *)
Definition nextEnPassantTarget (move : Move) (p : ascii) : string :=
  if isPawn p && (Z.abs (rank (to move) - rank (from move)) =? 2) then
    let midRank := (rank (to move) + rank (from move)) / 2 in
    coordsToAlgebraic midRank (file (from move))
  else "-".

(** [applyMoveToState(move, { simulate })]. A [TypeError] on a board access
    aborts the call ([None]). *)
Definition applyMoveToState (move : Move) (simulate : bool) (st : ChessGame)
    : option ChessGame :=
  match piece move with
  | None => Some st
  | Some p =>
      let half :=
        if isPawn p || bool_decide (is_Some (capturedPiece move)) || isEnPassant move
        then Int 0 else incr (halfmoveClock st) in
      b ← applyBoard move p (board st);
      let cr := updateCR (Some p) (rank (from move)) (file (from move))
                  (castlingRights st) in
      let cr := updateCR (capturedPiece move) (rank (to move)) (file (to move)) cr in
      let st' :=
        mkGame b (currentFEN st) (currentPlayer st) cr
          (nextEnPassantTarget move p) half (fullmoveNumber st)
          (scoresWhite st) (scoresBlack st) (moveCountWhite st) (moveCountBlack st)
          (maxMoves st) (gameActive st) (gameResult st) (currentPhase st) in
      Some (if simulate then st'
            else updateScoreOnCapture p (capturedPiece move) (syncFENFromState st'))
  end.

(** ** The monad of the methods that run against [this] *)

Definition M (A : Type) : Type := ChessGame -> option (A * ChessGame).

Definition ret {A} (a : A) : M A := fun st => Some (a, st).

Definition bind {A B} (c : M A) (k : A -> M B) : M B :=
  fun st => match c st with
            | Some (a, st') => k a st'
            | None => None
            end.

Notation "'let*' x ':=' c 'in' k" := (bind c (fun x => k))
  (at level 10, x pattern, c at level 100, k at level 200).

Definition gets {A} (f : ChessGame -> A) : M A := fun st => Some (f st, st).

(** Lifts a state transformer that may throw. *)
Definition update (f : ChessGame -> option ChessGame) : M unit :=
  fun st => match f st with Some st' => Some (tt, st') | None => None end.

(** [this.board[r][f]] *)
Definition readBoard (r f : Z) : M Cell :=
  fun st => match readSq (board st) r f with
            | Some c => Some (c, st)
            | None => None
            end.

(** A [for] loop over the values [l], threading the locals [acc]. *)
Fixpoint forM {A B} (l : list A) (body : A -> B -> M B) (acc : B) : M B :=
  match l with
  | [] => ret acc
  | x :: rest => let* acc' := body x acc in forM rest body acc'
  end.

(** [for (let i = 0; i < 8; i++)] *)
Definition range8 : list Z := [0; 1; 2; 3; 4; 5; 6; 7].

(** ** Snapshots *)

Record Snapshot := mkSnapshot {
  s_board : Board;
  s_castlingRights : CastlingRights;
  s_enPassantTarget : string;
  s_halfmoveClock : number;
  s_fullmoveNumber : number;
  s_currentPlayer : Player
}.

(** [snapshotState]: the rows and the rights object are copied
    ([r.slice()], spread), so the snapshot is a value. *)
Definition snapshotState : M Snapshot :=
  gets (fun st => mkSnapshot (board st) (castlingRights st) (enPassantTarget st)
                    (halfmoveClock st) (fullmoveNumber st) (currentPlayer st)).

Definition restoreSnapshot (s : Snapshot) : M unit :=
  fun st => Some (tt,
    mkGame (s_board s) (currentFEN st) (s_currentPlayer s) (s_castlingRights s)
      (s_enPassantTarget s) (s_halfmoveClock s) (s_fullmoveNumber s)
      (scoresWhite st) (scoresBlack st) (moveCountWhite st) (moveCountBlack st)
      (maxMoves st) (gameActive st) (gameResult st) (currentPhase st)).

(** *** The same, with the arrays in a store

    [snapshotState] and [restoreSnapshot] above treat the board as a value.
    The module below keeps the row arrays in a store of references, as the
    JS heap does, to show that this is sound: [this.board.map(r => r.slice())]
    allocates, so the in-place writes of [applyMoveToState] never reach what
    a snapshot holds. *)

Module Store.

(** Row arrays live in a store; [this.board] holds references to them. *)
Abbreviation store := (gmap positive (list Cell)).

(** [r.slice()]: a fresh array with the elements of the array at [r]. *)
Definition slice (r : positive) (h : store) : option (positive * store) :=
  row ← h !! r;
  let l := fresh (dom h) in
  Some (l, <[l := row]> h).

(** [rows.map(r => r.slice())] *)
Fixpoint copyRows (rows : list positive) (h : store)
    : option (list positive * store) :=
  match rows with
  | [] => Some ([], h)
  | r :: rest =>
      '(l, h1) ← slice r h;
      '(ls, h2) ← copyRows rest h1;
      Some (l :: ls, h2)
  end.

(** [board[r][f] = v] through the references [b]. *)
Definition writeCell (b : list positive) (r f : nat) (v : Cell) (h : store)
    : option store :=
  l ← b !! r;
  row ← h !! l;
  Some (<[l := setElem row f v]> h).

(** Any number of writes through [b]. *)
Inductive writes (b : list positive) : store -> store -> Prop :=
| writes_done h : writes b h h
| writes_step h r f v h1 h2 :
    writeCell b r f v h = Some h1 -> writes b h1 h2 -> writes b h h2.

(** The references [b] lead to the rows [rows]. *)
Definition holds (h : store) (b : list positive) (rows : list (list Cell)) : Prop :=
  Forall2 (fun l row => h !! l = Some row) b rows.

End Store.

(** ** The legality checker, the attack oracle and the enumerator *)

(** The object returned by [isLegalMoveWithState]:
    [{ ok: false, reason }] or [{ ok: true, isEnPassant, isCastling, promotion }]. *)
Inductive Legality :=
| Illegal (why : string)
| Legal (enPassant castling : bool) (promo : option ascii).

Definition ok (l : Legality) : bool :=
  match l with Legal _ _ _ => true | Illegal _ => false end.

(** [legality.promotion || null], [legality.isEnPassant], [legality.isCastling]
    as the callers read them (absent properties are falsy). *)
Definition l_promotion (l : Legality) : option ascii :=
  match l with Legal _ _ p => p | Illegal _ => None end.
Definition l_isEnPassant (l : Legality) : bool :=
  match l with Legal e _ _ => e | Illegal _ => false end.
Definition l_isCastling (l : Legality) : bool :=
  match l with Legal _ c _ => c | Illegal _ => false end.

(** An element of the array built by [generateAllPseudoLegalMoves]. *)
Record GenMove := mkGenMove {
  g_from : Square;
  g_to : Square;
  g_piece : ascii;
  g_capturedPiece : Cell;
  g_meta : Legality
}.

(** [Math.sign] on integers. *)
Definition sign (x : Z) : Z := Z.sgn x.

(** The closure [pathClear] of [isLegalMoveWithState]:
    [for (let i = 1; i < steps; i++)]. *)
Fixpoint pathClearFrom (n : nat) (i : Z) (from : Square) (drStep dfStep : Z) : M bool :=
  match n with
  | O => ret true
  | S n' =>
      let* c := readBoard (rank from + drStep * i) (file from + dfStep * i) in
      match c with
      | Some _ => ret false
      | None => pathClearFrom n' (i + 1) from drStep dfStep
      end
  end.

Definition pathClear (from : Square) (drStep dfStep steps : Z) : M bool :=
  pathClearFrom (Z.to_nat (steps - 1)) 1 from drStep dfStep.

(** The promotion letter chosen when a pawn reaches [promoRank]:
    [const pch = promotionChar || 'q'], its case mapping and the test
    [/[qrbnQRBN]/.test(promotion)]. [promotionChar] is one character, as
    [executeAIMove] passes it ([moveString.slice(4, 5)]); characters beyond
    the ASCII range, whose upper case can be a string of several characters,
    are outside the embedding (see [asciiPromotion]). *)
Definition choosePromotion (color : Player) (to : Square)
    (promotionChar : option ascii) : option ascii :=
  let promoRank := match color with white => 0 | black => 7 end in
  if rank to =? promoRank then
    let pch := default "q"%char promotionChar in
    let promotion :=
      match color with white => toUpperCase pch | black => toLowerCase pch end in
    if negb (chr_in promotion "qrbnQRBN")
    then Some (match color with white => "Q"%char | black => "q"%char end)
    else Some promotion
  else None.

(** The pawn branch. *)
Definition pawnCheck (color : Player) (from to : Square) (targetPiece : Cell)
    (promotionChar : option ascii) : M Legality :=
  let dr := rank to - rank from in
  let df := file to - file from in
  let dir := match color with white => -1 | black => 1 end in
  let startRank := match color with white => 6 | black => 1 end in
  let finish (ep : bool) : M Legality :=
    ret (Legal ep false (choosePromotion color to promotionChar)) in
  if df =? 0 then
    if (dr =? dir) && negb (bool_decide (is_Some targetPiece)) then finish false
    else if (rank from =? startRank) && (dr =? 2 * dir)
            && negb (bool_decide (is_Some targetPiece)) then
      let* c := readBoard (rank from + dir) (file from) in
      match c with
      | Some _ => ret (Illegal "Blocked")
      | None => finish false
      end
    else ret (Illegal "Bad pawn move")
  else if (Z.abs df =? 1) && (dr =? dir) then
    match targetPiece with
    | Some _ => finish false
    | None =>
        let* ep := gets enPassantTarget in
        if negb (String.eqb ep "-") then
          let epCoords := algebraicToCoords ep in
          if bool_decide (fst epCoords = Int (rank to))
             && bool_decide (snd epCoords = Int (file to))
          then finish true
          else ret (Illegal "No EP")
        else ret (Illegal "No EP")
    end
  else ret (Illegal "Bad pawn vector").

(** The loop [for (let f = from.file + step; f !== rookFile; f += step)] of
    the castling branch; [None] when it has not met [rookFile] after [n]
    rounds. *)
Fixpoint castlePathFree (n : nat) (r f step rookFile : Z) : M bool :=
  if f =? rookFile then ret true
  else match n with
       | O => fun _ => None
       | S n' =>
           let* c := readBoard r f in
           match c with
           | Some _ => ret false
           | None => castlePathFree n' r (f + step) step rookFile
           end
       end.

Section Knot.

(** The recursive call [this.isLegalMoveWithState(from, to, piece)]. *)
Variable isLegal : Square -> Square -> Cell -> option ascii -> M Legality.

(** [opts] is [Some b] for [{ includeKingSafety: b }], [None] for [{}]. *)
Definition generateAllPseudoLegalMoves_ (player : Player) (opts : option bool)
    : M (list GenMove) :=
  let includeKingSafety := negb (bool_decide (opts = Some false)) in
  forM range8 (fun rank moves =>
    forM range8 (fun file moves =>
      let* piece := readBoard rank file in
      match piece with
      | None => ret moves
      | Some p =>
          if negb (isPieceOwnedByPlayer p player) then ret moves
          else
            let from := mkSquare rank file in
            forM range8 (fun toRank moves =>
              forM range8 (fun toFile moves =>
                let to := mkSquare toRank toFile in
                let* res := isLegal from to (Some p) None in
                if ok res then
                  let* cap := readBoard toRank toFile in
                  ret (moves ++ [mkGenMove from to p cap res])%list
                else ret moves) moves) moves
      end) moves) [].

Definition generateAllLegalMoves_ (player : Player) : M (list GenMove) :=
  generateAllPseudoLegalMoves_ player (Some true).

Definition isSquareAttacked_ (square : Square) (color : Player) : M bool :=
  let attacker := opponent color in
  let* attacks := generateAllPseudoLegalMoves_ attacker (Some false) in
  ret (existsb (fun m => (rank (g_to m) =? rank square)
                         && (file (g_to m) =? file square)) attacks).

Definition isKingInCheck_ (color : Player) : M bool :=
  let kingPiece := match color with white => "K"%char | black => "k"%char end in
  let* kingSq :=
    forM range8 (fun r kingSq =>
      forM range8 (fun f kingSq =>
        let* c := readBoard r f in
        if bool_decide (c = Some kingPiece) then ret (Some (mkSquare r f))
        else ret kingSq) kingSq) None in
  match kingSq with
  | None => ret false
  | Some sq => isSquareAttacked_ sq color
  end.

(** The king branch. *)
Definition kingCheck (color : Player) (from to : Square) : M Legality :=
  let dr := rank to - rank from in
  let df := file to - file from in
  if (dr =? 0) && (Z.abs df =? 2) then
    let* rights := gets castlingRights in
    let sideKing :=
      match color with white => mkSquare 7 4 | black => mkSquare 0 4 end in
    if negb (rank from =? rank sideKing) || negb (file from =? file sideKing)
    then ret (Illegal "King not on start")
    else
      let kingSide := file to =? 6 in
      let queenSide := file to =? 2 in
      if negb kingSide && negb queenSide then ret (Illegal "Bad castle target")
      else
        let canCastle :=
          match color with
          | white => if kingSide then crK rights else crQ rights
          | black => if kingSide then crk rights else crq rights
          end in
        if negb canCastle then ret (Illegal "No castling rights")
        else
          let rookFile := if kingSide then 7 else 0 in
          let step := if kingSide then 1 else -1 in
          let* free := castlePathFree 8 (rank from) (file from + step) step rookFile in
          if negb free then ret (Illegal "Path blocked")
          else
            let* a := isSquareAttacked_ from color in
            if a then ret (Illegal "King in check")
            else
              let mid := mkSquare (rank from) (file from + step) in
              let* a := isSquareAttacked_ mid color in
              if a then ret (Illegal "Through check")
              else
                let* a := isSquareAttacked_ to color in
                if a then ret (Illegal "Into check")
                else ret (Legal false true None)
  else
    if (1 <? Z.abs dr) || (1 <? Z.abs df) then ret (Illegal "Bad king move")
    else ret (Legal false false None).

(** The dispatch on [pieceLower]; [Legal] carries the locals
    [isEnPassant], [isCastling], [promotion] into the simulation. *)
Definition kindCheck (p : ascii) (color : Player) (from to : Square)
    (targetPiece : Cell) (promotionChar : option ascii) : M Legality :=
  let dr := rank to - rank from in
  let df := file to - file from in
  let pieceLower := toLowerCase p in
  if Ascii.eqb pieceLower "p" then pawnCheck color from to targetPiece promotionChar
  else if Ascii.eqb pieceLower "n" then
    let good := ((Z.abs dr =? 2) && (Z.abs df =? 1))
                || ((Z.abs dr =? 1) && (Z.abs df =? 2)) in
    if negb good then ret (Illegal "Bad knight move") else ret (Legal false false None)
  else if Ascii.eqb pieceLower "b" then
    if negb (Z.abs dr =? Z.abs df) then ret (Illegal "Bad bishop move")
    else
      let* clear := pathClear from (sign dr) (sign df) (Z.abs dr) in
      if negb clear then ret (Illegal "Blocked") else ret (Legal false false None)
  else if Ascii.eqb pieceLower "r" then
    if negb ((dr =? 0) || (df =? 0)) then ret (Illegal "Bad rook move")
    else
      let steps := Z.abs dr + Z.abs df in
      let drs := if dr =? 0 then 0 else sign dr in
      let dfs := if df =? 0 then 0 else sign df in
      let* clear := pathClear from drs dfs steps in
      if negb clear then ret (Illegal "Blocked") else ret (Legal false false None)
  else if Ascii.eqb pieceLower "q" then
    if negb ((Z.abs dr =? Z.abs df) || (dr =? 0) || (df =? 0))
    then ret (Illegal "Bad queen move")
    else
      let steps := Z.max (Z.abs dr) (Z.abs df) in
      let drs := if dr =? 0 then 0 else sign dr in
      let dfs := if df =? 0 then 0 else sign df in
      let* clear := pathClear from drs dfs steps in
      if negb clear then ret (Illegal "Blocked") else ret (Legal false false None)
  else if Ascii.eqb pieceLower "k" then kingCheck color from to
  else ret (Legal false false None).

(** The tail of [isLegalMoveWithState]: snapshot, simulated apply,
    [isKingInCheck], restore. *)
Definition simulateAndVerify (p : ascii) (color : Player) (from to : Square)
    (targetPiece : Cell) (flags : Legality) : M Legality :=
  let* snapshot := snapshotState in
  let* _ := update (applyMoveToState
                      (mkMove from to (Some p) targetPiece (l_promotion flags)
                         (l_isEnPassant flags) (l_isCastling flags)) true) in
  let* stillInCheck := isKingInCheck_ color in
  let* _ := restoreSnapshot snapshot in
  if stillInCheck then ret (Illegal "Leaves king in check") else ret flags.

Definition isLegalMoveWithState_body (from to : Square) (piece : Cell)
    (promotionChar : option ascii) : M Legality :=
  match piece with
  | None => ret (Illegal "No piece")
  | Some p =>
      if (rank from =? rank to) && (file from =? file to)
      then ret (Illegal "Same square")
      else
        let* targetPiece := readBoard (rank to) (file to) in
        if match targetPiece with Some t => isSameColor p t | None => false end
        then ret (Illegal "Own piece on target")
        else
          let color := colorOf p in
          let* cur := gets currentPlayer in
          if negb (Player_eqb color cur) then ret (Illegal "Not turn")
          else
            let* flags := kindCheck p color from to targetPiece promotionChar in
            match flags with
            | Illegal why => ret (Illegal why)
            | Legal _ _ _ => simulateAndVerify p color from to targetPiece flags
            end
  end.

End Knot.

(** [isLegalMoveWithState]; [fuel] bounds the depth of the recursion through
    [isSquareAttacked] and [generateAllPseudoLegalMoves]. *)
Fixpoint isLegalMoveWithState (fuel : nat) (from to : Square) (piece : Cell)
    (promotionChar : option ascii) : M Legality :=
  match fuel with
  | O => fun _ => None
  | S n => isLegalMoveWithState_body (isLegalMoveWithState n) from to piece promotionChar
  end.

Definition generateAllPseudoLegalMoves (fuel : nat) (player : Player)
    (opts : option bool) : M (list GenMove) :=
  generateAllPseudoLegalMoves_ (isLegalMoveWithState fuel) player opts.

Definition generateAllLegalMoves (fuel : nat) (player : Player) : M (list GenMove) :=
  generateAllLegalMoves_ (isLegalMoveWithState fuel) player.

Definition isSquareAttacked (fuel : nat) (square : Square) (color : Player) : M bool :=
  isSquareAttacked_ (isLegalMoveWithState fuel) square color.

Definition isKingInCheck (fuel : nat) (color : Player) : M bool :=
  isKingInCheck_ (isLegalMoveWithState fuel) color.

(** ** FEN decoding *)

(** [String.prototype.split] with a one-character separator. *)
Fixpoint split (sep : ascii) (s : string) : list string :=
  match s with
  | "" => [""]
  | String c r =>
      if Ascii.eqb c sep then "" :: split sep r
      else match split sep r with
           | h :: t => String c h :: t
           | [] => [String c ""]
           end
  end.

(** The inner loop of [parseFENPlacement] over the characters of one row;
    on a digit, [parseInt(char, 10)] is the digit's value. *)
Fixpoint parseRow (chars : string) (rank file : Z) (b : Board) : option Board :=
  match chars with
  | "" => Some b
  | String char rest =>
      if isDigit char then parseRow rest rank (file + digitVal char) b
      else b' ← writeSq b rank file (Some char); parseRow rest rank (file + 1) b'
  end.

(** [for (let rank = 0; rank < 8; rank++)] of [parseFENPlacement];
    iterating a missing row throws. *)
Fixpoint parseRows (ranks : list Z) (rows : list string) (b : Board) : option Board :=
  match ranks with
  | [] => Some b
  | rank :: more =>
      row ← rows !! Z.to_nat rank;
      b' ← parseRow row rank 0 b;
      parseRows more rows b'
  end.

Definition parseFENPlacement (placement : string) : option Board :=
  parseRows range8 (split "/" placement) createEmptyBoard.

(** [s.includes(c)] for a one-character [c]. *)
Definition includes (s : string) (c : ascii) : bool := chr_in c s.

(** [x || d] on a possibly missing string. *)
Definition orElse (x : option string) (d : string) : string :=
  match x with
  | Some s => if String.eqb s "" then d else s
  | None => d
  end.

(** [setPositionFromFEN]. Calling [includes] on a missing castling field
    throws. *)
Definition setPositionFromFEN (fen : string) (st : ChessGame) : option ChessGame :=
  let parts := split " " fen in
  placement ← parts !! 0%nat;
  b ← parseFENPlacement placement;
  let side := parts !! 1%nat in
  castling ← parts !! 2%nat;
  let ep := parts !! 3%nat in
  let half := parts !! 4%nat in
  let full := parts !! 5%nat in
  Some (mkGame b fen
          (if bool_decide (side = Some "w") then white else black)
          (mkCR (includes castling "K") (includes castling "Q")
                (includes castling "k") (includes castling "q"))
          (orElse ep "-")
          (parseInt (orElse half "0"))
          (parseInt (orElse full "1"))
          (scoresWhite st) (scoresBlack st) (moveCountWhite st) (moveCountBlack st)
          (maxMoves st) (gameActive st) (gameResult st) (currentPhase st)).

(** *** [validateFEN] *)

(** The loop over one row: [Some count], or [None] for the [return false]
    on a foreign character. *)
Fixpoint rowCount (row : string) (count : Z) : option Z :=
  match row with
  | "" => Some count
  | String char rest =>
      if isDigit char then rowCount rest (count + digitVal char)
      else if chr_in char "prnbqkPRNBQK" then rowCount rest (count + 1)
      else None
  end.

Definition rowOK (row : string) : bool :=
  match rowCount row 0 with
  | Some count => count =? 8
  | None => false
  end.

(** [/^[wb]$/] *)
Definition re_side (s : string) : bool :=
  match s with
  | String c "" => chr_in c "wb"
  | _ => false
  end.

(** One optional literal character of a pattern: [c?]. *)
Definition optChar (c : ascii) (s : string) : string :=
  match s with
  | String c' r => if Ascii.eqb c' c then r else s
  | "" => ""
  end.

(** [/^(-|K?Q?k?q?)$/] *)
Definition re_castling (s : string) : bool :=
  String.eqb s "-"
  || String.eqb (optChar "q" (optChar "k" (optChar "Q" (optChar "K" s)))) "".

(** [/^(-|[a-h][36])$/] *)
Definition re_ep_square (s : string) : bool :=
  String.eqb s "-"
  || match s with
     | String c0 (String c1 "") => chr_in c0 "abcdefgh" && chr_in c1 "36"
     | _ => false
     end.

(** [/^(-|[a-h])$/] *)
Definition re_ep_file (s : string) : bool :=
  String.eqb s "-"
  || match s with
     | String c0 "" => chr_in c0 "abcdefgh"
     | _ => false
     end.

(** [/^\d+$/] *)
Definition re_digits (s : string) : bool :=
  negb (String.eqb s "") && forallb isDigit (list_ascii_of_string s).

(** [parts[i] && !/^\d+$/.test(parts[i])] *)
Definition badClock (x : option string) : bool :=
  match x with
  | Some s => negb (String.eqb s "") && negb (re_digits s)
  | None => false
  end.

Definition validateFEN (fen : string) : bool :=
  if String.eqb fen "" then false
  else
    let parts := split " " fen in
    if (length parts <? 4)%nat then false
    else
      let rows := split "/" (default "" (parts !! 0%nat)) in
      if negb (length rows =? 8)%nat then false
      else if negb (forallb rowOK rows) then false
      else if negb (re_side (default "" (parts !! 1%nat))) then false
      else if negb (re_castling (default "" (parts !! 2%nat))) then false
      else if negb (re_ep_square (default "" (parts !! 3%nat)))
              && negb (re_ep_file (default "" (parts !! 3%nat))) then false
      else if badClock (parts !! 4%nat) then false
      else if badClock (parts !! 5%nat) then false
      else true.

(** ** End of turn *)

Definition determineWinnerByReason (why : string) (st : ChessGame) : string :=
  if String.eqb why "Checkmate" then
    match currentPlayer st with white => "Black" | black => "White" end
  else if scoresBlack st <? scoresWhite st then "White"
  else if scoresWhite st <? scoresBlack st then "Black"
  else "Draw".

Definition endGame (why : string) : M unit :=
  fun st =>
    let winner := determineWinnerByReason why st in
    Some (tt,
      mkGame (board st) (currentFEN st) (currentPlayer st) (castlingRights st)
        (enPassantTarget st) (halfmoveClock st) (fullmoveNumber st)
        (scoresWhite st) (scoresBlack st) (moveCountWhite st) (moveCountBlack st)
        (maxMoves st) false
        (Some (mkGameResult why winner (scoresWhite st) (scoresBlack st)
                 (moveCountWhite st + moveCountBlack st)))
        4).

Definition checkGameEndEarly (fuel : nat) : M bool :=
  let* playerToMove := gets currentPlayer in
  let* moves := generateAllLegalMoves fuel playerToMove in
  let hasMoves := (0 <? length moves)%nat in
  let* inCheck := isKingInCheck fuel playerToMove in
  if negb hasMoves then
    let* _ := endGame (if inCheck then "Checkmate" else "Stalemate") in
    ret true
  else ret false.

Definition checkGameEnd : M bool :=
  let* st := gets id in
  if (maxMoves st <=? moveCountWhite st) && (maxMoves st <=? moveCountBlack st) then
    let* _ := endGame "Move limit reached" in
    ret true
  else ret false.

(** [this.moveCount[this.currentPlayer]++] *)
Definition bumpMoveCount : M unit :=
  fun st =>
    Some (tt,
      match currentPlayer st with
      | white =>
          mkGame (board st) (currentFEN st) (currentPlayer st) (castlingRights st)
            (enPassantTarget st) (halfmoveClock st) (fullmoveNumber st)
            (scoresWhite st) (scoresBlack st)
            (moveCountWhite st + 1) (moveCountBlack st)
            (maxMoves st) (gameActive st) (gameResult st) (currentPhase st)
      | black =>
          mkGame (board st) (currentFEN st) (currentPlayer st) (castlingRights st)
            (enPassantTarget st) (halfmoveClock st) (fullmoveNumber st)
            (scoresWhite st) (scoresBlack st)
            (moveCountWhite st) (moveCountBlack st + 1)
            (maxMoves st) (gameActive st) (gameResult st) (currentPhase st)
      end).

(** The turn switch of [endPlayerTurn]/[endAITurn]:
    [currentPlayer] flips, [fullmoveNumber++] when White is next, then
    [syncFENFromState]. *)
Definition switchTurn : M unit :=
  fun st =>
    let next := opponent (currentPlayer st) in
    let full := match next with
                | white => incr (fullmoveNumber st)
                | black => fullmoveNumber st
                end in
    Some (tt, syncFENFromState
      (mkGame (board st) (currentFEN st) next (castlingRights st)
         (enPassantTarget st) (halfmoveClock st) full
         (scoresWhite st) (scoresBlack st) (moveCountWhite st) (moveCountBlack st)
         (maxMoves st) (gameActive st) (gameResult st) (currentPhase st))).

(** [endPlayerTurn] and [endAITurn] have the same body on the fields
    modelled (they differ in scheduling the engine's reply). The result is
    [true] when the method returned through one of the two end checks. *)
Definition endTurn (fuel : nat) : M bool :=
  let* _ := bumpMoveCount in
  let* ended := checkGameEndEarly fuel in
  if ended then ret true
  else
    let* _ := switchTurn in
    let* ended := checkGameEnd in
    ret ended.

Definition endPlayerTurn := endTurn.
Definition endAITurn := endTurn.

(** A fresh [ChessGame] as the constructor leaves it. *)
Definition newGame : ChessGame :=
  mkGame createEmptyBoard "rnbqkbnr/pppppppp/8/8/8/8/PPPPPPPP/RNBQKBNR w KQkq - 0 1"
    white (mkCR true true true true) "-" (Int 0) (Int 1) 0 0 0 0 6 false None 0.


(** ** Vocabulary of the statements *)

(** What a simulated apply can change: the six Position fields only. *)
Definition sameOutsidePosition (st st1 : ChessGame) : Prop :=
  currentFEN st1 = currentFEN st /\ scoresWhite st1 = scoresWhite st /\
  scoresBlack st1 = scoresBlack st /\ moveCountWhite st1 = moveCountWhite st /\
  moveCountBlack st1 = moveCountBlack st /\ maxMoves st1 = maxMoves st /\
  gameActive st1 = gameActive st /\ gameResult st1 = gameResult st /\
  currentPhase st1 = currentPhase st.

(** The reasons the kind-specific rules can give. *)
Definition kindReasons : list string :=
  [ "Blocked"; "Bad pawn move"; "No EP"; "Bad pawn vector"; "Bad knight move";
    "Bad bishop move"; "Bad rook move"; "Bad queen move"; "King not on start";
    "Bad castle target"; "No castling rights"; "Path blocked"; "Bad king move" ].

(** Every reason [isLegalMoveWithState] can return. The four that report an
    attack are not among them. *)
Definition reachableReasons : list string :=
  [ "No piece"; "Same square"; "Own piece on target"; "Not turn" ] ++ kindReasons.

(** The rows [board[0]] .. [board[7]] exist. *)
Definition hasRanks (b : Board) : Prop := (8 <= length b)%nat.

(** A square of the 8x8 board. *)
Definition onGrid (s : Square) : Prop :=
  (0 <= rank s < 8) /\ (0 <= file s < 8).

(** The sign of the pawn direction in the checker, per colour. *)
Definition pawnDir (color : Player) : Z :=
  match color with white => -1 | black => 1 end.

(** Pointwise order on the four rights. *)
Definition rightsLe (c' c : CastlingRights) : Prop :=
  (crK c' = true -> crK c = true) /\ (crQ c' = true -> crQ c = true) /\
  (crk c' = true -> crk c = true) /\ (crq c' = true -> crq c = true).

(** [setPositionFromFEN] on a fresh game; [newGame] itself when it throws. *)
Definition load (fen : string) : ChessGame :=
  default newGame (setPositionFromFEN fen newGame).

(** White knight e2 shields the king on e1 from the rook on e8. *)
Definition pinnedKnight : ChessGame := load "4r2k/8/8/8/8/8/4N3/4K3 w - - 0 1".

(** Rook e8 faces the king on e1 along the open file; White / Black to move. *)
Definition openFileW : ChessGame := load "4r2k/8/8/8/8/8/8/4K3 w - - 0 1".

Definition openFileB : ChessGame := load "4r2k/8/8/8/8/8/8/4K3 b - - 0 1".

(** White may castle short; the rook on f8 covers f1. White / Black to move. *)
Definition castleThroughW : ChessGame := load "k4r2/8/8/8/8/8/8/4K2R w K - 0 1".

Definition castleThroughB : ChessGame := load "k4r2/8/8/8/8/8/8/4K2R b K - 0 1".

(** White (king a8, pawns a7, b7, b8) has just moved and has no move left;
    Black (knight c7, king h1) is next. *)
Definition boxedKing : ChessGame := load "KP6/PPn5/8/8/8/8/8/7k w - - 0 1".

(** After 1... d7d5 with a white pawn on e5. *)
Definition enPassantReady : ChessGame := load "4k3/8/8/3pP3/8/8/8/4K3 w - d6 0 2".

Definition startPosition : ChessGame :=
  load "rnbqkbnr/pppppppp/8/8/8/8/PPPPPPPP/RNBQKBNR w KQkq - 0 1".

(** Squares by their algebraic names ([rank] counts from the eighth rank). *)
Definition c3 : Square := mkSquare 5 2.

Definition d5 : Square := mkSquare 3 3.

Definition d6 : Square := mkSquare 2 3.

Definition e1 : Square := mkSquare 7 4.

Definition e2 : Square := mkSquare 6 4.

Definition e4 : Square := mkSquare 4 4.

Definition e5 : Square := mkSquare 3 4.

Definition e8 : Square := mkSquare 0 4.

Definition f1 : Square := mkSquare 7 5.

Definition f8 : Square := mkSquare 0 5.

Definition g1 : Square := mkSquare 7 6.

Definition h1 : Square := mkSquare 7 7.

(** The square of the pawn an en-passant capture removes: one rank behind
    the destination, seen from the mover. *)
Definition capturedPawnRank (p : ascii) (to : Square) : Z :=
  rank to + match colorOf p with white => 1 | black => -1 end.

(** [/[prnbqkPRNBQK]/.test(char)] *)
Definition isPieceLetter (c : ascii) : bool := chr_in c "prnbqkPRNBQK".

(** Squares a placement character stands for. *)
Definition squaresOf (c : ascii) : Z := if isDigit c then digitVal c else 1.

Fixpoint rowWidth (row : string) : Z :=
  match row with
  | "" => 0
  | String c rest => squaresOf c + rowWidth rest
  end.

Definition rowChars (ok : ascii -> bool) (row : string) : Prop :=
  Forall (fun c => ok c = true) (list_ascii_of_string row).

(** The letters K, Q, k, q, each present or not, in that order. *)
Definition castlingLetters (bK bQ bk bq : bool) : string :=
  (if bK then "K" else "") +:+ (if bQ then "Q" else "")
  +:+ (if bk then "k" else "") +:+ (if bq then "q" else "").

Definition isFileLetter (c : ascii) : bool := chr_in c "abcdefgh".

(** A missing or empty clock field, or a string of digits. *)
Definition clockFieldOK (x : option string) : Prop :=
  match x with
  | None => True
  | Some s => s = "" \/ rowChars isDigit s
  end.

(** Everything [validateFEN] requires of a string it accepts. *)
Definition acceptedFEN (fen : string) : Prop :=
  let parts := split " " fen in
  let field i := default "" (parts !! i) in
  fen <> ""
  /\ (4 <= length parts)%nat
  /\ length (split "/" (field 0%nat)) = 8%nat
  /\ Forall (fun row => rowChars (fun c => isDigit c || isPieceLetter c) row
                        /\ rowWidth row = 8)
       (split "/" (field 0%nat))
  /\ (field 1%nat = "w" \/ field 1%nat = "b")
  /\ (field 2%nat = "-"
      \/ exists bK bQ bk bq, field 2%nat = castlingLetters bK bQ bk bq)
  /\ (field 3%nat = "-"
      \/ exists c0, isFileLetter c0 = true
           /\ (field 3%nat = String c0 "" \/ field 3%nat = String c0 "3"
               \/ field 3%nat = String c0 "6"))
  /\ clockFieldOK (parts !! 4%nat)
  /\ clockFieldOK (parts !! 5%nat).

(** Digits 1-8 only. *)
Definition isDigit18 (c : ascii) : bool :=
  let n := N_of_ascii c in ((49 <=? n) && (n <=? 56))%N.

(** A well-formed FEN in the strict sense: run lengths 1-8, castling '-' or
    a non-empty ordered subset of KQkq, en passant '-' or a square on rank 3
    or 6. *)
Definition strictFEN (fen : string) : Prop :=
  let parts := split " " fen in
  let field i := default "" (parts !! i) in
  (4 <= length parts)%nat
  /\ length (split "/" (field 0%nat)) = 8%nat
  /\ Forall (fun row => rowChars (fun c => isDigit18 c || isPieceLetter c) row
                        /\ rowWidth row = 8)
       (split "/" (field 0%nat))
  /\ (field 1%nat = "w" \/ field 1%nat = "b")
  /\ (field 2%nat = "-"
      \/ exists bK bQ bk bq,
           field 2%nat = castlingLetters bK bQ bk bq /\ bK || bQ || bk || bq = true)
  /\ (field 3%nat = "-"
      \/ exists c0, isFileLetter c0 = true
           /\ (field 3%nat = String c0 "3" \/ field 3%nat = String c0 "6"))
  /\ clockFieldOK (parts !! 4%nat)
  /\ clockFieldOK (parts !! 5%nat).

(** "A subset of KQkq in any order": letters of KQkq, none twice. *)
Definition spec_subsetOfKQkq (s : string) : bool :=
  forallb (fun c => chr_in c "KQkq") (list_ascii_of_string s)
  && bool_decide (NoDup (list_ascii_of_string s)).

(** "A valid algebraic square": a file a-h and a rank 1-8. *)
Definition spec_algebraicSquare (s : string) : bool :=
  match s with
  | String c0 (String c1 "") => isFileLetter c0 && isDigit18 c1
  | _ => false
  end.

(** The malformations listed in the specification (section 4.1), in its
    words: placement not 8 rows; a row whose expanded square count is not 8;
    a character that is neither one of the 12 piece letters nor a digit 1-8;
    side not "w" or "b"; castling neither '-' nor a subset of KQkq in any
    order; en passant neither '-' nor an algebraic square. *)
Definition spec_malformed (fen : string) : bool :=
  let parts := split " " fen in
  let field i := default "" (parts !! i) in
  let rows := split "/" (field 0%nat) in
  negb (length rows =? 8)%nat
  || existsb (fun row => negb (rowWidth row =? 8)) rows
  || existsb (fun row =>
       existsb (fun c => negb (isDigit18 c || isPieceLetter c))
         (list_ascii_of_string row)) rows
  || negb (String.eqb (field 1%nat) "w" || String.eqb (field 1%nat) "b")
  || negb (String.eqb (field 2%nat) "-" || spec_subsetOfKQkq (field 2%nat))
  || negb (String.eqb (field 3%nat) "-" || spec_algebraicSquare (field 3%nat)).

(** A cell holding nothing or one of the twelve piece letters. *)
Definition wfCell (c : Cell) : Prop :=
  match c with Some p => isPieceLetter p = true | None => True end.

Definition wfRow (row : list Cell) : Prop :=
  length row = 8%nat /\ Forall wfCell row.

Definition wfBoard (b : Board) : Prop :=
  length b = 8%nat /\ Forall wfRow b.

(** The six fields of a Position agree. *)
Definition samePosition (a b : ChessGame) : Prop :=
  board a = board b /\ currentPlayer a = currentPlayer b
  /\ castlingRights a = castlingRights b /\ enPassantTarget a = enPassantTarget b
  /\ halfmoveClock a = halfmoveClock b /\ fullmoveNumber a = fullmoveNumber b.

(** An integer clock of at least [lo] that [x | 0] does not wrap. *)
Definition clockIn (lo : Z) (n : number) : Prop :=
  exists z, n = Int z /\ lo <= z < 2147483648.

(** Positions on which the codec is a bijection: an 8x8 board of piece
    letters, a non-empty en-passant text without blanks, and clocks that
    the encoder does not clamp or wrap. *)
Definition wfPosition (st : ChessGame) : Prop :=
  wfBoard (board st)
  /\ enPassantTarget st <> "" /\ chr_in " " (enPassantTarget st) = false
  /\ clockIn 0 (halfmoveClock st) /\ clockIn 1 (fullmoveNumber st).

(** White has just played Ra1-a8: the black king on g8 stands behind its
    own pawns f7, g7, h7 and is attacked along the back rank. *)
Definition backRankMate : ChessGame := load "R5k1/5ppp/8/8/8/8/8/6K1 w - - 1 1".

(** Whether the enumerated move [m], once applied and the turn passed on,
    leaves the king of the moving side attacked, as [isKingInCheck] then
    sees it. *)
Definition leavesKingAttacked (fuel : nat) (st : ChessGame) (m : GenMove)
    : option bool :=
  st1 ← applyMoveToState
          (mkMove (g_from m) (g_to m) (Some (g_piece m)) (g_capturedPiece m)
             (l_promotion (g_meta m)) (l_isEnPassant (g_meta m))
             (l_isCastling (g_meta m))) true st;
  '(_, st2) ← switchTurn st1;
  '(b, _) ← isKingInCheck fuel (colorOf (g_piece m)) st2;
  Some b.

(** Both sides may still castle; White's short side is free. *)
Definition castleShort : ChessGame := load "r3k2r/8/8/8/8/8/8/4K2R w Kkq - 0 1".

(** ** Code around the rules engine, and the vocabulary of its statements *)

(** ** Runs that agree whenever the first returns *)

(** [c'] returns whatever [c] returns. *)
Definition refines {A} (c c' : M A) : Prop :=
  forall st r, c st = Some r -> c' st = Some r.

(** The last rank of a pawn, the king's home square and the castling right
    of a side, as the checker reads them. *)
Definition promoRank (color : Player) : Z :=
  match color with white => 0 | black => 7 end.

Definition startRank (color : Player) : Z :=
  match color with white => 6 | black => 1 end.

Definition sideKing (color : Player) : Square :=
  match color with white => mkSquare 7 4 | black => mkSquare 0 4 end.

Definition canCastle (color : Player) (kingSide : bool) (rights : CastlingRights)
    : bool :=
  match color with
  | white => if kingSide then crK rights else crQ rights
  | black => if kingSide then crk rights else crq rights
  end.

(** The files strictly between the king on the e-file and the rook. *)
Definition betweenKingAndRook (kingSide : bool) (f : Z) : Prop :=
  if kingSide then 4 < f < 7 else 0 < f < 4.

(** The four reasons that report an attacked king. *)
Definition attackReasons : list string :=
  [ "Leaves king in check"; "King in check"; "Through check"; "Into check" ].

(** A promotion letter of the ASCII range, or none. There the case mapping
    of the embedding is that of JavaScript, and the test of a one-character
    string against [/[qrbnQRBN]/] is membership in the class. *)
Definition asciiPromotion (promotionChar : option ascii) : Prop :=
  match promotionChar with
  | Some c => (N_of_ascii c < 128)%N
  | None => True
  end.

(** A white pawn on e7 with the promotion square free. *)
Definition promotionReady : ChessGame := load "8/4P3/8/8/8/8/8/k6K w - - 0 1".

Definition e7 : Square := mkSquare 1 4.

(** The squares [applyMoveToState] writes besides origin and destination:
    the pawn an en-passant capture removes, and the rook's two squares. *)
Definition rookFromFile (to : Square) : Z := if file to =? 6 then 7 else 0.

Definition rookToFile (to : Square) : Z := if file to =? 6 then 5 else 3.

(** A black rook facing the white queen on the open e-file, Black to move. *)
Definition queenEnPrise : ChessGame := load "4r2k/8/8/8/8/8/8/4Q1K1 b - - 0 1".

(** The points [updateScoreOnCapture] adds for a captured cell. *)
Definition capturePoints (victim : Cell) : Z :=
  match victim with Some v => pieceValue v | None => 0 end.

(** An en-passant field as it stands after a move: no target, or the square
    behind a pawn that has just advanced two ranks. *)
Definition epFieldOK (s : string) : Prop :=
  s = "-" \/ exists c0, isFileLetter c0 = true /\ (s = String c0 "3" \/ s = String c0 "6").

(** The letter of a file of the board. *)
Definition fileLetter (f : Z) : ascii := ascii_of_N (Z.to_N ((97 + f) mod 256)).

(** ** Move ordering *)

(** [mvvValue]: [(piece || '').toLowerCase()] and the [switch]. *)
Definition mvvValue (piece : Cell) : Z :=
  match piece with
  | None => 0
  | Some c =>
      let p := toLowerCase c in
      if Ascii.eqb p "q" then 9
      else if Ascii.eqb p "r" then 5
      else if Ascii.eqb p "b" then 3
      else if Ascii.eqb p "n" then 3
      else if Ascii.eqb p "p" then 1
      else if Ascii.eqb p "k" then 100
      else 0
  end.

(** [scoreMVVLVA] on an element of the enumerator's list. *)
Definition scoreMVVLVA (move : GenMove) : Z :=
  if negb (bool_decide (is_Some (g_capturedPiece move)))
     && negb (l_isEnPassant (g_meta move)) then 0
  else
    let victim := mvvValue (g_capturedPiece move) in
    let attacker := mvvValue (Some (g_piece move)) in
    let score := victim * 8 - attacker in
    let score :=
      if bool_decide (is_Some (l_promotion (g_meta move))) then score + 5 else score in
    let score := if l_isEnPassant (g_meta move) then score + 1 else score in
    score.

(** ** The drawing order of the squares *)

Record BoardSquare := mkBoardSquare { sq_rank : Z; sq_file : Z; sq_color : string }.

(** [getSquareOrder]; [isFlipped] is the field of that name. *)
Definition getSquareOrder (isFlipped : bool) : list BoardSquare :=
  let ranks := if isFlipped then map (fun i => i) range8
               else map (fun i => 7 - i) range8 in
  let files := if isFlipped then map (fun i => 7 - i) range8
               else map (fun i => i) range8 in
  flat_map (fun rank =>
    map (fun file =>
           mkBoardSquare rank file
             (if (rank + file) mod 2 =? 0 then "light" else "dark")) files) ranks.

(** ** The page around the rules engine

    Of the page, the methods below read two things besides the fields of
    [ChessGame]: whether the element [#board] exists ([boardEl]; without it
    [renderBoardEditor] returns at once), and [this.dragSource], which the
    drag handlers set. Both are passed in. *)

(** [this.dragSource]: a square of the board, or [{ spare: true, piece }]. *)
Inductive DragSource := FromSquare (sq : Square) | SparePiece (piece : ascii).

Definition set_board (b : Board) (st : ChessGame) : ChessGame :=
  mkGame b (currentFEN st) (currentPlayer st) (castlingRights st)
    (enPassantTarget st) (halfmoveClock st) (fullmoveNumber st)
    (scoresWhite st) (scoresBlack st) (moveCountWhite st) (moveCountBlack st)
    (maxMoves st) (gameActive st) (gameResult st) (currentPhase st).

Definition set_currentPhase (ph : Z) (st : ChessGame) : ChessGame :=
  mkGame (board st) (currentFEN st) (currentPlayer st) (castlingRights st)
    (enPassantTarget st) (halfmoveClock st) (fullmoveNumber st)
    (scoresWhite st) (scoresBlack st) (moveCountWhite st) (moveCountBlack st)
    (maxMoves st) (gameActive st) (gameResult st) ph.

(** [this.board[r][f] = v] *)
Definition writeBoard (r f : Z) (v : Cell) : M unit :=
  update (fun st => b ← writeSq (board st) r f v; Some (set_board b st)).

(** [renderBoardEditor]: the part that reaches the state is its closing
    [syncFENFromState]. *)
Definition renderBoardEditor (boardEl : bool) : M unit :=
  if boardEl then update (fun st => Some (syncFENFromState st)) else ret tt.

(** [updatePhaseUI]: [if (this.currentPhase === 1) this.renderBoardEditor()]. *)
Definition updatePhaseUI (boardEl : bool) : M unit :=
  let* ph := gets currentPhase in
  if ph =? 1 then renderBoardEditor boardEl else ret tt.

Definition nextPhase (boardEl : bool) : M unit :=
  let* ph := gets currentPhase in
  if ph <? 4 then
    let* _ := update (fun st => Some (set_currentPhase (ph + 1) st)) in
    updatePhaseUI boardEl
  else ret tt.

(** [handleCapture]: as [updateScoreOnCapture], without the test for a
    missing victim. *)
Definition handleCapture (attacker victim : ascii) : M unit :=
  update (fun st => Some (updateScoreOnCapture attacker (Some victim) st)).

(** [handleDrop] of the editor; the result is the new [this.dragSource].
    A spare piece as drag source has no [rank], and [this.board[undefined]]
    is [undefined], so the piece lookup throws. *)
Definition handleDrop (boardEl : bool) (dragSource : option DragSource)
    (targetSquare : Square) : M (option DragSource) :=
  match dragSource with
  | None => ret None
  | Some (SparePiece _) => fun _ => None
  | Some (FromSquare src) =>
      let* piece := readBoard (rank src) (file src) in
      match piece with
      | None => ret dragSource
      | Some p =>
          let* existingPiece := readBoard (rank targetSquare) (file targetSquare) in
          let* _ := match existingPiece with
                    | Some v => handleCapture p v
                    | None => ret tt
                    end in
          let* _ := writeBoard (rank targetSquare) (file targetSquare) (Some p) in
          let* _ := writeBoard (rank src) (file src) None in
          let* _ := update (fun st => Some (syncFENFromState st)) in
          let* _ := renderBoardEditor boardEl in
          ret None
      end
  end.

(** [String.prototype.trim], on characters below code 256. *)
Fixpoint trimEnd (s : string) : string :=
  match s with
  | "" => ""
  | String c r =>
      let r' := trimEnd r in
      if isWhiteSpace c && String.eqb r' "" then "" else String c r'
  end.

Definition trim (s : string) : string := trimEnd (skipWhiteSpace s).

(** [setPositionFromFEN] with its closing
    [if (this.currentPhase === 1) this.renderBoardEditor()]. *)
Definition setPositionFromFEN_rendered (boardEl : bool) (fen : string) : M unit :=
  let* _ := update (setPositionFromFEN fen) in
  let* ph := gets currentPhase in
  if ph =? 1 then renderBoardEditor boardEl else ret tt.

(** [loadPosition]; [fenInput] is the text of the input element, [None]
    without the element. The result tells whether the position was loaded. *)
Definition loadPosition (boardEl : bool) (fenInput : option string) : M bool :=
  match fenInput with
  | None => ret false
  | Some value =>
      let fen := trim value in
      if String.eqb fen "" || negb (validateFEN fen) then ret false
      else
        let* _ := setPositionFromFEN_rendered boardEl fen in
        let* _ := nextPhase boardEl in
        ret true
  end.

(** [startGame]; [firstMove] is the field of that name. The result tells
    whether the game was started. *)
Definition startGame (firstMove : Player) : M bool :=
  let* b := gets board in
  let flatBoard := concat b in
  if negb (existsb (fun c => bool_decide (c = Some "K"%char)) flatBoard)
     || negb (existsb (fun c => bool_decide (c = Some "k"%char)) flatBoard)
  then ret false
  else
    let* _ := update (fun st => Some
      (mkGame (board st) (currentFEN st) firstMove (castlingRights st)
         (enPassantTarget st) (halfmoveClock st) (fullmoveNumber st)
         0 0 0 0 (maxMoves st) true None 3)) in
    let* _ := update (fun st => Some (syncFENFromState st)) in
    ret true.

Definition playerName (side : Player) : string :=
  match side with white => "white" | black => "black" end.

(** [resignGame]; [playerSide] is the field of that name. *)
Definition resignGame (playerSide : Player) : M unit :=
  let* active := gets gameActive in
  if active then endGame (playerName playerSide +:+ " resigned") else ret tt.

(** [generateMoveNotation]. ['abcdefgh'[i]] is [undefined] outside the
    string, and [undefined + n] is [NaN]. The local [fromSquare] is computed
    and not used. On a missing piece [piece.toUpperCase()] throws ([None]),
    unless the castling branch has returned before. *)
Definition generateMoveNotation (from to : Square) (piece : Cell)
    (capturedPiece : Cell) (meta : Legality) : option string :=
  let toSquare :=
    match (if decide (0 <= file to) then String.get (Z.to_nat (file to)) "abcdefgh"
           else None) with
    | Some c => String c (numberToString (8 - rank to))
    | None => "NaN"
    end in
  let capture :=
    if bool_decide (is_Some capturedPiece) || l_isEnPassant meta then "x" else "-" in
  if l_isCastling meta then Some (if file to =? 6 then "O-O" else "O-O-O")
  else
    match piece with
    | None => None
    | Some piece =>
        let p := if Ascii.eqb (toUpperCase piece) "P" then ""
                 else String (toUpperCase piece) "" in
        let promo := match l_promotion meta with
                     | Some c => "=" +:+ String (toUpperCase c) ""
                     | None => ""
                     end in
        Some (p +:+ capture +:+ toSquare +:+ promo)
    end.

(** [recordMove]: the notation it appends to [this.moveHistory]. *)
Definition recordMove (from to : Square) (piece : Cell) (capturedPiece : Cell)
    (meta : Legality) : M string :=
  fun st => match generateMoveNotation from to piece capturedPiece meta with
            | Some moveNotation => Some (moveNotation, st)
            | None => None
            end.

(** What [handlePlayDrop] did: returned at once, showed a toast, or made the
    move (the notation is what [recordMove] appends to the move list). *)
Inductive PlayOutcome :=
| Ignored
| Toast (message : string)
| Moved (notation : string) (ended : bool).

Definition handlePlayDrop (fuel : nat) (dragSource : option DragSource)
    (targetSquare : Square) : M PlayOutcome :=
  let* active := gets gameActive in
  match dragSource with
  | None => ret Ignored
  | Some ds =>
      if negb active then ret Ignored
      else
        match ds with
        | SparePiece _ => fun _ => None
        | FromSquare src =>
            let from := mkSquare (rank src) (file src) in
            let to := mkSquare (rank targetSquare) (file targetSquare) in
            let* piece := readBoard (rank from) (file from) in
            match piece with
            | None => ret Ignored
            | Some p =>
                let* legalMove := isLegalMoveWithState fuel from to (Some p) None in
                let color := colorOf p in
                let* inCheck := isKingInCheck fuel color in
                let* mustEscape :=
                  if inCheck then
                    let* snapshot := snapshotState in
                    let* captured := readBoard (rank to) (file to) in
                    let* _ := update (applyMoveToState
                                (mkMove from to (Some p) captured (l_promotion legalMove)
                                   (l_isEnPassant legalMove) (l_isCastling legalMove))
                                true) in
                    let* stillChecked := isKingInCheck fuel color in
                    let* _ := restoreSnapshot snapshot in
                    ret stillChecked
                  else ret false in
                if mustEscape then ret (Toast "Must escape check")
                else
                  match legalMove with
                  | Illegal why => ret (Toast (orElse (Some why) "Illegal move"))
                  | Legal _ _ _ =>
                      let* capturedPiece := readBoard (rank to) (file to) in
                      let* _ := update (applyMoveToState
                                  (mkMove from to (Some p) capturedPiece
                                     (l_promotion legalMove) (l_isEnPassant legalMove)
                                     (l_isCastling legalMove)) false) in
                      let* notation :=
                        recordMove from to (Some p) capturedPiece legalMove in
                      let* ended := endPlayerTurn fuel in
                      ret (Moved notation ended)
                  end
            end
        end
  end.

(** What [executeAIMove] did when it returns: it made the move (the notation
    is what [recordMove] appends to the move list). *)
Inductive AIOutcome :=
| Played (notation : string) (ended : bool).

(** [s.slice(a, b)] for [0 <= a <= b]. *)
Definition slice (a b : nat) (s : string) : string := substring a (b - a) s.

(** [executeAIMove]. A board access with a [NaN] rank throws;
    [algebraicToCoords] gives a [NaN] file only together with a [NaN] rank.
    On a rejected move the method calls [this.handleAIFallback()]; the class
    defines no such method, so the call is a call of [undefined] and throws a
    [TypeError] ([None]). *)
Definition executeAIMove (fuel : nat) (moveString : string) : M AIOutcome :=
  let promoChar :=
    if (4 <? String.length moveString)%nat then String.get 4 moveString else None in
  match algebraicToCoords (slice 0 2 moveString),
        algebraicToCoords (slice 2 4 moveString) with
  | (Int fromRank, Int fromFile), (Int toRank, Int toFile) =>
      let fromSquare := mkSquare fromRank fromFile in
      let toSquare := mkSquare toRank toFile in
      let* piece := readBoard fromRank fromFile in
      let* capturedPiece := readBoard toRank toFile in
      let* legality := isLegalMoveWithState fuel fromSquare toSquare piece promoChar in
      if negb (ok legality) then fun _ => None
      else
        let* _ := update (applyMoveToState
                    (mkMove fromSquare toSquare piece capturedPiece
                       (l_promotion legality) (l_isEnPassant legality)
                       (l_isCastling legality)) false) in
        let* notation := recordMove fromSquare toSquare piece capturedPiece legality in
        let* ended := endAITurn fuel in
        ret (Played notation ended)
  | _, _ => fun _ => None
  end.

(** ** Vocabulary of the statements about the page *)

(** [currentFEN] is the text of the position held. *)
Definition fenInSync (st : ChessGame) : Prop := currentFEN st = fenOfState st.

(** Whether [loadPosition] goes on to load: the input element exists and
    its trimmed text passes [validateFEN]. *)
Definition fenAccepted (fenInput : option string) : bool :=
  match fenInput with
  | Some value => validateFEN (trim value)
  | None => false
  end.

(** The winner by points: the side that captured more, or a draw. *)
Definition winnerOnPoints (st : ChessGame) : string :=
  if scoresBlack st <? scoresWhite st then "White"
  else if scoresWhite st <? scoresBlack st then "Black"
  else "Draw".

(** The states a game passes through once it has been started: the moves
    of the two sides and a resignation, in any order. *)
Inductive playing (fuel : nat) : ChessGame -> Prop :=
| playing_start firstMove st st' :
    hasRanks (board st) ->
    startGame firstMove st = Some (true, st') -> playing fuel st'
| playing_drop dragSource targetSquare outcome st st' :
    playing fuel st ->
    handlePlayDrop fuel dragSource targetSquare st = Some (outcome, st') ->
    playing fuel st'
| playing_engine moveString outcome st st' :
    playing fuel st ->
    executeAIMove fuel moveString st = Some (outcome, st') ->
    playing fuel st'
| playing_resign playerSide st st' :
    playing fuel st ->
    resignGame playerSide st = Some (tt, st') ->
    playing fuel st'.

(** Both kings on the board, Black to reply to 1. e4. *)
Definition afterE4 : ChessGame :=
  load "rnbqkbnr/pppppppp/8/8/4P3/8/PPPP1PPP/RNBQKBNR b KQkq e3 0 1".

(** The start position with the game started and White to move. *)
Definition gameStarted : ChessGame :=
  match startGame white startPosition with
  | Some (_, st) => st
  | None => startPosition
  end.

(** The fifth character of an engine move: the promotion letter, if any. *)
Definition promoSuffix (promo : option ascii) : string :=
  match promo with Some c => String c "" | None => "" end.

(** What holds of every state of a started game. *)
Definition playInvariant (st : ChessGame) : Prop :=
  fenInSync st /\ hasRanks (board st)
  /\ 0 <= moveCountWhite st /\ 0 <= moveCountBlack st
  /\ 0 <= scoresWhite st /\ 0 <= scoresBlack st
  /\ (gameActive st = true <-> gameResult st = None)
  /\ currentPhase st = (if gameActive st then 3 else 4).

(** * Properties *)

(** ** Reasoning in [M] *)

Lemma bind_Some {A B} (c : M A) (k : A -> M B) st b st' :
  bind c k st = Some (b, st') ->
  exists a st1, c st = Some (a, st1) /\ k a st1 = Some (b, st').
Proof.
  unfold bind. destruct (c st) as [[a st1]|]; [|discriminate].
  intros H. by exists a, st1.
Qed.

Lemma ret_Some {A} (a b : A) st st' :
  ret a st = Some (b, st') -> b = a /\ st' = st.
Proof. unfold ret. by intros [= -> ->]. Qed.

Lemma gets_Some {A} (f : ChessGame -> A) b st st' :
  gets f st = Some (b, st') -> b = f st /\ st' = st.
Proof. unfold gets. by intros [= <- <-]. Qed.

Lemma readBoard_Some r f c st st' :
  readBoard r f st = Some (c, st') -> readSq (board st) r f = Some c /\ st' = st.
Proof.
  unfold readBoard. destruct (readSq (board st) r f); [|discriminate].
  by intros [= -> ->].
Qed.

(** Splits a successful run of a monadic program into the runs of its parts. *)
Ltac inv_M :=
  repeat match goal with
  | H : bind _ _ _ = Some _ |- _ =>
      let a := fresh "a" in let st1 := fresh "st" in
      let H1 := fresh "Hrun" in let H2 := fresh "Hrun" in
      apply bind_Some in H as (a & st1 & H1 & H2)
  | H : ret _ _ = Some _ |- _ => apply ret_Some in H as [? ?]; subst
  | H : gets _ _ = Some _ |- _ => apply gets_Some in H as [? ?]; subst
  | H : readBoard _ _ _ = Some _ |- _ => apply readBoard_Some in H as [? ?]; subst
  | H : (if ?b then _ else _) _ = Some _ |- _ => destruct b eqn:?
  | H : match ?x with Some _ => _ | None => _ end _ = Some _ |- _ => destruct x eqn:?
  | H : None = Some _ |- _ => discriminate H
  end.

(** A loop keeps whatever each round keeps. *)
Lemma forM_inv {A B} (P : B -> ChessGame -> Prop) (l : list A)
    (body : A -> B -> M B) :
  (forall x acc st acc' st',
      x ∈ l -> P acc st -> body x acc st = Some (acc', st') -> P acc' st') ->
  forall acc st acc' st',
    P acc st -> forM l body acc st = Some (acc', st') -> P acc' st'.
Proof.
  induction l as [|x l IH]; intros Hbody acc st acc' st' HP Hrun; simpl in Hrun.
  - apply ret_Some in Hrun as [-> ->]. done.
  - apply bind_Some in Hrun as (a & st1 & H1 & H2).
    eapply IH; [| |exact H2].
    + intros. eapply Hbody; eauto. by right.
    + eapply Hbody; eauto. by left.
Qed.

(** A loop returns when each round does. *)
Lemma forM_total {A B} (P : B -> ChessGame -> Prop) (l : list A)
    (body : A -> B -> M B) :
  (forall x acc st, x ∈ l -> P acc st ->
      exists acc' st', body x acc st = Some (acc', st') /\ P acc' st') ->
  forall acc st, P acc st ->
    exists acc' st', forM l body acc st = Some (acc', st') /\ P acc' st'.
Proof.
  induction l as [|x l IH]; intros Hbody acc st HP; simpl.
  - by exists acc, st.
  - destruct (Hbody x acc st) as (a & st1 & H1 & HP1); [by left|done|].
    destruct (IH (fun y b s Hy => Hbody y b s (list_elem_of_further _ _ _ Hy)) a st1 HP1)
      as (acc' & st' & H2 & HP2).
    exists acc', st'. split; [|done]. unfold bind. by rewrite H1.
Qed.

(** ** Rejection is atomic: the checker hands back the state it was given *)

Lemma pathClearFrom_state n i from drStep dfStep st b st' :
  pathClearFrom n i from drStep dfStep st = Some (b, st') -> st' = st.
Proof.
  revert i st. induction n as [|n IH]; intros i st H; simpl in H.
  - by apply ret_Some in H as [_ ->].
  - inv_M; eauto.
Qed.

Lemma castlePathFree_state n r f step rookFile st b st' :
  castlePathFree n r f step rookFile st = Some (b, st') -> st' = st.
Proof.
  revert f st. induction n as [|n IH]; intros f st H; simpl in H.
  - inv_M; done.
  - inv_M; eauto.
Qed.

Lemma pawnCheck_state color from to targetPiece promotionChar st r st' :
  pawnCheck color from to targetPiece promotionChar st = Some (r, st') -> st' = st.
Proof. unfold pawnCheck. intros H. inv_M; done. Qed.

Lemma restore_snapshot_id (st st1 : ChessGame) :
  currentFEN st1 = currentFEN st -> scoresWhite st1 = scoresWhite st ->
  scoresBlack st1 = scoresBlack st -> moveCountWhite st1 = moveCountWhite st ->
  moveCountBlack st1 = moveCountBlack st -> maxMoves st1 = maxMoves st ->
  gameActive st1 = gameActive st -> gameResult st1 = gameResult st ->
  currentPhase st1 = currentPhase st ->
  restoreSnapshot
    (mkSnapshot (board st) (castlingRights st) (enPassantTarget st)
       (halfmoveClock st) (fullmoveNumber st) (currentPlayer st)) st1
  = Some (tt, st).
Proof.
  intros. unfold restoreSnapshot. simpl. destruct st, st1; simpl in *. by subst.
Qed.

Lemma applyMoveToState_simulate_outside move st st1 :
  applyMoveToState move true st = Some st1 -> sameOutsidePosition st st1.
Proof.
  unfold applyMoveToState. destruct (piece move) as [p|].
  - destruct (applyBoard move p (board st)) as [b|]; simpl; [|discriminate].
    intros [= <-]. by repeat split.
  - intros [= <-]. by repeat split.
Qed.

Section StatePreservation.

Variable isLegal : Square -> Square -> Cell -> option ascii -> M Legality.
Hypothesis isLegal_state : forall from to piece promo st r st',
  isLegal from to piece promo st = Some (r, st') -> st' = st.

Lemma generate_state player opts st l st' :
  generateAllPseudoLegalMoves_ isLegal player opts st = Some (l, st') -> st' = st.
Proof.
  unfold generateAllPseudoLegalMoves_. cbv zeta.
  apply (forM_inv (fun _ s => s = st)); [|done].
  intros rank acc1 st1 acc1' st1' _ ->. apply (forM_inv (fun _ s => s = st)); [|done].
  intros file acc2 st2 acc2' st2' _ -> H. inv_M; try done.
  revert Hrun0. apply (forM_inv (fun _ s => s = st)); [|done].
  intros toRank acc3 st3 acc3' st3' _ ->. apply (forM_inv (fun _ s => s = st)); [|done].
  intros toFile acc4 st4 acc4' st4' _ -> H'. inv_M.
  - by apply isLegal_state in Hrun.
  - by apply isLegal_state in Hrun.
Qed.

Lemma isSquareAttacked_state square color st b st' :
  isSquareAttacked_ isLegal square color st = Some (b, st') -> st' = st.
Proof.
  unfold isSquareAttacked_. intros H. inv_M. by apply generate_state in Hrun.
Qed.

Lemma kingScan_state (kingPiece : ascii) k0 st k st' :
  forM range8 (fun r kingSq =>
    forM range8 (fun f kingSq =>
      let* c := readBoard r f in
      if bool_decide (c = Some kingPiece) then ret (Some (mkSquare r f))
      else ret kingSq) kingSq) k0 st = Some (k, st') -> st' = st.
Proof.
  apply (forM_inv (fun _ s => s = st)); [|done].
  intros r acc1 st1 acc1' st1' _ ->. apply (forM_inv (fun _ s => s = st)); [|done].
  intros f acc2 st2 acc2' st2' _ -> H. inv_M; done.
Qed.

Lemma isKingInCheck_state color st b st' :
  isKingInCheck_ isLegal color st = Some (b, st') -> st' = st.
Proof.
  unfold isKingInCheck_. intros H.
  apply bind_Some in H as (k & st1 & H1 & H2).
  apply kingScan_state in H1 as ->.
  destruct k; [by apply isSquareAttacked_state in H2|by apply ret_Some in H2 as [_ ->]].
Qed.

Lemma kingCheck_state color from to st r st' :
  kingCheck isLegal color from to st = Some (r, st') -> st' = st.
Proof.
  unfold kingCheck. intros H. inv_M; try done;
    repeat match goal with
    | H : castlePathFree _ _ _ _ _ _ = Some _ |- _ =>
        apply castlePathFree_state in H; subst
    | H : isSquareAttacked_ _ _ _ _ = Some _ |- _ =>
        apply isSquareAttacked_state in H; subst
    end; done.
Qed.

Lemma kindCheck_state p color from to targetPiece promotionChar st r st' :
  kindCheck isLegal p color from to targetPiece promotionChar st = Some (r, st') ->
  st' = st.
Proof.
  unfold kindCheck, pathClear. intros H.
  repeat match goal with
  | H : (if ?b then _ else _) _ = Some _ |- _ => destruct b eqn:?
  end;
  try (by apply pawnCheck_state in H);
  try (by apply kingCheck_state in H);
  inv_M; try done;
  match goal with
  | H : pathClearFrom _ _ _ _ _ _ = Some _ |- _ =>
      by apply pathClearFrom_state in H
  end.
Qed.

Lemma simulateAndVerify_state p color from to targetPiece flags st r st' :
  simulateAndVerify isLegal p color from to targetPiece flags st = Some (r, st') ->
  st' = st.
Proof.
  unfold simulateAndVerify, snapshotState, update. intros H.
  apply bind_Some in H as (snap & st0 & H0 & H).
  apply gets_Some in H0 as [-> ->].
  apply bind_Some in H as ([] & st1 & H1 & H).
  destruct (applyMoveToState _ true st) as [st1'|] eqn:Happ; [|discriminate].
  injection H1 as <-.
  apply bind_Some in H as (chk & st2 & H2 & H).
  apply isKingInCheck_state in H2 as ->.
  apply bind_Some in H as ([] & st3 & H3 & H).
  apply applyMoveToState_simulate_outside in Happ
    as (? & ? & ? & ? & ? & ? & ? & ? & ?).
  rewrite restore_snapshot_id in H3 by done. injection H3 as <-.
  destruct chk; by apply ret_Some in H as [_ ->].
Qed.

Lemma body_state from to piece promotionChar st r st' :
  isLegalMoveWithState_body isLegal from to piece promotionChar st = Some (r, st') ->
  st' = st.
Proof.
  unfold isLegalMoveWithState_body. intros H.
  destruct piece as [p|]; [|by apply ret_Some in H as [_ ->]].
  inv_M; try done.
  match goal with
  | H : kindCheck _ _ _ _ _ _ _ _ = Some _ |- _ => apply kindCheck_state in H as ->
  end.
  match goal with
  | H : match ?flags with Illegal _ => _ | Legal _ _ _ => _ end _ = Some _ |- _ =>
      destruct flags;
      [by apply ret_Some in H as [_ ->]|by apply simulateAndVerify_state in H]
  end.
Qed.

End StatePreservation.

Lemma isLegalMoveWithState_state fuel from to piece promotionChar st r st' :
  isLegalMoveWithState fuel from to piece promotionChar st = Some (r, st') -> st' = st.
Proof.
  revert from to piece promotionChar st r st'.
  induction fuel as [|n IH]; intros from to piece promotionChar st r st' H; simpl in H.
  - discriminate.
  - eapply body_state; [|exact H]. exact IH.
Qed.

(** ** The turn guard inside the attack oracle *)

Lemma chr_in_In c s : chr_in c s = true <-> In c (list_ascii_of_string s).
Proof.
  unfold chr_in. rewrite existsb_exists. split.
  - intros (x & Hx & Heq). apply Ascii.eqb_eq in Heq. by subst.
  - intros H. exists c. split; [done|apply Ascii.eqb_refl].
Qed.

Lemma black_not_white p : isBlackPiece p = true -> isWhitePiece p = false.
Proof.
  unfold isBlackPiece. rewrite chr_in_In. simpl.
  intros H. decompose [or] H; subst; done.
Qed.

Lemma owned_colorOf p player :
  isPieceOwnedByPlayer p player = true -> colorOf p = player.
Proof.
  unfold colorOf. destruct player; simpl; intros H.
  - by rewrite H.
  - by rewrite (black_not_white _ H).
Qed.

(** A piece that is not on turn is turned away before any rule is looked at. *)
Lemma isLegalMoveWithState_wrong_turn fuel from to p promotionChar st r st' :
  colorOf p <> currentPlayer st ->
  isLegalMoveWithState fuel from to (Some p) promotionChar st = Some (r, st') ->
  ok r = false.
Proof.
  destruct fuel as [|n]; simpl; [done|].
  unfold isLegalMoveWithState_body. intros Hturn H. inv_M; try done.
  unfold Player_eqb in *.
  match goal with
  | H : negb (bool_decide _) = false |- _ =>
      apply negb_false_iff, bool_decide_eq_true in H; done
  end.
Qed.

(** [generateAllPseudoLegalMoves] for the side that is not on turn finds
    nothing, whatever stands on the board. *)
Lemma generate_wrong_turn fuel player opts st l st' :
  currentPlayer st <> player ->
  generateAllPseudoLegalMoves fuel player opts st = Some (l, st') -> l = [].
Proof.
  intros Hturn. unfold generateAllPseudoLegalMoves, generateAllPseudoLegalMoves_.
  cbv zeta. intros H.
  cut (l = [] /\ st' = st); [tauto|]. revert H.
  apply (forM_inv (fun m s => m = [] /\ s = st)); [|done].
  intros rank acc1 st1 acc1' st1' _ [-> ->].
  apply (forM_inv (fun m s => m = [] /\ s = st)); [|done].
  intros file acc2 st2 acc2' st2' _ [-> ->] H. inv_M; try done.
  match goal with H : forM _ _ _ _ = Some _ |- _ => revert H end.
  apply (forM_inv (fun m s => m = [] /\ s = st)); [|done].
  intros toRank acc3 st3 acc3' st3' _ [-> ->].
  apply (forM_inv (fun m s => m = [] /\ s = st)); [|done].
  intros toFile acc4 st4 acc4' st4' _ [-> ->] H'.
  apply bind_Some in H' as (res & st5 & Hcall & H').
  pose proof (isLegalMoveWithState_state _ _ _ _ _ _ _ _ Hcall) as ->.
  apply isLegalMoveWithState_wrong_turn in Hcall as Hok.
  - rewrite Hok in H'. by apply ret_Some in H' as [-> ->].
  - match goal with
    | H : negb (isPieceOwnedByPlayer _ _) = false |- _ =>
        apply negb_false_iff, owned_colorOf in H; congruence
    end.
Qed.

(** Asked about the side on turn, [isSquareAttacked] answers [false]. *)
Lemma isSquareAttacked_mover fuel square color st b st' :
  currentPlayer st = color ->
  isSquareAttacked fuel square color st = Some (b, st') -> b = false.
Proof.
  intros Hturn. unfold isSquareAttacked, isSquareAttacked_. intros H.
  apply bind_Some in H as (attacks & st1 & Hgen & H).
  apply (generate_wrong_turn fuel (opponent color) (Some false)) in Hgen as ->.
  - by apply ret_Some in H as [-> _].
  - rewrite Hturn. by destruct color.
Qed.

Lemma isKingInCheck_mover fuel color st b st' :
  currentPlayer st = color ->
  isKingInCheck fuel color st = Some (b, st') -> b = false.
Proof.
  intros Hturn. unfold isKingInCheck, isKingInCheck_. intros H.
  apply bind_Some in H as (k & st1 & Hscan & H).
  apply kingScan_state in Hscan as ->.
  destruct k as [sq|].
  - by apply (isSquareAttacked_mover fuel sq color st b st').
  - by apply ret_Some in H as [-> _].
Qed.

Lemma updateScoreOnCapture_currentPlayer attacker victim st :
  currentPlayer (updateScoreOnCapture attacker victim st) = currentPlayer st.
Proof.
  unfold updateScoreOnCapture.
  destruct victim; [destruct (colorOf attacker)|]; reflexivity.
Qed.

Lemma applyMoveToState_currentPlayer move simulate st st' :
  applyMoveToState move simulate st = Some st' -> currentPlayer st' = currentPlayer st.
Proof.
  unfold applyMoveToState. destruct (piece move) as [p|]; [|by intros [= <-]].
  destruct (applyBoard move p (board st)) as [b|]; simpl; [|discriminate].
  intros [= <-]. destruct simulate; [reflexivity|].
  by rewrite updateScoreOnCapture_currentPlayer.
Qed.

(** For the side on turn the simulate-then-verify step hands the flags through. *)
Lemma simulateAndVerify_mover fuel p color from to targetPiece flags st r st' :
  currentPlayer st = color ->
  simulateAndVerify (isLegalMoveWithState fuel) p color from to targetPiece flags st
    = Some (r, st') ->
  r = flags.
Proof.
  intros Hturn. unfold simulateAndVerify, snapshotState, update. intros H.
  apply bind_Some in H as (snap & st0 & H0 & H).
  apply gets_Some in H0 as [-> ->].
  apply bind_Some in H as ([] & st1 & H1 & H).
  destruct (applyMoveToState _ true st) as [st1'|] eqn:Happ; [|discriminate].
  injection H1 as <-.
  apply bind_Some in H as (chk & st2 & H2 & H).
  apply applyMoveToState_currentPlayer in Happ.
  apply (isKingInCheck_mover fuel color) in H2 as ->; [|congruence].
  apply bind_Some in H as ([] & st3 & H3 & H).
  by apply ret_Some in H as [-> _].
Qed.

(** Membership in a list written out. *)
Ltac in_list :=
  cbn [app]; repeat first [apply list_elem_of_here | apply list_elem_of_further].

Lemma pawnCheck_reason color from to targetPiece promotionChar st why st' :
  pawnCheck color from to targetPiece promotionChar st = Some (Illegal why, st') ->
  why ∈ kindReasons.
Proof.
  unfold pawnCheck. intros H. inv_M;
    match goal with
    | H : Illegal _ = Illegal _ |- _ => injection H as ->
    | H : Illegal _ = Legal _ _ _ |- _ => discriminate H
    end; unfold kindReasons; in_list.
Qed.

Lemma kingCheck_reason fuel color from to st why st' :
  currentPlayer st = color ->
  kingCheck (isLegalMoveWithState fuel) color from to st = Some (Illegal why, st') ->
  why ∈ kindReasons.
Proof.
  intros Hturn. unfold kingCheck. intros H. inv_M;
    repeat match goal with
    | H : castlePathFree _ _ _ _ _ _ = Some _ |- _ =>
        apply castlePathFree_state in H; subst
    | H : isSquareAttacked_ _ _ _ ?st = Some (true, _) |- _ =>
        apply (isSquareAttacked_mover fuel) in H; [discriminate H|done]
    | H : isSquareAttacked_ _ _ _ _ = Some (false, _) |- _ =>
        apply (isSquareAttacked_state _ (isLegalMoveWithState_state fuel)) in H; subst
    end;
    match goal with
    | H : Illegal _ = Illegal _ |- _ => injection H as ->
    | H : Illegal _ = Legal _ _ _ |- _ => discriminate H
    end; unfold kindReasons; in_list.
Qed.

Lemma kindCheck_reason fuel p color from to targetPiece promotionChar st why st' :
  currentPlayer st = color ->
  kindCheck (isLegalMoveWithState fuel) p color from to targetPiece promotionChar st
    = Some (Illegal why, st') ->
  why ∈ kindReasons.
Proof.
  intros Hturn. unfold kindCheck. intros H.
  repeat match goal with
  | H : (if ?b then _ else _) _ = Some _ |- _ => destruct b eqn:?
  end;
  try (eapply pawnCheck_reason; exact H);
  try (eapply kingCheck_reason; [|exact H]; exact Hturn);
  inv_M;
    match goal with
    | H : Illegal _ = Illegal _ |- _ => injection H as ->
    | H : Illegal _ = Legal _ _ _ |- _ => discriminate H
    end; unfold kindReasons; in_list.
Qed.

Lemma isLegalMoveWithState_reasons fuel from to piece promotionChar st why st' :
  isLegalMoveWithState fuel from to piece promotionChar st = Some (Illegal why, st') ->
  why ∈ reachableReasons.
Proof.
  destruct fuel as [|n]; simpl; [done|].
  unfold isLegalMoveWithState_body. intros H.
  destruct piece as [p|].
  2:{ apply ret_Some in H as [[= ->] _]. unfold reachableReasons, kindReasons. in_list. }
  inv_M;
    try (match goal with
         | H : Illegal _ = Illegal _ |- _ =>
             injection H as ->; unfold reachableReasons, kindReasons; in_list
         end).
  unfold Player_eqb in *.
  match goal with
  | H : negb (bool_decide _) = false |- _ =>
      apply negb_false_iff, bool_decide_eq_true in H; rename H into Hcolor
  end.
  match goal with
  | H : kindCheck _ _ _ _ _ _ _ _ = Some _ |- _ =>
      pose proof (kindCheck_state _ (isLegalMoveWithState_state n) _ _ _ _ _ _ _ _ _ H);
      subst; rename H into Hkind
  end.
  match goal with
  | H : match ?flags with Illegal _ => _ | Legal _ _ _ => _ end _ = Some _ |- _ =>
      destruct flags eqn:Hflags
  end.
  - inv_M. match goal with H : Illegal _ = Illegal _ |- _ => injection H as -> end.
    apply kindCheck_reason in Hkind; [|done].
    unfold reachableReasons. apply elem_of_app. by right.
  - match goal with
    | H : simulateAndVerify _ _ _ _ _ _ _ _ = Some _ |- _ =>
        apply simulateAndVerify_mover in H; [discriminate H|done]
    end.
Qed.

(** ** The checker returns on the 8x8 grid *)

Lemma elem_of_range8 x : x ∈ range8 <-> 0 <= x < 8.
Proof.
  unfold range8. rewrite !elem_of_cons, elem_of_nil. lia.
Qed.

Lemma readSq_total b r f :
  hasRanks b -> 0 <= r < 8 -> exists c, readSq b r f = Some c.
Proof.
  unfold hasRanks, readSq. intros Hb Hr.
  destruct (decide (0 <= r)); [|lia].
  destruct (lookup_lt_is_Some_2 b (Z.to_nat r)) as [row ->]; [lia|]. eauto.
Qed.

Lemma readBoard_total r f st :
  hasRanks (board st) -> 0 <= r < 8 -> exists c, readBoard r f st = Some (c, st).
Proof.
  intros Hb Hr. unfold readBoard.
  destruct (readSq_total _ r f Hb Hr) as [c ->]. eauto.
Qed.

Lemma writeSq_total b r f v :
  hasRanks b -> 0 <= r < 8 -> 0 <= f ->
  exists b', writeSq b r f v = Some b' /\ hasRanks b'.
Proof.
  unfold hasRanks, writeSq. intros Hb Hr Hf.
  destruct (decide (0 <= r /\ 0 <= f)); [|lia].
  destruct (lookup_lt_is_Some_2 b (Z.to_nat r)) as [row ->]; [lia|].
  eexists. split; [done|]. by rewrite length_insert.
Qed.

Lemma bind_run {A B} (c : M A) (k : A -> M B) st a st1 :
  c st = Some (a, st1) -> bind c k st = k a st1.
Proof. unfold bind. by intros ->. Qed.

Lemma applyBoard_total move p b :
  hasRanks b -> onGrid (from move) -> onGrid (to move) ->
  (isEnPassant move = true ->
   0 <= rank (to move) + match colorOf p with white => 1 | black => -1 end < 8) ->
  exists b', applyBoard move p b = Some b' /\ hasRanks b'.
Proof.
  intros Hb [Hfr Hff] [Htr Htf] Hep. unfold applyBoard.
  assert (exists b1,
    (if isEnPassant move
     then writeSq b (rank (to move) + match colorOf p with white => 1 | black => -1 end)
            (file (to move)) None
     else Some b) = Some b1 /\ hasRanks b1) as (b1 & -> & Hb1).
  { destruct (isEnPassant move); [|eauto]. apply writeSq_total; [done|auto|lia]. }
  simpl.
  assert (exists b2,
    (if isCastling move
     then
       rook ← readSq b1 (rank (from move)) (if file (to move) =? 6 then 7 else 0);
       b0 ← writeSq b1 (rank (from move)) (if file (to move) =? 6 then 7 else 0) None;
       writeSq b0 (rank (from move)) (if file (to move) =? 6 then 5 else 3) rook
     else Some b1) = Some b2 /\ hasRanks b2) as (b2 & -> & Hb2).
  { destruct (isCastling move); [|eauto].
    destruct (readSq_total b1 (rank (from move))
                (if file (to move) =? 6 then 7 else 0) Hb1 Hfr) as [rook ->]. simpl.
    destruct (writeSq_total b1 (rank (from move))
                (if file (to move) =? 6 then 7 else 0) None Hb1 Hfr)
      as (b0 & -> & Hb0); [by destruct (file (to move) =? 6)|]. simpl.
    apply writeSq_total; [done|done|by destruct (file (to move) =? 6)]. }
  simpl.
  destruct (writeSq_total b2 (rank (to move)) (file (to move)) (Some p) Hb2 Htr)
    as (b3 & -> & Hb3); [lia|]. simpl.
  destruct (writeSq_total b3 (rank (from move)) (file (from move)) None Hb3 Hfr)
    as (b4 & -> & Hb4); [lia|]. simpl.
  destruct (promotion move); [|eauto].
  apply writeSq_total; [done|done|lia].
Qed.

Lemma updateScoreOnCapture_board attacker victim st :
  board (updateScoreOnCapture attacker victim st) = board st.
Proof.
  unfold updateScoreOnCapture.
  destruct victim; [destruct (colorOf attacker)|]; reflexivity.
Qed.

Lemma applyMoveToState_total move simulate st :
  hasRanks (board st) -> onGrid (from move) -> onGrid (to move) ->
  (forall p, piece move = Some p -> isEnPassant move = true ->
     0 <= rank (to move) + match colorOf p with white => 1 | black => -1 end < 8) ->
  exists st', applyMoveToState move simulate st = Some st' /\ hasRanks (board st').
Proof.
  intros Hb Hf Ht Hep. unfold applyMoveToState.
  destruct (piece move) as [p|]; [|eauto].
  destruct (applyBoard_total move p (board st) Hb Hf Ht (Hep p eq_refl))
    as (b' & -> & Hb'). simpl.
  eexists. split; [done|].
  destruct simulate; [done|].
  by rewrite updateScoreOnCapture_board.
Qed.

Lemma isLegalMoveWithState_wrong_turn_total n from to p promotionChar st :
  hasRanks (board st) -> 0 <= rank to < 8 -> colorOf p <> currentPlayer st ->
  exists why,
    isLegalMoveWithState (S n) from to (Some p) promotionChar st = Some (Illegal why, st).
Proof.
  intros Hb Ht Hturn. simpl. unfold isLegalMoveWithState_body.
  destruct ((rank from =? rank to) && (file from =? file to)); [by eexists|].
  destruct (readBoard_total (rank to) (file to) st Hb Ht) as [target Hread].
  rewrite (bind_run _ _ _ _ _ Hread).
  destruct (match target with Some t => isSameColor p t | None => false end);
    [by eexists|].
  unfold bind, gets, Player_eqb. rewrite bool_decide_eq_false_2 by done.
  by eexists.
Qed.

Lemma forM_fixed {A B} (l : list A) (body : A -> B -> M B) acc st :
  (forall x, x ∈ l -> body x acc st = Some (acc, st)) ->
  forM l body acc st = Some (acc, st).
Proof.
  induction l as [|x l IH]; intros Hbody; simpl; [done|].
  rewrite (bind_run _ _ _ _ _ (Hbody x (list_elem_of_here _ _))).
  apply IH. intros y Hy. apply Hbody. by right.
Qed.

Lemma generate_wrong_turn_total n player opts st :
  hasRanks (board st) -> currentPlayer st <> player ->
  generateAllPseudoLegalMoves (S n) player opts st = Some ([], st).
Proof.
  intros Hb Hturn.
  unfold generateAllPseudoLegalMoves, generateAllPseudoLegalMoves_. cbv zeta.
  apply forM_fixed. intros rank Hrank%elem_of_range8.
  apply forM_fixed. intros file _.
  destruct (readBoard_total rank file st Hb Hrank) as [c Hread].
  rewrite (bind_run _ _ _ _ _ Hread).
  destruct c as [p|]; [|done].
  destruct (isPieceOwnedByPlayer p player) eqn:Hown; [|done]. cbn [negb].
  apply forM_fixed. intros toRank HtoRank%elem_of_range8.
  apply forM_fixed. intros toFile _.
  destruct (isLegalMoveWithState_wrong_turn_total n (mkSquare rank file)
              (mkSquare toRank toFile) p None st Hb HtoRank) as [why Hcall].
  { apply owned_colorOf in Hown. congruence. }
  by rewrite (bind_run _ _ _ _ _ Hcall).
Qed.

Lemma isSquareAttacked_mover_total n square color st :
  hasRanks (board st) -> currentPlayer st = color ->
  isSquareAttacked (S n) square color st = Some (false, st).
Proof.
  intros Hb Hturn. unfold isSquareAttacked, isSquareAttacked_.
  assert (currentPlayer st <> opponent color) as Hopp
    by (rewrite Hturn; by destruct color).
  by rewrite (bind_run _ _ _ _ _
             (generate_wrong_turn_total n (opponent color) (Some false) st Hb Hopp)).
Qed.

Lemma isKingInCheck_mover_total n color st :
  hasRanks (board st) -> currentPlayer st = color ->
  isKingInCheck (S n) color st = Some (false, st).
Proof.
  intros Hb Hturn. unfold isKingInCheck, isKingInCheck_.
  match goal with
  | |- bind (forM range8 ?body None) _ _ = _ =>
      destruct (forM_total (fun _ s => s = st) range8 body) with (acc := @None Square) (st := st)
        as (k & st1 & Hscan & ->); [|done|]
  end.
  - intros r acc s Hr%elem_of_range8 ->.
    apply (forM_total (fun _ s => s = st)); [|done].
    intros f acc' s _ ->.
    destruct (readBoard_total r f st Hb Hr) as [c Hread].
    rewrite (bind_run _ _ _ _ _ Hread).
    destruct (bool_decide (c = Some _)); by eexists _, _.
  - rewrite (bind_run _ _ _ _ _ Hscan).
    destruct k as [sq|]; [|done].
    by apply isSquareAttacked_mover_total.
Qed.

Lemma pathClearFrom_total n i from drStep dfStep st :
  hasRanks (board st) ->
  (forall j, i <= j < i + Z.of_nat n -> 0 <= rank from + drStep * j < 8) ->
  exists b, pathClearFrom n i from drStep dfStep st = Some (b, st).
Proof.
  intros Hb. revert i. induction n as [|n IH]; intros i Hrows; simpl; [by eexists|].
  destruct (readBoard_total (rank from + drStep * i) (file from + dfStep * i) st Hb)
    as [c Hread]; [apply Hrows; lia|].
  rewrite (bind_run _ _ _ _ _ Hread).
  destruct c; [by eexists|]. apply IH. intros j Hj. apply Hrows. lia.
Qed.

Lemma pathClear_total from drStep dfStep steps st :
  hasRanks (board st) ->
  (forall j, 1 <= j < steps -> 0 <= rank from + drStep * j < 8) ->
  exists b, pathClear from drStep dfStep steps st = Some (b, st).
Proof.
  intros Hb Hrows. apply pathClearFrom_total; [done|].
  intros j Hj. apply Hrows. lia.
Qed.

Lemma castlePathFree_total n r f step rookFile st :
  hasRanks (board st) -> 0 <= r < 8 ->
  (exists k, 0 <= k <= Z.of_nat n /\ f + k * step = rookFile) ->
  exists b, castlePathFree n r f step rookFile st = Some (b, st).
Proof.
  intros Hb Hr. revert f. induction n as [|n IH]; intros f (k & Hk & Hend); simpl.
  - assert (k = 0) as -> by lia.
    replace (f =? rookFile) with true by (symmetry; apply Z.eqb_eq; lia). by eexists.
  - destruct (f =? rookFile) eqn:Hf; [by eexists|].
    apply Z.eqb_neq in Hf.
    destruct (readBoard_total r f st Hb Hr) as [c Hread].
    rewrite (bind_run _ _ _ _ _ Hread).
    destruct c; [by eexists|].
    apply IH. exists (k - 1). split; [|lia].
    assert (k <> 0) by (intros ->; lia). lia.
Qed.

Lemma pawnCheck_total color from to targetPiece promotionChar st :
  hasRanks (board st) -> onGrid from ->
  exists r,
    pawnCheck color from to targetPiece promotionChar st = Some (r, st)
    /\ (l_isEnPassant r = true -> rank to - rank from = pawnDir color).
Proof.
  intros Hb [Hfr Hff]. unfold pawnCheck, pawnDir. cbv zeta.
  destruct (file to - file from =? 0).
  - destruct ((rank to - rank from =? _) && _);
      [eexists; split; [reflexivity|discriminate]|].
    destruct ((rank from =? _) && _ && _) eqn:Hstart;
      [|eexists; split; [reflexivity|discriminate]].
    apply andb_true_iff in Hstart as [[Hstart _]%andb_true_iff _].
    apply Z.eqb_eq in Hstart.
    destruct (readBoard_total
                (rank from + match color with white => -1 | black => 1 end)
                (file from) st Hb) as [c Hread]; [destruct color; lia|].
    rewrite (bind_run _ _ _ _ _ Hread).
    destruct c; eexists; (split; [reflexivity|discriminate]).
  - destruct ((Z.abs (file to - file from) =? 1) && _) eqn:Hdiag;
      [|eexists; split; [reflexivity|discriminate]].
    apply andb_true_iff in Hdiag as [_ Hdiag%Z.eqb_eq].
    destruct targetPiece; [eexists; split; [reflexivity|discriminate]|].
    unfold bind, gets.
    destruct (negb (String.eqb (enPassantTarget st) "-"));
      [|eexists; split; [reflexivity|discriminate]].
    destruct (bool_decide _ && bool_decide _);
      eexists; (split; [reflexivity|]); [done|discriminate].
Qed.

Lemma kingCheck_total n color from to st :
  hasRanks (board st) -> onGrid from -> onGrid to -> currentPlayer st = color ->
  exists r,
    kingCheck (isLegalMoveWithState (S n)) color from to st = Some (r, st)
    /\ l_isEnPassant r = false.
Proof.
  intros Hb [Hfr Hff] [Htr Htf] Hturn. unfold kingCheck. cbv zeta.
  destruct ((rank to - rank from =? 0) && _).
  2:{ destruct ((1 <? _) || _); by eexists. }
  unfold bind at 1. unfold gets at 1.
  destruct (negb (rank from =? _) || negb (file from =? _)) eqn:Hhome; [by eexists|].
  apply orb_false_iff in Hhome as [_ Hfile%negb_false_iff].
  assert (file from = 4) as Hfile4.
  { destruct color; simpl in Hfile; by apply Z.eqb_eq in Hfile. }
  destruct (negb (file to =? 6) && negb (file to =? 2)) eqn:Htarget; [by eexists|].
  match goal with |- context [if negb ?c then _ else _] => destruct c end;
    [|by eexists]. cbn [negb].
  destruct (castlePathFree_total 8 (rank from)
              (file from + (if file to =? 6 then 1 else -1))
              (if file to =? 6 then 1 else -1) (if file to =? 6 then 7 else 0) st Hb Hfr)
    as [free Hfree].
  { rewrite Hfile4. destruct (file to =? 6); [exists 2|exists 3]; lia. }
  rewrite (bind_run _ _ _ _ _ Hfree).
  destruct free; [|by eexists]. cbn [negb].
  pose proof (isSquareAttacked_mover_total n) as Hatt.
  unfold isSquareAttacked in Hatt.
  rewrite (bind_run _ _ _ _ _ (Hatt from color st Hb Hturn)).
  rewrite (bind_run _ _ _ _ _ (Hatt _ color st Hb Hturn)).
  rewrite (bind_run _ _ _ _ _ (Hatt to color st Hb Hturn)).
  by eexists.
Qed.

Lemma kindCheck_total n p color from to targetPiece promotionChar st :
  hasRanks (board st) -> onGrid from -> onGrid to -> currentPlayer st = color ->
  exists r,
    kindCheck (isLegalMoveWithState (S n)) p color from to targetPiece promotionChar st
      = Some (r, st)
    /\ (l_isEnPassant r = true -> rank to - rank from = pawnDir color).
Proof.
  intros Hb Hf Ht Hturn. unfold kindCheck. cbv zeta.
  destruct Hf as [Hfr Hff]. destruct Ht as [Htr Htf].
  destruct (Ascii.eqb (toLowerCase p) "p"); [by apply pawnCheck_total|].
  destruct (Ascii.eqb (toLowerCase p) "n").
  { destruct (negb _); eexists; (split; [reflexivity|discriminate]). }
  assert (forall drStep dfStep steps,
    (forall j, 1 <= j < steps -> 0 <= rank from + drStep * j < 8) ->
    exists r,
      (let* clear := pathClear from drStep dfStep steps in
       if negb clear then ret (Illegal "Blocked") else ret (Legal false false None)) st
        = Some (r, st)
      /\ (l_isEnPassant r = true -> rank to - rank from = pawnDir color)) as Hslide.
  { intros drStep dfStep steps Hrows.
    destruct (pathClear_total from drStep dfStep steps st Hb Hrows) as [clear Hclear].
    rewrite (bind_run _ _ _ _ _ Hclear).
    destruct clear; eexists; (split; [reflexivity|discriminate]). }
  destruct (Ascii.eqb (toLowerCase p) "b").
  { destruct (negb _); [eexists; split; [reflexivity|discriminate]|].
    apply Hslide. intros j Hj. unfold sign.
    destruct (Z.sgn_spec (rank to - rank from)) as [[? ->]|[[? ->]|[? ->]]]; lia. }
  destruct (Ascii.eqb (toLowerCase p) "r").
  { destruct (negb _) eqn:Haxis; [eexists; split; [reflexivity|discriminate]|].
    apply negb_false_iff, orb_true_iff in Haxis.
    apply Hslide. intros j Hj. unfold sign.
    destruct (decide (rank to - rank from = 0)) as [Hz|Hnz];
      [rewrite Hz; cbn [Z.eqb]; lia|].
    rewrite (proj2 (Z.eqb_neq _ _) Hnz).
    assert (file to - file from = 0) as Hdf0
      by (destruct Haxis as [?%Z.eqb_eq|?%Z.eqb_eq]; [lia|done]).
    rewrite Hdf0 in Hj.
    destruct (Z.sgn_spec (rank to - rank from)) as [[? ->]|[[? ->]|[? ->]]]; lia. }
  destruct (Ascii.eqb (toLowerCase p) "q").
  { destruct (negb _) eqn:Haxis; [eexists; split; [reflexivity|discriminate]|].
    apply negb_false_iff in Haxis.
    apply Hslide. intros j Hj. unfold sign.
    destruct (decide (rank to - rank from = 0)) as [Hz|Hnz];
      [rewrite Hz; cbn [Z.eqb]; lia|].
    rewrite (proj2 (Z.eqb_neq _ _) Hnz).
    assert (Z.max (Z.abs (rank to - rank from)) (Z.abs (file to - file from))
            = Z.abs (rank to - rank from)) as Hmax.
    { apply orb_true_iff in Haxis as [[?%Z.eqb_eq|?%Z.eqb_eq]%orb_true_iff|?%Z.eqb_eq];
        lia. }
    rewrite Hmax in Hj.
    destruct (Z.sgn_spec (rank to - rank from)) as [[? ->]|[[? ->]|[? ->]]]; lia. }
  destruct (Ascii.eqb (toLowerCase p) "k").
  { destruct (kingCheck_total n color from to st Hb) as (r & Hr & Hep); [done..|].
    exists r. split; [done|]. rewrite Hep. discriminate. }
  eexists; split; [reflexivity|discriminate].
Qed.

(** On the grid, with fuel for two levels of calls, the checker returns and
    the state it returns is the one it was given. *)
Lemma isLegalMoveWithState_total n from to piece promotionChar st :
  hasRanks (board st) -> onGrid from -> onGrid to ->
  exists r,
    isLegalMoveWithState (S (S n)) from to piece promotionChar st = Some (r, st).
Proof.
  intros Hb Hf Ht.
  change (isLegalMoveWithState (S (S n)))
    with (isLegalMoveWithState_body (isLegalMoveWithState (S n))).
  unfold isLegalMoveWithState_body.
  destruct piece as [p|]; [|by eexists].
  destruct ((rank from =? rank to) && (file from =? file to)); [by eexists|].
  destruct (readBoard_total (rank to) (file to) st Hb (proj1 Ht)) as [target Hread].
  rewrite (bind_run _ _ _ _ _ Hread).
  destruct (match target with Some t => isSameColor p t | None => false end);
    [by eexists|].
  unfold bind at 1. unfold gets at 1.
  destruct (negb (Player_eqb (colorOf p) (currentPlayer st))) eqn:Hturn; [by eexists|].
  apply negb_false_iff, bool_decide_eq_true in Hturn. symmetry in Hturn.
  destruct (kindCheck_total n p (colorOf p) from to target promotionChar st
              Hb Hf Ht Hturn) as (flags & Hkind & Hep).
  rewrite (bind_run _ _ _ _ _ Hkind).
  destruct flags as [why|ep cas promo]; [by eexists|].
  unfold simulateAndVerify, snapshotState.
  unfold bind at 1. unfold gets at 1.
  destruct (applyMoveToState_total
              (mkMove from to (Some p) target promo ep cas) true st Hb Hf Ht)
    as (st1 & Happ & Hb1).
  { simpl. intros p' [= <-] ->. specialize (Hep eq_refl). unfold pawnDir in Hep.
    destruct Hf as [Hfr _]. destruct (colorOf p); lia. }
  unfold bind at 1. unfold update at 1. cbn [l_promotion l_isEnPassant l_isCastling].
  rewrite Happ.
  pose proof (isKingInCheck_mover_total n (colorOf p) st1 Hb1) as Hchk.
  unfold isKingInCheck in Hchk.
  rewrite (bind_run _ _ _ _ _ (Hchk (eq_trans (applyMoveToState_currentPlayer _ _ _ _ Happ) Hturn))).
  apply applyMoveToState_simulate_outside in Happ
    as (? & ? & ? & ? & ? & ? & ? & ? & ?).
  rewrite (bind_run _ _ _ _ _ (restore_snapshot_id st st1 ltac:(done) ltac:(done)
    ltac:(done) ltac:(done) ltac:(done) ltac:(done) ltac:(done) ltac:(done) ltac:(done))).
  by eexists.
Qed.

(** ** Reading back what was written *)

Lemma setElem_lookup_eq row f v : setElem row f v !! f = Some v.
Proof.
  unfold setElem. destruct (decide (f < length row)%nat).
  - by apply list_lookup_insert_eq.
  - rewrite lookup_app_r by lia.
    rewrite lookup_app_r by (rewrite length_replicate; lia).
    rewrite length_replicate.
    by replace (f - length row - (f - length row))%nat with 0%nat by lia.
Qed.

Lemma setElem_lookup_ne row f v f' :
  f <> f' -> default None (setElem row f v !! f') = default None (row !! f').
Proof.
  intros Hne. unfold setElem. destruct (decide (f < length row)%nat).
  - by rewrite list_lookup_insert_ne.
  - destruct (decide (f' < length row)%nat).
    + by rewrite lookup_app_l.
    + rewrite (lookup_ge_None_2 row f') by lia.
      rewrite lookup_app_r by lia.
      destruct (decide (f' < f)%nat).
      * rewrite lookup_app_l by (rewrite length_replicate; lia).
        by rewrite lookup_replicate_2 by lia.
      * rewrite lookup_ge_None_2; [done|].
        rewrite length_app, length_replicate. simpl. lia.
Qed.

Lemma readSq_writeSq_eq b r f v b' :
  writeSq b r f v = Some b' -> readSq b' r f = Some v.
Proof.
  unfold writeSq, readSq. destruct (decide (0 <= r /\ 0 <= f)) as [[Hr Hf]|]; [|done].
  destruct (b !! Z.to_nat r) as [row|] eqn:Hrow; [|done]. intros [= <-].
  destruct (decide (0 <= r)); [|lia].
  rewrite list_lookup_insert_eq by (by eapply lookup_lt_Some).
  destruct (decide (0 <= f)); [|lia].
  by rewrite setElem_lookup_eq.
Qed.

Lemma readSq_writeSq_ne b r f v b' r' f' :
  writeSq b r f v = Some b' -> (r, f) <> (r', f') -> readSq b' r' f' = readSq b r' f'.
Proof.
  unfold writeSq, readSq. destruct (decide (0 <= r /\ 0 <= f)) as [[Hr Hf]|]; [|done].
  destruct (b !! Z.to_nat r) as [row|] eqn:Hrow; [|done]. intros [= <-] Hne.
  destruct (decide (0 <= r')); [|done].
  destruct (decide (Z.to_nat r = Z.to_nat r')) as [Heq|Hneq].
  - assert (r' = r) as -> by lia.
    rewrite list_lookup_insert_eq by (by eapply lookup_lt_Some). rewrite Hrow.
    destruct (decide (0 <= f')); [|done].
    rewrite setElem_lookup_ne; [done|]. intros Hf'. apply Hne. f_equal. lia.
  - by rewrite list_lookup_insert_ne.
Qed.

(** Clearing a square does not fill another. *)
Lemma readSq_writeSq_None b r f b' r' f' :
  writeSq b r f None = Some b' -> readSq b r' f' = Some None ->
  readSq b' r' f' = Some None.
Proof.
  intros Hw Hread. destruct (decide ((r, f) = (r', f'))) as [[= <- <-]|Hne].
  - by eapply readSq_writeSq_eq.
  - by rewrite (readSq_writeSq_ne _ _ _ _ _ _ _ Hw Hne).
Qed.

(** ** What the applier leaves in the derived fields *)

Lemma updateScoreOnCapture_castlingRights attacker victim st :
  castlingRights (updateScoreOnCapture attacker victim st) = castlingRights st.
Proof.
  unfold updateScoreOnCapture.
  destruct victim; [destruct (colorOf attacker)|]; reflexivity.
Qed.

Lemma updateScoreOnCapture_enPassantTarget attacker victim st :
  enPassantTarget (updateScoreOnCapture attacker victim st) = enPassantTarget st.
Proof.
  unfold updateScoreOnCapture.
  destruct victim; [destruct (colorOf attacker)|]; reflexivity.
Qed.

Lemma applyMoveToState_inv move simulate st st' p :
  piece move = Some p -> applyMoveToState move simulate st = Some st' ->
  applyBoard move p (board st) = Some (board st')
  /\ castlingRights st'
     = updateCR (capturedPiece move) (rank (to move)) (file (to move))
         (updateCR (Some p) (rank (from move)) (file (from move)) (castlingRights st))
  /\ enPassantTarget st' = nextEnPassantTarget move p.
Proof.
  intros Hp. unfold applyMoveToState. rewrite Hp.
  destruct (applyBoard move p (board st)) as [b|]; simpl; [|discriminate].
  intros [= <-]. destruct simulate; [done|].
  rewrite updateScoreOnCapture_board, updateScoreOnCapture_castlingRights,
    updateScoreOnCapture_enPassantTarget. done.
Qed.

Lemma rightsLe_refl c : rightsLe c c.
Proof. by repeat split. Qed.

Lemma rightsLe_trans c1 c2 c3 : rightsLe c1 c2 -> rightsLe c2 c3 -> rightsLe c1 c3.
Proof. unfold rightsLe. tauto. Qed.

Lemma updateCR_le p r f c : rightsLe (updateCR p r f c) c.
Proof.
  destruct p as [p|]; [|apply rightsLe_refl]. unfold updateCR.
  repeat match goal with
  | |- context [if ?b then _ else _] => destruct b
  end; unfold rightsLe; simpl; repeat split; congruence.
Qed.

Lemma updateCR_cleared p r f c :
  (p = Some "K"%char -> crK (updateCR p r f c) = false /\ crQ (updateCR p r f c) = false)
  /\ (p = Some "k"%char -> crk (updateCR p r f c) = false /\ crq (updateCR p r f c) = false)
  /\ (p = Some "R"%char -> r = 7 -> f = 0 -> crQ (updateCR p r f c) = false)
  /\ (p = Some "R"%char -> r = 7 -> f = 7 -> crK (updateCR p r f c) = false)
  /\ (p = Some "r"%char -> r = 0 -> f = 0 -> crq (updateCR p r f c) = false)
  /\ (p = Some "r"%char -> r = 0 -> f = 7 -> crk (updateCR p r f c) = false).
Proof. repeat split; intros; subst; reflexivity. Qed.

Lemma rightsLe_false c' c :
  rightsLe c' c ->
  (crK c = false -> crK c' = false) /\ (crQ c = false -> crQ c' = false) /\
  (crk c = false -> crk c' = false) /\ (crq c = false -> crq c' = false).
Proof.
  unfold rightsLe. intros (HK & HQ & Hk & Hq).
  repeat split; intros Hc; apply not_true_is_false; intros H';
    [apply HK in H'|apply HQ in H'|apply Hk in H'|apply Hq in H']; congruence.
Qed.

Lemma coordsToAlgebraic_not_dash r f : coordsToAlgebraic r f <> "-".
Proof.
  unfold coordsToAlgebraic, numberToString. intros H.
  destruct (8 - r <? 0); [done|].
  destruct (Z.to_nat (Z.log2 (8 - r))); simpl in H; [done|].
  destruct (_ =? 0); [done|].
  injection H as _ H. revert H.
  generalize (String (digitChar ((8 - r) `mod` 10)) "").
  generalize ((8 - r) `div` 10). intros z s.
  assert (forall k z s, digitsOf k z s <> "") as Hne.
  { clear. induction k as [|k IH]; intros z s; simpl; [done|].
    destruct (_ =? 0); [done|apply IH]. }
  apply Hne.
Qed.

(** The name of a square of the grid, as text and read back. *)
Lemma numberToString_digit e :
  0 <= e <= 9 -> numberToString e = String (digitChar e) "".
Proof.
  intros He.
  assert (e = 0 \/ e = 1 \/ e = 2 \/ e = 3 \/ e = 4 \/ e = 5 \/ e = 6 \/ e = 7
          \/ e = 8 \/ e = 9) as Hcases by lia.
  decompose [or] Hcases; subst; reflexivity.
Qed.

Lemma coordsToAlgebraic_text r f :
  0 <= r < 8 ->
  coordsToAlgebraic r f = String (fileLetter f) (String (digitChar (8 - r)) "").
Proof.
  intros Hr. unfold coordsToAlgebraic, fileLetter.
  by rewrite numberToString_digit by lia.
Qed.

Lemma algebraicToCoords_coordsToAlgebraic r f :
  0 <= r < 8 -> 0 <= f < 8 ->
  algebraicToCoords (coordsToAlgebraic r f) = (Int r, Int f).
Proof.
  intros Hr Hf.
  assert (r ∈ range8) as Hrin by (by apply elem_of_range8).
  assert (f ∈ range8) as Hfin by (by apply elem_of_range8).
  unfold range8 in Hrin, Hfin. rewrite !elem_of_cons, elem_of_nil in Hrin, Hfin.
  decompose [or] Hrin; decompose [or] Hfin; subst; try done.
Qed.

(** ** Positions used as concrete inputs *)

(** ** Snapshots do not alias the live board *)

Lemma store_slice_fresh r h l h1 :
  Store.slice r h = Some (l, h1) ->
  exists row, h !! r = Some row /\ h !! l = None /\ h1 = <[l := row]> h.
Proof.
  unfold Store.slice. destruct (h !! r) as [row|] eqn:Hr; [|done].
  simpl. intros [= <- <-]. exists row. split; [done|]. split; [|done].
  apply not_elem_of_dom. apply is_fresh.
Qed.

Lemma store_holds_insert h b rows l row :
  h !! l = None -> Store.holds h b rows -> Store.holds (<[l := row]> h) b rows.
Proof.
  intros Hl Hholds. unfold Store.holds.
  eapply Forall2_impl; [exact Hholds|]. intros l' row' Hl'. simpl.
  rewrite lookup_insert_ne; [done|]. intros ->. congruence.
Qed.

(** Copying allocates: the copies are new references to the same rows, and
    what was in the store stays. *)
Lemma store_copyRows b : forall h rows,
  Store.holds h b rows ->
  exists s h1,
    Store.copyRows b h = Some (s, h1)
    /\ Store.holds h1 s rows
    /\ Forall (fun l => h !! l = None) s
    /\ (forall l row, h !! l = Some row -> h1 !! l = Some row).
Proof.
  induction b as [|r b IH]; intros h rows Hholds.
  - apply Forall2_nil_inv_l in Hholds as ->. exists [], h.
    split; [done|]. split; [constructor|]. split; [constructor|]. done.
  - apply Forall2_cons_inv_l in Hholds as (row & rows' & Hr & Hrest & ->).
    simpl. unfold Store.slice. rewrite Hr. simpl.
    set (l := fresh (dom h)).
    assert (h !! l = None) as Hl by (apply not_elem_of_dom, is_fresh).
    destruct (IH (<[l := row]> h) rows' (store_holds_insert _ _ _ _ _ Hl Hrest))
      as (s & h1 & -> & Hs & Hfresh & Hkeep).
    simpl. exists (l :: s), h1. split; [done|]. split_and!.
    + constructor; [|done]. apply Hkeep. by rewrite lookup_insert_eq.
    + constructor; [done|]. eapply Forall_impl; [exact Hfresh|].
      intros l' Hl'. simpl in Hl'.
      destruct (decide (l = l')) as [<-|Hne]; [done|].
      by rewrite lookup_insert_ne in Hl'.
    + intros l' row' Hl'. apply Hkeep. rewrite lookup_insert_ne; [done|].
      intros <-. congruence.
Qed.

(** Writes through [b] leave every other array alone. *)
Lemma store_writes_elsewhere b h h' l :
  Store.writes b h h' -> l ∉ b -> h' !! l = h !! l.
Proof.
  induction 1 as [h|h r f v h1 h2 Hw _ IH]; intros Hl; [done|].
  rewrite (IH Hl). unfold Store.writeCell in Hw.
  destruct (b !! r) as [l0|] eqn:Hl0; [|done]. simpl in Hw.
  destruct (h !! l0) as [row|]; [|done]. simpl in Hw. injection Hw as <-.
  rewrite lookup_insert_ne; [done|]. intros <-. apply Hl.
  by eapply list_elem_of_lookup_2.
Qed.

(** X27. [snapshotState] followed by any writes to the live board and then
    [restoreSnapshot] installs rows with the original contents: the copies
    of [r.slice()] share nothing with the rows that were written to. *)
Lemma store_snapshot_restore b h rows :
  Store.holds h b rows ->
  exists s h1,
    Store.copyRows b h = Some (s, h1)
    /\ forall h2, Store.writes b h1 h2 ->
         exists b' h3, Store.copyRows s h2 = Some (b', h3) /\ Store.holds h3 b' rows.
Proof.
  intros Hholds.
  destruct (store_copyRows b h rows Hholds) as (s & h1 & Hcopy & Hs & Hfresh & _).
  exists s, h1. split; [done|]. intros h2 Hw.
  assert (Store.holds h2 s rows) as Hs2.
  { unfold Store.holds in *.
    assert (Forall (fun l => l ∉ b) s) as Hdisj.
    { eapply Forall_impl; [exact Hfresh|]. intros l Hl Hin. simpl in Hl.
      apply list_elem_of_lookup_1 in Hin as [i Hi].
      destruct (Forall2_lookup_l _ _ _ _ _ Hholds Hi) as (row & _ & Hrow).
      congruence. }
    clear Hcopy Hfresh Hholds. revert Hdisj.
    induction Hs as [|l row s rows Hl Hs IH]; intros Hdisj; [constructor|].
    apply Forall_cons in Hdisj as [Hlb Hdisj].
    constructor; [|by apply IH].
    by rewrite (store_writes_elsewhere _ _ _ _ Hw Hlb). }
  destruct (store_copyRows s h2 rows Hs2) as (b' & h3 & Hcopy' & Hb' & _).
  by exists b', h3.
Qed.

(** A snapshot that kept the references themselves would not do: the write
    shows through it. *)
Lemma store_shallow_snapshot_corrupted :
  let h : Store.store := {[ 1%positive := [None; None] ]} in
  let b := [1%positive] in
  exists h2,
    Store.writeCell b 0 0 (Some "K"%char) h = Some h2
    /\ Store.holds h b [[None; None]]
    /\ Store.holds h2 b [[Some "K"%char; None]].
Proof.
  eexists. split; [reflexivity|]. split; repeat constructor.
Qed.

(** ** C7: a rejected move leaves the Position untouched *)

(** C7. Whenever [isLegalMoveWithState] rejects a candidate move (result
    [ok: false], for whichever reason), the state it returns is exactly the
    state it was called on: board, side to move, castling rights, en-passant
    target and both clocks are unchanged (and so is every other field). *)
Theorem rejection_is_atomic fuel from to piece promotionChar st r st' :
  isLegalMoveWithState fuel from to piece promotionChar st = Some (r, st') ->
  ok r = false ->
  st' = st.
Proof. intros H _. by eapply isLegalMoveWithState_state. Qed.

Lemma rejection_is_atomic_witness :
  exists r st',
    isLegalMoveWithState 2 e2 e5 (Some "P"%char) None startPosition = Some (r, st')
    /\ ok r = false /\ st' = startPosition.
Proof.
  exists (Illegal "Bad pawn move"), startPosition.
  assert (isLegalMoveWithState 2 e2 e5 (Some "P"%char) None startPosition
          = Some (Illegal "Bad pawn move", startPosition)) as Hrun
    by (vm_compute; reflexivity).
  split; [exact Hrun|]. split; [reflexivity|].
  exact (rejection_is_atomic 2 e2 e5 (Some "P"%char) None startPosition
           (Illegal "Bad pawn move") startPosition Hrun eq_refl).
Defined.

(** ** C8: the en-passant target and the en-passant capture *)

(** C8. Every application of a move (a move with a piece) leaves
    [enPassantTarget] equal to the midpoint square when the piece is a pawn
    moving two ranks, and equal to '-' otherwise, so the target is '-' exactly
    when the move is not a pawn double-step. On the grid the target is the
    name of the skipped square as text: the letter of the pawn's file
    followed by the digit of the rank that lies between origin and
    destination, which [algebraicToCoords] reads back as that square. When
    the move is an en-passant capture, the square behind the destination is
    empty afterwards and the destination holds the moving pawn (or its
    promotion). *)
Theorem en_passant_lifecycle move simulate st st' p :
  piece move = Some p ->
  applyMoveToState move simulate st = Some st' ->
  enPassantTarget st'
    = (if isPawn p && (Z.abs (rank (to move) - rank (from move)) =? 2)
       then coordsToAlgebraic ((rank (to move) + rank (from move)) / 2) (file (from move))
       else "-")
  /\ (enPassantTarget st' = "-"
      <-> ~ (isPawn p = true /\ Z.abs (rank (to move) - rank (from move)) = 2))
  /\ (isPawn p = true -> Z.abs (rank (to move) - rank (from move)) = 2 ->
      onGrid (from move) -> onGrid (to move) ->
      let midRank := (rank (to move) + rank (from move)) / 2 in
      enPassantTarget st'
        = String (fileLetter (file (from move))) (String (digitChar (8 - midRank)) "")
      /\ Z.min (rank (from move)) (rank (to move)) < midRank
         < Z.max (rank (from move)) (rank (to move))
      /\ algebraicToCoords (enPassantTarget st') = (Int midRank, Int (file (from move))))
  /\ (isEnPassant move = true -> isCastling move = false -> from move <> to move ->
      readSq (board st') (capturedPawnRank p (to move)) (file (to move)) = Some None
      /\ readSq (board st') (rank (to move)) (file (to move))
         = Some (Some (default p (promotion move)))).
Proof.
  intros Hp Happ.
  destruct (applyMoveToState_inv _ _ _ _ _ Hp Happ) as (Hboard & _ & Hep).
  split; [exact Hep|]. split; [|split].
  - rewrite Hep. unfold nextEnPassantTarget.
    destruct (isPawn p); simpl.
    + destruct (Z.eqb_spec (Z.abs (rank (to move) - rank (from move))) 2) as [Heq|Hne].
      * split; [intros H; by apply coordsToAlgebraic_not_dash in H|tauto].
      * split; [tauto|done].
    + split; [intros _ [? _]; done|done].
  - intros Hpawn Habs [Hfr Hff] [Htr Htf] midRank.
    assert (Z.min (rank (from move)) (rank (to move)) < midRank
            < Z.max (rank (from move)) (rank (to move))) as Hmid.
    { subst midRank.
      assert (rank (to move) = rank (from move) + 2 \/ rank (to move) = rank (from move) - 2)
        as [-> | ->] by lia.
      - replace (rank (from move) + 2 + rank (from move))
          with ((rank (from move) + 1) * 2) by lia.
        rewrite Z.div_mul by done. lia.
      - replace (rank (from move) - 2 + rank (from move))
          with ((rank (from move) - 1) * 2) by lia.
        rewrite Z.div_mul by done. lia. }
    assert (enPassantTarget st' = coordsToAlgebraic midRank (file (from move))) as Htxt.
    { rewrite Hep. unfold nextEnPassantTarget. rewrite Hpawn.
      apply Z.eqb_eq in Habs. by rewrite Habs. }
    split; [|split; [exact Hmid|]].
    + rewrite Htxt. apply coordsToAlgebraic_text. lia.
    + rewrite Htxt. apply algebraicToCoords_coordsToAlgebraic; lia.
  - intros HisEp Hcas Hneq. unfold capturedPawnRank.
    unfold applyBoard in Hboard. rewrite HisEp, Hcas in Hboard. simpl in Hboard.
    set (dir := match colorOf p with white => 1 | black => -1 end) in *.
    destruct (writeSq (board st) (rank (to move) + dir) (file (to move)) None)
      as [b1|] eqn:Hw1; [|discriminate]. simpl in Hboard.
    destruct (writeSq b1 (rank (to move)) (file (to move)) (Some p))
      as [b3|] eqn:Hw3; [|discriminate]. simpl in Hboard.
    destruct (writeSq b3 (rank (from move)) (file (from move)) None)
      as [b4|] eqn:Hw4; [|discriminate]. simpl in Hboard.
    assert (readSq b4 (rank (to move) + dir) (file (to move)) = Some None) as Hgone.
    { eapply readSq_writeSq_None; [exact Hw4|].
      rewrite (readSq_writeSq_ne _ _ _ _ _ _ _ Hw3).
      - by eapply readSq_writeSq_eq.
      - intros Heq. apply (f_equal fst) in Heq. simpl in Heq.
        subst dir. destruct (colorOf p); lia. }
    assert (readSq b4 (rank (to move)) (file (to move)) = Some (Some p)) as Hthere.
    { rewrite (readSq_writeSq_ne _ _ _ _ _ _ _ Hw4).
      - by eapply readSq_writeSq_eq.
      - intros [= Hr Hf]. apply Hneq. destruct (from move), (to move). simpl in *.
        by subst. }
    destruct (promotion move) as [pr|]; simpl.
    + split; [|by eapply readSq_writeSq_eq].
      rewrite (readSq_writeSq_ne _ _ _ _ _ _ _ Hboard); [done|].
      intros Heq. apply (f_equal fst) in Heq. simpl in Heq.
      subst dir. destruct (colorOf p); lia.
    + by injection Hboard as <-.
Qed.

(** The double step e2-e4 from the start position leaves the target "e3",
    the square the pawn skipped. The capture e5xd6 after ...d7d5: the
    checker flags it as en passant, and applying it empties d5, puts the pawn
    on d6 and resets the target. *)
Lemma en_passant_lifecycle_witness :
  (exists st',
     applyMoveToState (mkMove e2 e4 (Some "P"%char) None None false false) false
       startPosition = Some st'
     /\ isLegalMoveWithState 2 e2 e4 (Some "P"%char) None startPosition
        = Some (Legal false false None, startPosition)
     /\ enPassantTarget st' = "e3"
     /\ algebraicToCoords (enPassantTarget st') = (Int 5, Int 4))
  /\ (exists st',
        applyMoveToState (mkMove e5 d6 (Some "P"%char) None None true false) false
          enPassantReady = Some st'
        /\ isLegalMoveWithState 2 e5 d6 (Some "P"%char) None enPassantReady
           = Some (Legal true false None, enPassantReady)
        /\ enPassantTarget st' = "-"
        /\ readSq (board st') (rank d5) (file d5) = Some None
        /\ readSq (board st') (rank d6) (file d6) = Some (Some "P"%char)).
Proof.
  split.
  - destruct (applyMoveToState (mkMove e2 e4 (Some "P"%char) None None false false) false
                startPosition) as [st'|] eqn:Happ; [|by vm_compute in Happ].
    exists st'. split; [reflexivity|]. split; [vm_compute; reflexivity|].
    destruct (en_passant_lifecycle (mkMove e2 e4 (Some "P"%char) None None false false)
                false startPosition st' "P"%char eq_refl Happ)
      as (_ & _ & Hstep & _).
    destruct Hstep as (Htxt & _ & Hback);
      [reflexivity|reflexivity|vm_compute; repeat split; discriminate
      |vm_compute; repeat split; discriminate|].
    split; [exact Htxt|exact Hback].
  - destruct (applyMoveToState (mkMove e5 d6 (Some "P"%char) None None true false) false
                enPassantReady) as [st'|] eqn:Happ; [|by vm_compute in Happ].
    exists st'. split; [reflexivity|]. split; [vm_compute; reflexivity|].
    destruct (en_passant_lifecycle (mkMove e5 d6 (Some "P"%char) None None true false)
                false enPassantReady st' "P"%char eq_refl Happ)
      as (Hep & _ & _ & Hcap).
    split; [exact Hep|].
    apply Hcap; [reflexivity|reflexivity|discriminate].
Defined.

(** ** C9: castling rights only ever shrink *)

(** C9. Every application of [applyMoveToState] that returns leaves each of
    the four castling rights at most what it was (no right comes back); a
    moving king clears both rights of its colour, a rook leaving a1/h1/a8/h8
    clears the right of that corner, and a rook captured on a1/h1/a8/h8
    clears the right of that corner. *)
Theorem castling_rights_monotone move simulate st st' :
  applyMoveToState move simulate st = Some st' ->
  rightsLe (castlingRights st') (castlingRights st)
  /\ (piece move = Some "K"%char ->
      crK (castlingRights st') = false /\ crQ (castlingRights st') = false)
  /\ (piece move = Some "k"%char ->
      crk (castlingRights st') = false /\ crq (castlingRights st') = false)
  /\ (piece move = Some "R"%char -> from move = mkSquare 7 0 ->
      crQ (castlingRights st') = false)
  /\ (piece move = Some "R"%char -> from move = mkSquare 7 7 ->
      crK (castlingRights st') = false)
  /\ (piece move = Some "r"%char -> from move = mkSquare 0 0 ->
      crq (castlingRights st') = false)
  /\ (piece move = Some "r"%char -> from move = mkSquare 0 7 ->
      crk (castlingRights st') = false)
  /\ (is_Some (piece move) -> capturedPiece move = Some "R"%char ->
      to move = mkSquare 7 0 -> crQ (castlingRights st') = false)
  /\ (is_Some (piece move) -> capturedPiece move = Some "R"%char ->
      to move = mkSquare 7 7 -> crK (castlingRights st') = false)
  /\ (is_Some (piece move) -> capturedPiece move = Some "r"%char ->
      to move = mkSquare 0 0 -> crq (castlingRights st') = false)
  /\ (is_Some (piece move) -> capturedPiece move = Some "r"%char ->
      to move = mkSquare 0 7 -> crk (castlingRights st') = false).
Proof.
  intros Happ. destruct (piece move) as [p|] eqn:Hp.
  2:{ unfold applyMoveToState in Happ. rewrite Hp in Happ. injection Happ as <-.
      split; [apply rightsLe_refl|].
      repeat split; try discriminate; by intros [? ?]. }
  destruct (applyMoveToState_inv _ _ _ _ _ Hp Happ) as (_ & Hcr & _).
  rewrite Hcr.
  set (c1 := updateCR (Some p) (rank (from move)) (file (from move)) (castlingRights st)).
  pose proof (updateCR_le (Some p) (rank (from move)) (file (from move))
                (castlingRights st)) as Hle1. fold c1 in Hle1.
  pose proof (updateCR_le (capturedPiece move) (rank (to move)) (file (to move)) c1)
    as Hle2.
  destruct (rightsLe_false _ _ Hle2) as (HK & HQ & Hk & Hq).
  pose proof (updateCR_cleared (Some p) (rank (from move)) (file (from move))
                (castlingRights st)) as (MK & Mk & MR1 & MR2 & Mr1 & Mr2).
  fold c1 in MK, Mk, MR1, MR2, Mr1, Mr2.
  pose proof (updateCR_cleared (capturedPiece move) (rank (to move)) (file (to move)) c1)
    as (_ & _ & CR1 & CR2 & Cr1 & Cr2).
  split; [by eapply rightsLe_trans|].
  split; [intros Hk'; destruct (MK Hk'); split; [by apply HK|by apply HQ]|].
  split; [intros Hk'; destruct (Mk Hk'); split; [by apply Hk|by apply Hq]|].
  split; [intros Hp' Hfrom; apply HQ, MR1; [done|by rewrite Hfrom..]|].
  split; [intros Hp' Hfrom; apply HK, MR2; [done|by rewrite Hfrom..]|].
  split; [intros Hp' Hfrom; apply Hq, Mr1; [done|by rewrite Hfrom..]|].
  split; [intros Hp' Hfrom; apply Hk, Mr2; [done|by rewrite Hfrom..]|].
  split; [intros _ Hcap Hto; apply CR1; [done|by rewrite Hto..]|].
  split; [intros _ Hcap Hto; apply CR2; [done|by rewrite Hto..]|].
  split; [intros _ Hcap Hto; apply Cr1; [done|by rewrite Hto..]|].
  intros _ Hcap Hto; apply Cr2; [done|by rewrite Hto..].
Qed.

(** White castles short from the start-like position [castleThroughW]: both
    white rights are gone afterwards. *)
Lemma castling_rights_monotone_witness :
  exists st',
    applyMoveToState (mkMove e1 g1 (Some "K"%char) None None false true) false
      castleThroughW = Some st'
    /\ rightsLe (castlingRights st') (castlingRights castleThroughW)
    /\ crK (castlingRights st') = false /\ crQ (castlingRights st') = false.
Proof.
  destruct (applyMoveToState (mkMove e1 g1 (Some "K"%char) None None false true) false
              castleThroughW) as [st'|] eqn:Happ; [|by vm_compute in Happ].
  exists st'. split; [reflexivity|].
  destruct (castling_rights_monotone
              (mkMove e1 g1 (Some "K"%char) None None false true)
              false castleThroughW st' Happ)
    as (Hle & HK & _).
  split; [exact Hle|]. by apply HK.
Defined.

(** ** C10: the two enumerators are one *)

(** Every move an enumeration returns was accepted by the full checker on
    the state the enumeration started from. *)
Lemma enumerated_moves_accepted fuel player opts st l st' :
  generateAllPseudoLegalMoves fuel player opts st = Some (l, st') ->
  Forall (fun m =>
            isLegalMoveWithState fuel (g_from m) (g_to m) (Some (g_piece m)) None st
              = Some (g_meta m, st)
            /\ ok (g_meta m) = true) l.
Proof.
  unfold generateAllPseudoLegalMoves, generateAllPseudoLegalMoves_. cbv zeta.
  set (Q := fun m =>
              isLegalMoveWithState fuel (g_from m) (g_to m) (Some (g_piece m)) None st
                = Some (g_meta m, st)
              /\ ok (g_meta m) = true).
  intros H. cut (st' = st /\ Forall Q l); [tauto|]. revert H.
  apply (forM_inv (fun m s => s = st /\ Forall Q m)); [|by split].
  intros rank acc1 st1 acc1' st1' _ [-> Hacc1].
  apply (forM_inv (fun m s => s = st /\ Forall Q m)); [|by split].
  intros file acc2 st2 acc2' st2' _ [-> Hacc2] H. inv_M; try done.
  match goal with H : forM _ _ _ _ = Some _ |- _ => revert H end.
  apply (forM_inv (fun m s => s = st /\ Forall Q m)); [|by split].
  intros toRank acc3 st3 acc3' st3' _ [-> Hacc3].
  apply (forM_inv (fun m s => s = st /\ Forall Q m)); [|by split].
  intros toFile acc4 st4 acc4' st4' _ [-> Hacc4] H'.
  apply bind_Some in H' as (res & st5 & Hcall & H').
  pose proof (isLegalMoveWithState_state _ _ _ _ _ _ _ _ Hcall) as ->.
  destruct (ok res) eqn:Hok.
  - inv_M. split; [done|]. apply Forall_app. split; [done|].
    constructor; [|constructor]. by split.
  - by apply ret_Some in H' as [-> ->].
Qed.

(** C10. For every position and player, [generateAllLegalMoves(player)] and
    [generateAllPseudoLegalMoves(player, { includeKingSafety: false })] are
    the same computation, hence return the same sequence of moves (and the
    same holds for any value of the option): the option is read into a local
    that the enumeration never consults, and every move either of them
    returns went through the same full [isLegalMoveWithState]. *)
Theorem enumerators_coincide fuel player st :
  generateAllLegalMoves fuel player st
    = generateAllPseudoLegalMoves fuel player (Some false) st
  /\ (forall opts opts',
        generateAllPseudoLegalMoves fuel player opts st
          = generateAllPseudoLegalMoves fuel player opts' st)
  /\ (forall opts l st',
        generateAllPseudoLegalMoves fuel player opts st = Some (l, st') ->
        Forall (fun m =>
                  isLegalMoveWithState fuel (g_from m) (g_to m) (Some (g_piece m))
                    None st = Some (g_meta m, st)
                  /\ ok (g_meta m) = true) l).
Proof.
  split; [reflexivity|]. split; [intros; reflexivity|].
  intros opts l st'. apply enumerated_moves_accepted.
Qed.

(** At the start position both enumerations return the same twenty moves. *)
Lemma enumerators_coincide_witness :
  exists l st',
    generateAllPseudoLegalMoves 2 white (Some false) startPosition = Some (l, st')
    /\ generateAllLegalMoves 2 white startPosition = Some (l, st')
    /\ length l = 20%nat
    /\ Forall (fun m =>
                 isLegalMoveWithState 2 (g_from m) (g_to m) (Some (g_piece m)) None
                   startPosition = Some (g_meta m, startPosition)
                 /\ ok (g_meta m) = true) l.
Proof.
  eexists _, _. split; [vm_compute; reflexivity|].
  split; [vm_compute; reflexivity|]. split; [reflexivity|].
  apply (proj2 (proj2 (enumerators_coincide 2 white startPosition)) (Some false)
           _ startPosition).
  vm_compute. reflexivity.
Defined.

(** ** The attack checks, run on concrete positions *)

(** The positions used below are ones the editor can load: their FEN texts
    pass [validateFEN]. *)
Lemma positions_accepted :
  Forall (fun fen => validateFEN fen = true)
    [ "4r2k/8/8/8/8/8/4N3/4K3 w - - 0 1"; "4r2k/8/8/8/8/8/8/4K3 w - - 0 1";
      "4r2k/8/8/8/8/8/8/4K3 b - - 0 1"; "k4r2/8/8/8/8/8/8/4K2R w K - 0 1";
      "k4r2/8/8/8/8/8/8/4K2R b K - 0 1"; "KP6/PPn5/8/8/8/8/8/7k w - - 0 1";
      "R5k1/5ppp/8/8/8/8/8/6K1 w - - 1 1" ].
Proof. repeat (constructor; [reflexivity|]). constructor. Qed.

(** No call of the checker returns one of the four reasons that report an
    attacked king. *)
Lemma attack_reasons_unreachable fuel from to piece promotionChar st why st' :
  isLegalMoveWithState fuel from to piece promotionChar st = Some (Illegal why, st') ->
  why <> "Leaves king in check" /\ why <> "King in check"
  /\ why <> "Through check" /\ why <> "Into check".
Proof.
  intros H%isLegalMoveWithState_reasons.
  unfold reachableReasons, kindReasons in H. cbn [app] in H.
  rewrite !elem_of_cons, elem_of_nil in H.
  repeat split; intros ->; decompose [or] H; congruence.
Qed.

(** C1. At the position [pinnedKnight] (White: Ke1, Ne2; Black: Re8, Kh8;
    White to move) the checker accepts Ne2-c3. Once the move is applied and
    the turn has passed to Black, the checker's own oracle reports the white
    king attacked: the accepted move left the mover's king in check. *)
Theorem accepted_move_exposes_king :
  isLegalMoveWithState 3 e2 c3 (Some "N"%char) None pinnedKnight
    = Some (Legal false false None, pinnedKnight)
  /\ exists st1 st2,
       applyMoveToState (mkMove e2 c3 (Some "N"%char) None None false false) false
         pinnedKnight = Some st1
       /\ endPlayerTurn 3 st1 = Some (false, st2)
       /\ currentPlayer st2 = black
       /\ isKingInCheck 3 white st2 = Some (true, st2).
Proof.
  split; [vm_compute; reflexivity|].
  eexists _, _. split; [vm_compute; reflexivity|].
  split; [vm_compute; reflexivity|]. split; vm_compute; reflexivity.
Qed.

(** C2. [openFileW] and [openFileB] have the same board (black rook e8,
    white king e1, open e-file) and differ in the side to move. The rook's
    own movement rule lets it reach e1, yet [isSquareAttacked(e1, white)] is
    [false] with White to move and [true] with Black to move. *)
Theorem attack_oracle_depends_on_turn :
  board openFileW = board openFileB
  /\ kindCheck (isLegalMoveWithState 2) "r"%char black e8 e1 (Some "K"%char) None openFileW
     = Some (Legal false false None, openFileW)
  /\ isSquareAttacked 3 e1 white openFileW = Some (false, openFileW)
  /\ isSquareAttacked 3 e1 white openFileB = Some (true, openFileB).
Proof. repeat split; vm_compute; reflexivity. Qed.

(** C3. At [castleThroughW] (White: Ke1, Rh1, right K held, f1 and g1 empty;
    Black: Rf8, Ka8; White to move) the checker accepts e1g1 as castling,
    although the black rook reaches f1, the square the king passes through:
    asked with Black on turn, the oracle reports f1 attacked. *)
Theorem castling_through_check_accepted :
  isLegalMoveWithState 3 e1 g1 (Some "K"%char) None castleThroughW
    = Some (Legal false true None, castleThroughW)
  /\ crK (castlingRights castleThroughW) = true
  /\ board castleThroughB = board castleThroughW
  /\ kindCheck (isLegalMoveWithState 2) "r"%char black f8 f1 None None castleThroughW
     = Some (Legal false false None, castleThroughW)
  /\ isSquareAttacked 3 f1 white castleThroughB = Some (true, castleThroughB).
Proof. repeat split; vm_compute; reflexivity. Qed.

(** [checkGameEndEarly] never announces a checkmate: when it ends the game,
    the reason is 'Stalemate'. *)
Lemma checkGameEndEarly_reason fuel st st' :
  checkGameEndEarly fuel st = Some (true, st') ->
  reason <$> gameResult st' = Some "Stalemate".
Proof.
  unfold checkGameEndEarly. intros H.
  apply bind_Some in H as (player & st0 & H0 & H).
  apply gets_Some in H0 as [-> ->].
  apply bind_Some in H as (moves & st1 & Hgen & H).
  apply (generate_state _ (isLegalMoveWithState_state fuel) _ (Some true)) in Hgen as ->.
  apply bind_Some in H as (inCheck & st2 & Hchk & H).
  pose proof (isKingInCheck_state _ (isLegalMoveWithState_state fuel) _ _ _ _ Hchk) as ->.
  apply isKingInCheck_mover in Hchk as ->; [|done].
  destruct (negb (0 <? length moves)%nat).
  - apply bind_Some in H as ([] & st3 & Hend & H).
    apply ret_Some in H as [_ ->].
    unfold endGame in Hend. by injection Hend as <-.
  - by apply ret_Some in H as [[=] _].
Qed.

(** C4. At [boxedKing] White has just moved and it is Black's turn to
    begin. [endPlayerTurn] ends the game there with 'Stalemate', without ever
    passing the turn: the no-moves test ran for White, the side that had
    just moved, while Black, whose turn begins, has nine moves available;
    and the white king it found without moves stands attacked by the knight
    on c7 (as the oracle reports once Black is on turn), which the test's
    own rule would call 'Checkmate'. *)
Theorem game_end_tested_for_mover :
  exists st',
    endPlayerTurn 3 boxedKing = Some (true, st')
    /\ reason <$> gameResult st' = Some "Stalemate"
    /\ currentPlayer st' = white
    /\ exists next moves,
         switchTurn boxedKing = Some (tt, next)
         /\ generateAllLegalMoves 3 black next = Some (moves, next)
         /\ length moves = 9%nat
         /\ isKingInCheck 3 white next = Some (true, next).
Proof.
  eexists. split; [vm_compute; reflexivity|].
  split; [reflexivity|]. split; [reflexivity|].
  eexists _, _. split; [vm_compute; reflexivity|].
  split; [vm_compute; reflexivity|]. split; vm_compute; reflexivity.
Qed.

(** After Ra1-a8 every move the enumerator offers Black leaves the black
    king attacked, and the game goes on: no end is declared. *)
Lemma back_rank_mate_goes_unnoticed :
  exists next moves,
    endPlayerTurn 3 backRankMate = Some (false, next)
    /\ currentPlayer next = black
    /\ generateAllLegalMoves 3 black next = Some (moves, next)
    /\ length moves = 8%nat
    /\ Forall (fun m => leavesKingAttacked 3 next m = Some true) moves.
Proof.
  eexists _, _. split; [vm_compute; reflexivity|]. split; [reflexivity|].
  split; [vm_compute; reflexivity|]. split; [reflexivity|].
  repeat (constructor; [vm_compute; reflexivity|]). constructor.
Qed.

(** ** Scenarios of the specification, run *)

(** From the start position e2e4 is accepted; applying it and ending the
    turn gives the expected FEN with target e3. *)
Example scenario_e2e4 :
  isLegalMoveWithState 2 e2 e4 (Some "P"%char) None startPosition
    = Some (Legal false false None, startPosition)
  /\ exists st1 st2,
       applyMoveToState (mkMove e2 e4 (Some "P"%char) None None false false) false
         startPosition = Some st1
       /\ enPassantTarget st1 = "e3"
       /\ endPlayerTurn 3 st1 = Some (false, st2)
       /\ currentFEN st2
          = "rnbqkbnr/pppppppp/8/8/4P3/8/PPPP1PPP/RNBQKBNR b KQkq e3 0 1".
Proof.
  split; [vm_compute; reflexivity|].
  eexists _, _. split; [vm_compute; reflexivity|]. split; [reflexivity|].
  split; vm_compute; reflexivity.
Qed.

(** Short castling with f1 and g1 empty: the king lands on g1, the rook on
    f1, and both white rights are cleared. *)
Example scenario_castle_short :
  isLegalMoveWithState 2 e1 g1 (Some "K"%char) None castleShort
    = Some (Legal false true None, castleShort)
  /\ exists st1,
       applyMoveToState (mkMove e1 g1 (Some "K"%char) None None false true) false
         castleShort = Some st1
       /\ readSq (board st1) (rank g1) (file g1) = Some (Some "K"%char)
       /\ readSq (board st1) (rank f1) (file f1) = Some (Some "R"%char)
       /\ readSq (board st1) (rank e1) (file e1) = Some None
       /\ readSq (board st1) (rank h1) (file h1) = Some None
       /\ castlingRights st1 = mkCR false false true true.
Proof.
  split; [vm_compute; reflexivity|].
  eexists. split; [vm_compute; reflexivity|]. repeat split.
Qed.

Example scenario_not_a_fen : validateFEN "not a fen" = false.
Proof. reflexivity. Qed.

(** ** C6: what [validateFEN] accepts *)

Lemma rowCount_spec row n :
  rowCount row n
  = if forallb (fun c => isDigit c || isPieceLetter c) (list_ascii_of_string row)
    then Some (n + rowWidth row) else None.
Proof.
  revert n. induction row as [|c row IH]; intros n; simpl.
  - f_equal. lia.
  - unfold squaresOf, isPieceLetter. destruct (isDigit c); simpl.
    + rewrite IH. destruct (forallb _ _); [f_equal; lia|done].
    + destruct (chr_in c "prnbqkPRNBQK"); simpl; [|done].
      rewrite IH. destruct (forallb _ _); [f_equal; lia|done].
Qed.

Lemma forallb_rowChars ok s :
  forallb ok (list_ascii_of_string s) = true <-> rowChars ok s.
Proof.
  unfold rowChars. rewrite forallb_forall, Forall_forall.
  split; intros H x Hx; apply H; by apply list_elem_of_In.
Qed.

Lemma rowOK_spec row :
  rowOK row = true
  <-> rowChars (fun c => isDigit c || isPieceLetter c) row /\ rowWidth row = 8.
Proof.
  unfold rowOK. rewrite rowCount_spec, <- forallb_rowChars.
  destruct (forallb _ _); simpl.
  - rewrite Z.eqb_eq. intuition.
  - intuition congruence.
Qed.

Lemma re_side_spec s : re_side s = true <-> s = "w" \/ s = "b".
Proof.
  destruct s as [|c [|c' s]]; simpl.
  - intuition congruence.
  - rewrite chr_in_In. simpl. intuition congruence.
  - intuition congruence.
Qed.

Lemma optChar_split c s :
  exists b : bool, s = (if b then String c "" else "") +:+ optChar c s.
Proof.
  destruct s as [|c' s]; [by exists false|]. simpl.
  destruct (Ascii.eqb c' c) eqn:Heq.
  - apply Ascii.eqb_eq in Heq as ->. by exists true.
  - by exists false.
Qed.

Lemma re_castling_spec s :
  re_castling s = true
  <-> s = "-" \/ exists bK bQ bk bq, s = castlingLetters bK bQ bk bq.
Proof.
  unfold re_castling. rewrite orb_true_iff, !String.eqb_eq. split.
  - intros [->|Hend]; [by left|right].
    destruct (optChar_split "K" s) as [bK HK].
    destruct (optChar_split "Q" (optChar "K" s)) as [bQ HQ].
    destruct (optChar_split "k" (optChar "Q" (optChar "K" s))) as [bk Hk].
    destruct (optChar_split "q" (optChar "k" (optChar "Q" (optChar "K" s)))) as [bq Hq].
    rewrite Hend in Hq. exists bK, bQ, bk, bq.
    rewrite HK, HQ, Hk, Hq. by destruct bK, bQ, bk, bq.
  - intros [->|(bK & bQ & bk & bq & ->)]; [by left|right].
    by destruct bK, bQ, bk, bq.
Qed.

Lemma re_ep_spec s :
  negb (re_ep_square s) && negb (re_ep_file s) = false
  <-> s = "-"
      \/ exists c0, isFileLetter c0 = true
           /\ (s = String c0 "" \/ s = String c0 "3" \/ s = String c0 "6").
Proof.
  rewrite <- negb_orb, negb_false_iff, orb_true_iff.
  unfold re_ep_square, re_ep_file, isFileLetter.
  rewrite !orb_true_iff, !String.eqb_eq. split.
  - intros [[->|H]|[->|H]]; try (by left); right.
    + destruct s as [|c0 [|c1 [|c2 s]]]; try done.
      apply andb_true_iff in H as [H0 H1]. exists c0. split; [done|].
      apply chr_in_In in H1. simpl in H1. right.
      destruct H1 as [<-|[<-|[]]]; auto.
    + destruct s as [|c0 [|c1 s]]; try done. exists c0. auto.
  - intros [->|(c0 & H0 & [->|[->| ->]])]; [by left; left|..].
    + right. by right.
    + left. right. by rewrite H0.
    + left. right. by rewrite H0.
Qed.

Lemma badClock_spec x : badClock x = false <-> clockFieldOK x.
Proof.
  destruct x as [s|]; simpl; [|done]. unfold re_digits.
  rewrite <- forallb_rowChars.
  destruct (String.eqb_spec s ""); simpl.
  - intuition.
  - rewrite negb_false_iff. intuition.
Qed.

(** [validateFEN] as one conjunction of its tests. *)
Lemma validateFEN_unfold fen :
  validateFEN fen
  = let parts := split " " fen in
    negb (String.eqb fen "")
    && (4 <=? length parts)%nat
    && (length (split "/" (default "" (parts !! 0%nat))) =? 8)%nat
    && forallb rowOK (split "/" (default "" (parts !! 0%nat)))
    && re_side (default "" (parts !! 1%nat))
    && re_castling (default "" (parts !! 2%nat))
    && negb (negb (re_ep_square (default "" (parts !! 3%nat)))
             && negb (re_ep_file (default "" (parts !! 3%nat))))
    && negb (badClock (parts !! 4%nat))
    && negb (badClock (parts !! 5%nat)).
Proof.
  unfold validateFEN. cbv zeta. rewrite Nat.ltb_antisym.
  repeat match goal with
  | |- (if negb ?a && negb ?b then _ else _) = _ =>
      destruct a, b; cbn [negb andb]; try reflexivity
  | |- (if negb ?b then _ else _) = _ => destruct b; cbn [negb andb]; try reflexivity
  | |- (if ?b then _ else _) = _ => destruct b; cbn [negb andb]; try reflexivity
  end.
Qed.

Lemma validateFEN_accepted fen : validateFEN fen = true <-> acceptedFEN fen.
Proof.
  rewrite validateFEN_unfold. unfold acceptedFEN. cbv zeta.
  rewrite !andb_true_iff, !negb_true_iff.
  rewrite re_ep_spec, !badClock_spec, re_castling_spec, re_side_spec.
  rewrite Nat.leb_le, Nat.eqb_eq.
  rewrite forallb_forall, Forall_forall.
  assert (String.eqb fen "" = false <-> fen <> "") as ->
    by (destruct (String.eqb_spec fen ""); intuition congruence).
  split.
  - intros ((((((((? & ?) & ?) & Hrows) & ?) & ?) & ?) & ?) & ?).
    split_and!; try done.
    intros row Hrow%list_elem_of_In. by apply rowOK_spec, Hrows.
  - intros (? & ? & ? & Hrows & ? & ? & ? & ? & ?).
    split_and!; try done.
    intros row Hrow%list_elem_of_In. by apply rowOK_spec, Hrows.
Qed.

Lemma isDigit18_isDigit c : isDigit18 c = true -> isDigit c = true.
Proof.
  unfold isDigit18, isDigit. cbv zeta.
  rewrite !andb_true_iff, !N.leb_le. lia.
Qed.

Lemma strictFEN_accepted fen : strictFEN fen -> acceptedFEN fen.
Proof.
  unfold strictFEN, acceptedFEN. cbv zeta.
  intros (Hlen & Hrows & Hrow & Hside & Hcas & Hep & Hh & Hf).
  split_and!; try done.
  - intros ->. simpl in Hlen. lia.
  - eapply Forall_impl; [exact Hrow|]. intros row [Hchars Hwidth]. split; [|done].
    unfold rowChars in *. eapply Forall_impl; [exact Hchars|]. intros c.
    simpl. rewrite !orb_true_iff. intros [?%isDigit18_isDigit|?]; auto.
  - destruct Hcas as [?|(bK & bQ & bk & bq & ? & _)]; [by left|right; eauto].
  - destruct Hep as [?|(c0 & ? & [?|?])]; [by left|right; eauto..].
Qed.

(** C6 (amended). A string that [validateFEN] accepts is non-empty, has at
    least four space-separated fields, a placement of exactly 8 rows made of
    piece letters and digits with 8 squares each, side "w" or "b", a castling
    field that is '-' or letters of KQkq in that fixed order without
    repetition, an en-passant field that is '-' or starts with a file letter
    a-h followed by nothing, 3 or 6, and clock fields that are absent, empty
    or all digits; conversely every FEN that is well formed in the strict
    sense (digits 1-8, castling '-' or a non-empty ordered subset of KQkq,
    en passant '-' or a square on rank 3 or 6) is accepted. *)
Theorem validateFEN_characterised fen :
  (validateFEN fen = true -> acceptedFEN fen)
  /\ (strictFEN fen -> validateFEN fen = true).
Proof.
  split.
  - apply validateFEN_accepted.
  - intros H. by apply validateFEN_accepted, strictFEN_accepted.
Qed.

(** The claim as the specification words it fails in both directions: a
    castling field with the letters out of order is none of the listed
    malformations and is rejected; a placement digit 0 is outside 1-8 and is
    accepted. *)
Lemma validateFEN_not_the_listed_malformations :
  ~ (forall fen, validateFEN fen = false <-> spec_malformed fen = true).
Proof.
  intros H.
  pose proof (H "8/8/8/8/8/8/8/8 w qK - 0 1") as [H1 _].
  vm_compute in H1. by specialize (H1 eq_refl).
Qed.

Lemma validateFEN_accepts_digit_zero :
  validateFEN "08/8/8/8/8/8/8/8 w - - 0 1" = true
  /\ spec_malformed "08/8/8/8/8/8/8/8 w - - 0 1" = true.
Proof. split; vm_compute; reflexivity. Qed.

Lemma validateFEN_characterised_witness :
  strictFEN "rnbqkbnr/pppppppp/8/8/8/8/PPPPPPPP/RNBQKBNR w KQkq - 0 1"
  /\ validateFEN "rnbqkbnr/pppppppp/8/8/8/8/PPPPPPPP/RNBQKBNR w KQkq - 0 1" = true.
Proof.
  assert (strictFEN "rnbqkbnr/pppppppp/8/8/8/8/PPPPPPPP/RNBQKBNR w KQkq - 0 1") as Hs.
  { unfold strictFEN. cbv zeta. split_and!.
    - vm_compute. lia.
    - reflexivity.
    - match goal with
      | |- Forall _ ?l => let l' := eval vm_compute in l in change l with l'
      end.
      repeat (constructor;
              [split; [apply forallb_rowChars|]; vm_compute; reflexivity|]).
      constructor.
    - by left.
    - right. by exists true, true, true, true.
    - by left.
    - right. apply forallb_rowChars. reflexivity.
    - right. apply forallb_rowChars. reflexivity. }
  split; [exact Hs|].
  exact (proj2 (validateFEN_characterised
                  "rnbqkbnr/pppppppp/8/8/8/8/PPPPPPPP/RNBQKBNR w KQkq - 0 1") Hs).
Defined.

(** ** C5: FEN round trip *)

(** *** Splitting what was joined *)

Lemma chr_in_cons c c' s : chr_in c (String c' s) = Ascii.eqb c c' || chr_in c s.
Proof. reflexivity. Qed.

Lemma chr_in_app c a b : chr_in c (a +:+ b) = chr_in c a || chr_in c b.
Proof.
  induction a as [|c' a IH]; [done|].
  change (String c' a +:+ b) with (String c' (a +:+ b)).
  rewrite !chr_in_cons, IH. by rewrite orb_assoc.
Qed.

Lemma split_app_sep sep a b :
  chr_in sep a = false -> split sep (a +:+ String sep b) = a :: split sep b.
Proof.
  induction a as [|c a IH]; intros Ha.
  - simpl. by rewrite Ascii.eqb_refl.
  - rewrite chr_in_cons in Ha. apply orb_false_iff in Ha as [Hc Ha].
    change (String c a +:+ String sep b) with (String c (a +:+ String sep b)).
    simpl. rewrite Ascii.eqb_sym, Hc, (IH Ha). done.
Qed.

Lemma split_nosep sep a : chr_in sep a = false -> split sep a = [a].
Proof.
  induction a as [|c a IH]; intros Ha; [done|].
  rewrite chr_in_cons in Ha. apply orb_false_iff in Ha as [Hc Ha].
  simpl. rewrite Ascii.eqb_sym, Hc, (IH Ha). done.
Qed.

Lemma split_parts_nosep sep s x : x ∈ split sep s -> chr_in sep x = false.
Proof.
  revert x. induction s as [|c s IH]; intros x Hx; simpl in Hx.
  - apply list_elem_of_singleton in Hx as ->. done.
  - destruct (Ascii.eqb c sep) eqn:Hc.
    + apply elem_of_cons in Hx as [->|Hx]; [done|by apply IH].
    + destruct (split sep s) as [|h t] eqn:Hs.
      * apply list_elem_of_singleton in Hx as ->.
        rewrite chr_in_cons, Ascii.eqb_sym, Hc. done.
      * apply elem_of_cons in Hx as [->|Hx].
        -- rewrite chr_in_cons, Ascii.eqb_sym, Hc. simpl. apply IH. by left.
        -- apply IH. by right.
Qed.

Lemma split_join sep rows :
  rows <> [] -> Forall (fun r => chr_in sep r = false) rows ->
  split sep (join (String sep "") rows) = rows.
Proof.
  induction rows as [|x rows IH]; [done|]. intros _ Hall.
  apply Forall_cons in Hall as [Hx Hall].
  destruct rows as [|y rows].
  - simpl. by apply split_nosep.
  - change (join (String sep "") (x :: y :: rows))
      with (x +:+ String sep (join (String sep "") (y :: rows))).
    rewrite split_app_sep by done. f_equal. by apply IH.
Qed.

(** *** Decimal text and [parseInt] *)

Lemma digitChar_digit d :
  0 <= d <= 9 -> isDigit (digitChar d) = true /\ digitVal (digitChar d) = d.
Proof.
  intros Hd.
  assert (d = 0 \/ d = 1 \/ d = 2 \/ d = 3 \/ d = 4 \/ d = 5 \/ d = 6 \/ d = 7
          \/ d = 8 \/ d = 9) as Hcases by lia.
  decompose [or] Hcases; subst; by vm_compute.
Qed.

Lemma mod10_digit n : 0 <= n `mod` 10 <= 9.
Proof. pose proof (Z.mod_pos_bound n 10). lia. Qed.

Lemma digitsOf_chars k n acc :
  0 <= n -> rowChars isDigit acc -> rowChars isDigit (digitsOf k n acc).
Proof.
  revert n acc. induction k as [|k IH]; intros n acc Hn Hacc; simpl.
  - constructor; [|done]. apply digitChar_digit, mod10_digit.
  - assert (rowChars isDigit (String (digitChar (n `mod` 10)) acc)) as Hacc'.
    { constructor; [|done]. apply digitChar_digit, mod10_digit. }
    destruct (n `div` 10 =? 0); [done|]. apply IH; [|done].
    apply Z.div_pos; lia.
Qed.

Lemma digitsOf_head k n acc :
  0 <= n -> exists c r, digitsOf k n acc = String c r /\ isDigit c = true.
Proof.
  revert n acc. induction k as [|k IH]; intros n acc Hn; simpl.
  - eexists _, _. split; [done|]. apply digitChar_digit, mod10_digit.
  - destruct (n `div` 10 =? 0).
    + eexists _, _. split; [done|]. apply digitChar_digit, mod10_digit.
    + apply IH. apply Z.div_pos; lia.
Qed.

Lemma parseDigits_digitsOf k n acc a :
  0 <= n < 10 ^ (Z.of_nat k + 1) -> default 0 a = 0 ->
  parseDigits (digitsOf k n acc) a = parseDigits acc (Some n).
Proof.
  revert n acc a. induction k as [|k IH]; intros n acc a Hn Ha.
  - simpl in *. destruct (digitChar_digit (n `mod` 10) (mod10_digit n)) as [-> ->].
    rewrite Ha. do 2 f_equal. rewrite Z.mod_small; lia.
  - cbn [digitsOf]. pose proof (Z.div_mod n 10 ltac:(lia)) as Hdm.
    destruct (Z.eqb_spec (n `div` 10) 0) as [Hz|Hnz].
    + cbn [parseDigits].
      destruct (digitChar_digit (n `mod` 10) (mod10_digit n)) as [-> ->].
      rewrite Ha. do 2 f_equal. lia.
    + rewrite (IH _ _ a); [|split|done].
      * cbn [parseDigits].
        destruct (digitChar_digit (n `mod` 10) (mod10_digit n)) as [-> ->].
        change (default 0 (Some (n `div` 10))) with (n `div` 10).
        do 2 f_equal. lia.
      * apply Z.div_pos; lia.
      * apply Z.div_lt_upper_bound; [lia|].
        replace (Z.of_nat (S k) + 1) with (Z.succ (Z.of_nat k + 1)) in Hn by lia.
        rewrite Z.pow_succ_r in Hn by lia. lia.
Qed.

Lemma digit_not_sign c :
  isDigit c = true ->
  isWhiteSpace c = false /\ c <> "-"%char /\ c <> "+"%char.
Proof.
  unfold isDigit, isWhiteSpace. cbv zeta. intros H.
  apply andb_true_iff in H as [H1%N.leb_le H2%N.leb_le].
  split_and!.
  - apply orb_false_iff; split; [apply orb_false_iff; split|].
    + apply andb_false_iff. right. apply N.leb_gt. lia.
    + apply N.eqb_neq. lia.
    + apply N.eqb_neq. lia.
  - intros ->. vm_compute in H2. done.
  - intros ->. vm_compute in H1. done.
Qed.

Lemma parseInt_digits c r :
  isDigit c = true ->
  parseInt (String c r)
  = match parseDigits (String c r) None with Some z => Int z | None => NaN end.
Proof.
  intros Hc. destruct (digit_not_sign c Hc) as (Hws & Hminus & Hplus).
  unfold parseInt. cbn [skipWhiteSpace]. rewrite Hws.
  destruct c as [[] [] [] [] [] [] [] []]; try reflexivity; congruence.
Qed.

Lemma numberToString_nonneg z :
  0 <= z ->
  numberToString z <> "" /\ rowChars isDigit (numberToString z)
  /\ parseInt (numberToString z) = Int z.
Proof.
  intros Hz. unfold numberToString.
  destruct (Z.ltb_spec z 0) as [|_]; [lia|].
  destruct (digitsOf_head (Z.to_nat (Z.log2 z)) z "" Hz) as (c & r & Heq & Hc).
  split_and!.
  - by rewrite Heq.
  - apply digitsOf_chars; [done|constructor].
  - rewrite Heq, (parseInt_digits c r Hc), <- Heq.
    rewrite parseDigits_digitsOf; [done| |done].
    split; [done|]. rewrite Z2Nat.id by apply Z.log2_nonneg.
    destruct (decide (z = 0)) as [->|Hpos]; [done|].
    pose proof (Z.log2_spec z ltac:(lia)) as [_ Hlt].
    eapply Z.lt_le_trans; [exact Hlt|].
    rewrite <- Z.add_1_r.
    apply Z.pow_le_mono_l. pose proof (Z.log2_nonneg z). lia.
Qed.

(** *** Rows *)

Lemma string_app_cons x (a b : string) : String x a +:+ b = String x (a +:+ b).
Proof. reflexivity. Qed.

Lemma string_app_assoc (a b c : string) : (a +:+ b) +:+ c = a +:+ (b +:+ c).
Proof. induction a as [|x a IH]; [done|]. by rewrite !string_app_cons, IH. Qed.

Lemma string_app_nil_r (a : string) : a +:+ "" = a.
Proof. induction a as [|x a IH]; [done|]. by rewrite string_app_cons, IH. Qed.

Lemma rowToFen_acc row acc e : rowToFen row acc e = acc +:+ rowToFen row "" e.
Proof.
  revert acc e. induction row as [|[p|] row IH]; intros acc e; cbn [rowToFen].
  - destruct (0 <? e); [done|by rewrite string_app_nil_r].
  - rewrite IH. rewrite (IH (_ +:+ String p "")).
    destruct (0 <? e); rewrite ?string_app_assoc; reflexivity.
  - apply IH.
Qed.

Lemma pieceLetter_not_digit p : isPieceLetter p = true -> isDigit p = false.
Proof.
  unfold isPieceLetter. rewrite chr_in_In. simpl.
  intros H. decompose [or] H; subst; done.
Qed.


(** The run-length digit, when there is one, advances the file. *)
Lemma parseRow_skip e s rank f b :
  0 <= e <= 9 ->
  parseRow ((if 0 <? e then "" +:+ numberToString e else "") +:+ s) rank f b
  = parseRow s rank (f + e) b.
Proof.
  intros He. destruct (Z.ltb_spec 0 e) as [Hpos|Hz].
  - rewrite numberToString_digit by done. simpl.
    destruct (digitChar_digit e He) as [-> ->]. done.
  - simpl. do 2 f_equal. lia.
Qed.

Lemma parseRow_rowToFen cells : forall e f b cur rank,
  0 <= rank -> b !! Z.to_nat rank = Some cur -> length cur = 8%nat ->
  Forall wfCell cells -> 0 <= e -> 0 <= f ->
  f + e + Z.of_nat (length cells) = 8 ->
  (forall j, (Z.to_nat f <= j < 8)%nat -> cur !! j = Some None) ->
  parseRow (rowToFen cells "" e) rank f b
  = Some (<[Z.to_nat rank := (take (Z.to_nat (f + e)) cur ++ cells)%list]> b).
Proof.
  induction cells as [|[p|] cells IH]; intros e f b cur rank Hrank Hcur Hlen Hwf He Hf Hsum Hnone.
  - simpl in Hsum. rewrite take_ge by lia. rewrite app_nil_r.
    rewrite (list_insert_id _ _ _ Hcur).
    change (rowToFen [] "" e)
      with (if 0 <? e then "" +:+ numberToString e else "").
    rewrite <- (string_app_nil_r (if 0 <? e then _ else _)).
    rewrite parseRow_skip by lia. done.
  - apply Forall_cons in Hwf as [Hp Hwf]. simpl in Hp.
    cbn [length] in Hsum.
    change (rowToFen (Some p :: cells) "" e)
      with (rowToFen cells
              ((if 0 <? e then "" +:+ numberToString e else "") +:+ String p "") 0).
    rewrite rowToFen_acc, string_app_assoc, parseRow_skip by lia.
    rewrite string_app_cons. change ("" +:+ rowToFen cells "" 0) with (rowToFen cells "" 0).
    cbn [parseRow]. rewrite (pieceLetter_not_digit p Hp).
    unfold writeSq. destruct (decide (0 <= rank /\ 0 <= f + e)); [|lia].
    rewrite Hcur. cbn [mbind option_bind].
    unfold setElem. destruct (decide (Z.to_nat (f + e) < length cur)%nat); [|lia].
    rewrite (IH 0 (f + e + 1) _ (<[Z.to_nat (f + e) := Some p]> cur) rank);
      try done; try lia.
    + rewrite list_insert_insert_eq.
      replace (Z.to_nat (f + e + 1 + 0)) with (S (Z.to_nat (f + e))) by lia.
      rewrite (take_S_r _ _ (Some p)) by (apply list_lookup_insert_eq; lia).
      rewrite take_insert_ge by lia. by rewrite <- app_assoc.
    + apply list_lookup_insert_eq. by eapply lookup_lt_Some.
    + by rewrite length_insert.
    + intros j Hj. rewrite list_lookup_insert_ne by lia. apply Hnone. lia.
  - apply Forall_cons in Hwf as [_ Hwf]. cbn [length] in Hsum.
    change (rowToFen (None :: cells) "" e) with (rowToFen cells "" (e + 1)).
    rewrite (IH (e + 1) f b cur rank); try done; try lia.
    replace (Z.to_nat (f + (e + 1))) with (S (Z.to_nat (f + e))) by lia.
    rewrite (take_S_r _ _ None) by (apply Hnone; lia).
    by rewrite <- app_assoc.
Qed.

Lemma rowToFen_chars cells acc e :
  Forall wfCell cells -> 0 <= e ->
  rowChars (fun c => isDigit c || isPieceLetter c) acc ->
  rowChars (fun c => isDigit c || isPieceLetter c) (rowToFen cells acc e).
Proof.
  assert (forall acc e, 0 <= e ->
    rowChars (fun c => isDigit c || isPieceLetter c) acc ->
    rowChars (fun c => isDigit c || isPieceLetter c)
      (if 0 <? e then acc +:+ numberToString e else acc)) as Hflush.
  { clear. intros acc e He Hacc. destruct (0 <? e); [|done].
    apply forallb_rowChars. apply forallb_rowChars in Hacc.
    destruct (numberToString_nonneg e He) as (_ & Hd%forallb_rowChars & _).
    revert Hacc. clear -Hd. induction acc as [|c acc IH]; simpl.
    - intros _. revert Hd. generalize (numberToString e). clear.
      induction s as [|c s IH]; simpl; [done|].
      intros [-> H]%andb_true_iff. simpl. by apply IH.
    - intros [-> H]%andb_true_iff. simpl. by apply IH. }
  revert acc e. induction cells as [|[p|] cells IH]; intros acc e Hwf He Hacc; simpl.
  - by apply Hflush.
  - apply Forall_cons in Hwf as [Hp Hwf]. simpl in Hp.
    apply IH; [done|lia|].
    apply forallb_rowChars.
    specialize (Hflush acc e He Hacc). apply forallb_rowChars in Hflush.
    revert Hflush. generalize (if 0 <? e then acc +:+ numberToString e else acc).
    induction s as [|c s IHs]; simpl.
    + intros _. by rewrite Hp, orb_true_r.
    + intros [-> H]%andb_true_iff. simpl. by apply IHs.
  - apply Forall_cons in Hwf as [_ Hwf]. apply IH; [done|lia|done].
Qed.

Lemma placementChar_not_sep c :
  isDigit c || isPieceLetter c = true ->
  Ascii.eqb "/" c = false /\ Ascii.eqb " " c = false.
Proof.
  intros H. split; apply Ascii.eqb_neq; intros <-; by vm_compute in H.
Qed.

Lemma rowChars_no_sep row :
  rowChars (fun c => isDigit c || isPieceLetter c) row ->
  chr_in "/" row = false /\ chr_in " " row = false.
Proof.
  unfold rowChars. induction row as [|c row IH]; [done|].
  simpl. intros [Hc Hrow]%Forall_cons. rewrite !chr_in_cons.
  destruct (placementChar_not_sep c Hc) as [-> ->].
  by apply IH.
Qed.

(** *** Boards *)

Lemma lookup_map {A B} (f : A -> B) (l : list A) (i : nat) :
  map f l !! i = f <$> l !! i.
Proof.
  revert i. induction l as [|x l IH]; intros [|i]; simpl; done.
Qed.

Lemma parseRows_enc (todo : list (list Cell)) : forall finished : list (list Cell),
  Forall wfRow todo ->
  parseRows (map Z.of_nat (seq (length finished) (length todo)))
    (map (fun row => rowToFen row "" 0) (finished ++ todo))
    (finished ++ replicate (length todo) (replicate 8 None))
  = Some (finished ++ todo).
Proof.
  set (emptyRow := replicate 8 (@None ascii)).
  induction todo as [|r todo IH]; intros finished Hwf.
  - simpl. by rewrite !app_nil_r.
  - apply Forall_cons in Hwf as [[Hlen Hcells] Hwf].
    cbn [length seq map parseRows replicate].
    rewrite Nat2Z.id, lookup_map, lookup_app_r by lia.
    rewrite Nat.sub_diag.
    cbn [lookup list_lookup fmap option_fmap option_map mbind option_bind].
    assert (parseRow (rowToFen r "" 0) (Z.of_nat (length finished)) 0
              (finished ++ emptyRow :: replicate (length todo) emptyRow)
            = Some ((finished ++ [r]) ++ replicate (length todo) emptyRow))
      as ->.
    { rewrite (parseRow_rowToFen r 0 0 _ emptyRow).
      - rewrite Nat2Z.id.
        change (take (Z.to_nat (0 + 0)) emptyRow ++ r) with r.
        rewrite <- app_assoc. cbn [app].
        replace (length finished) with (length finished + 0)%nat at 1 by lia.
        by rewrite insert_app_r.
      - lia.
      - rewrite Nat2Z.id, lookup_app_r by lia. by rewrite Nat.sub_diag.
      - done.
      - done.
      - lia.
      - lia.
      - lia.
      - intros j Hj. apply lookup_replicate_2. lia. }
    cbn [mbind option_bind].
    specialize (IH (finished ++ [r]) Hwf).
    rewrite length_app in IH. cbn [length] in IH.
    replace (length finished + 1)%nat with (S (length finished)) in IH by lia.
    rewrite <- (app_assoc finished [r] todo) in IH. exact IH.
Qed.

Lemma chr_in_join c sep rows :
  chr_in c sep = false -> Forall (fun r => chr_in c r = false) rows ->
  chr_in c (join sep rows) = false.
Proof.
  intros Hsep. induction rows as [|x rows IH]; [done|].
  intros [Hx Hrows]%Forall_cons. destruct rows as [|y rows]; [done|].
  change (join sep (x :: y :: rows)) with (x +:+ sep +:+ join sep (y :: rows)).
  rewrite !chr_in_app, Hx, Hsep. by apply IH.
Qed.

Lemma encoded_rows_no_sep (b : Board) :
  Forall wfRow b ->
  Forall (fun r => chr_in "/" r = false /\ chr_in " " r = false)
    (map (fun row => rowToFen row "" 0) b).
Proof.
  induction b as [|row b IH]; [constructor|].
  intros [[_ Hrow] Hb]%Forall_cons. simpl. constructor; [|by apply IH].
  apply rowChars_no_sep, rowToFen_chars; [done|lia|constructor].
Qed.

Lemma parseFENPlacement_boardToPlacement b :
  wfBoard b -> parseFENPlacement (boardToPlacement b) = Some b.
Proof.
  intros [Hlen Hrows]. unfold parseFENPlacement, boardToPlacement.
  rewrite split_join.
  - pose proof (parseRows_enc b [] Hrows) as H. rewrite Hlen in H. exact H.
  - destruct b; [done|]. done.
  - eapply Forall_impl; [apply (encoded_rows_no_sep b Hrows)|]. by intros r [? _].
Qed.

(** *** Positions *)

Lemma split_app_sep' sep a b :
  chr_in sep a = false ->
  split sep (a +:+ String sep "" +:+ b) = a :: split sep b.
Proof. apply split_app_sep. Qed.

Lemma digits_no_space s : rowChars isDigit s -> chr_in " " s = false.
Proof.
  unfold rowChars. induction s as [|c s IH]; [done|].
  simpl. intros [Hc Hs]%Forall_cons. rewrite chr_in_cons, (IH Hs).
  destruct (digit_not_sign c Hc) as (Hws & _).
  rewrite orb_false_r. apply Ascii.eqb_neq. intros <-. by vm_compute in Hws.
Qed.

Lemma clock_text lo n :
  0 <= lo -> clockIn lo n ->
  exists z, n = Int z /\ Z.max lo (toInt32 n) = z /\ 0 <= z.
Proof.
  intros Hlo (z & -> & Hz). exists z. split; [done|].
  unfold toInt32. rewrite Z.mod_small by lia. lia.
Qed.

Lemma split_fenOfState st :
  wfPosition st ->
  split " " (fenOfState st)
  = [ boardToPlacement (board st);
      match currentPlayer st with white => "w" | black => "b" end;
      castlingToFen (castlingRights st);
      enPassantTarget st;
      numberToString (Z.max 0 (toInt32 (halfmoveClock st)));
      numberToString (Z.max 1 (toInt32 (fullmoveNumber st))) ].
Proof.
  intros ([Hlen Hrows] & Hep & Hepsp & Hhalf & Hfull). unfold fenOfState. cbv zeta.
  destruct (clock_text 0 _ ltac:(lia) Hhalf) as (h & _ & -> & Hh).
  destruct (clock_text 1 _ ltac:(lia) Hfull) as (m & _ & -> & Hm).
  destruct (String.eqb_spec (enPassantTarget st) "") as [|_]; [done|].
  rewrite split_app_sep'.
  2:{ apply chr_in_join; [done|].
      eapply Forall_impl; [apply (encoded_rows_no_sep _ Hrows)|]. by intros r [_ ?]. }
  rewrite split_app_sep' by (by destruct (currentPlayer st)).
  rewrite split_app_sep'
    by (by destruct (castlingRights st) as [[] [] [] []]).
  rewrite split_app_sep' by done.
  rewrite split_app_sep'
    by (apply digits_no_space; by apply numberToString_nonneg).
  rewrite split_nosep
    by (apply digits_no_space; by apply numberToString_nonneg).
  done.
Qed.

(** Decoding the text of [syncFENFromState] gives back the six fields. *)
Lemma decode_encode st st0 :
  wfPosition st ->
  exists st',
    setPositionFromFEN (currentFEN (syncFENFromState st)) st0 = Some st'
    /\ samePosition st' st.
Proof.
  intros Hwf. change (currentFEN (syncFENFromState st)) with (fenOfState st).
  unfold setPositionFromFEN. rewrite (split_fenOfState st Hwf).
  destruct Hwf as (Hb & Hep & _ & Hhalf & Hfull).
  cbn [lookup list_lookup mbind option_bind].
  rewrite (parseFENPlacement_boardToPlacement _ Hb). cbn [mbind option_bind].
  eexists. split; [reflexivity|].
  destruct (clock_text 0 _ ltac:(lia) Hhalf) as (h & Hheq & -> & Hh).
  destruct (clock_text 1 _ ltac:(lia) Hfull) as (m & Hmeq & -> & Hm).
  destruct (numberToString_nonneg h Hh) as (Hhne & _ & Hhparse).
  destruct (numberToString_nonneg m Hm) as (Hmne & _ & Hmparse).
  unfold samePosition, orElse. cbn [board currentPlayer castlingRights enPassantTarget
    halfmoveClock fullmoveNumber].
  split_and!.
  - done.
  - by destruct (currentPlayer st).
  - by destruct (castlingRights st) as [[] [] [] []].
  - by destruct (String.eqb_spec (enPassantTarget st) "").
  - destruct (String.eqb_spec (numberToString h) ""); [done|]. congruence.
  - destruct (String.eqb_spec (numberToString m) ""); [done|]. congruence.
Qed.

(** *** Decoding an accepted FEN *)

Lemma digitVal_nonneg c : isDigit c = true -> 0 <= digitVal c.
Proof.
  unfold isDigit, digitVal. cbv zeta.
  intros [H1%N.leb_le _]%andb_true_iff. lia.
Qed.

Lemma rowWidth_nonneg row :
  rowChars (fun c => isDigit c || isPieceLetter c) row -> 0 <= rowWidth row.
Proof.
  unfold rowChars. induction row as [|c row IH]; [done|].
  simpl. intros [Hc Hrow]%Forall_cons. specialize (IH Hrow).
  unfold squaresOf. destruct (isDigit c) eqn:Hd; [|lia].
  pose proof (digitVal_nonneg c Hd). lia.
Qed.

Lemma parseRow_valid chars : forall rank f b cur,
  0 <= rank -> b !! Z.to_nat rank = Some cur -> wfRow cur ->
  rowChars (fun c => isDigit c || isPieceLetter c) chars ->
  0 <= f -> f + rowWidth chars = 8 ->
  exists cur',
    parseRow chars rank f b = Some (<[Z.to_nat rank := cur']> b) /\ wfRow cur'.
Proof.
  induction chars as [|c chars IH]; intros rank f b cur Hrank Hcur Hwf Hchars Hf Hsum.
  - exists cur. split; [|done]. simpl. by rewrite (list_insert_id _ _ _ Hcur).
  - unfold rowChars in Hchars. simpl in Hchars.
    apply Forall_cons in Hchars as [Hc Hrest].
    pose proof (rowWidth_nonneg chars Hrest) as Hw.
    cbn [rowWidth] in Hsum. unfold squaresOf in Hsum. cbn [parseRow].
    destruct (isDigit c) eqn:Hd.
    + apply (IH rank (f + digitVal c) b cur); try done; [|lia].
      pose proof (digitVal_nonneg c Hd). lia.
    + simpl in Hc. destruct Hwf as [Hlen Hcells].
      unfold writeSq. destruct (decide (0 <= rank /\ 0 <= f)); [|lia].
      rewrite Hcur. cbn [mbind option_bind].
      unfold setElem. destruct (decide (Z.to_nat f < length cur)%nat); [|lia].
      destruct (IH rank (f + 1) (<[Z.to_nat rank := <[Z.to_nat f := Some c]> cur]> b)
                  (<[Z.to_nat f := Some c]> cur)) as (cur' & Hrun & Hwf');
        try done; try lia.
      * apply list_lookup_insert_eq. by eapply lookup_lt_Some.
      * split; [by rewrite length_insert|]. by apply Forall_insert.
      * exists cur'. split; [|done]. rewrite Hrun. by rewrite list_insert_insert_eq.
Qed.

Lemma parseRows_valid ranks rows : forall b,
  wfBoard b ->
  Forall (fun rank => 0 <= rank < 8
            /\ exists row, rows !! Z.to_nat rank = Some row /\ rowOK row = true) ranks ->
  exists b', parseRows ranks rows b = Some b' /\ wfBoard b'.
Proof.
  induction ranks as [|rank ranks IH]; intros b Hb Hranks; [by exists b|].
  apply Forall_cons in Hranks as [(Hrank & row & Hrow & Hok) Hranks].
  apply rowOK_spec in Hok as [Hchars Hwidth].
  destruct Hb as [Hlen Hrows].
  destruct (lookup_lt_is_Some_2 b (Z.to_nat rank)) as [cur Hcur]; [lia|].
  destruct (parseRow_valid row rank 0 b cur) as (cur' & Hrun & Hwf');
    try done; try lia.
  { by eapply Forall_lookup_1. }
  cbn [parseRows]. rewrite Hrow. cbn [mbind option_bind]. rewrite Hrun.
  cbn [mbind option_bind]. apply IH; [|done].
  split; [by rewrite length_insert|]. by apply Forall_insert.
Qed.

Lemma createEmptyBoard_wf : wfBoard createEmptyBoard.
Proof. split; [done|]. repeat constructor. Qed.

Lemma validated_decodes fen st0 :
  validateFEN fen = true ->
  exists p,
    setPositionFromFEN fen st0 = Some p
    /\ wfBoard (board p) /\ enPassantTarget p <> ""
    /\ chr_in " " (enPassantTarget p) = false.
Proof.
  intros (_ & Hlen & Hrows & Hrow & _)%validateFEN_accepted.
  unfold setPositionFromFEN.
  pose proof (split_parts_nosep " " fen) as Hnosp.
  destruct (split " " fen) as [|p0 [|p1 [|p2 [|p3 rest]]]]; simpl in Hlen; try lia.
  cbn [lookup list_lookup mbind option_bind default from_option id] in *.
  destruct (parseRows_valid range8 (split "/" p0) createEmptyBoard createEmptyBoard_wf)
    as (b & Hb & Hwf).
  { apply Forall_forall. intros rank Hrank%elem_of_range8. split; [done|].
    destruct (lookup_lt_is_Some_2 (split "/" p0) (Z.to_nat rank)) as [row Hr]; [lia|].
    exists row. split; [done|]. apply rowOK_spec.
    by eapply (Forall_lookup_1 _ _ _ _ Hrow). }
  unfold parseFENPlacement. rewrite Hb. cbn [mbind option_bind].
  eexists. split; [reflexivity|]. cbn [board enPassantTarget].
  split; [done|]. unfold orElse.
  destruct (String.eqb_spec p3 ""); [done|]. split; [done|].
  apply Hnosp. do 3 right. by left.
Qed.

(** C5 (amended). Encoding then decoding gives back all six fields of every
    Position whose board is 8x8 over the piece letters, whose en-passant
    text is non-empty and blank-free, whose halfmove clock is an integer in
    [0, 2^31) and whose fullmove number is an integer in [1, 2^31); and
    every FEN that [validateFEN] accepts decodes to a Position which, when
    its two clocks lie in those ranges, is denoted again by the re-encoded
    text. *)
Theorem fen_round_trip :
  (forall st st0,
     wfPosition st ->
     exists st',
       setPositionFromFEN (currentFEN (syncFENFromState st)) st0 = Some st'
       /\ samePosition st' st)
  /\ (forall fen st0 st1,
        validateFEN fen = true ->
        exists p,
          setPositionFromFEN fen st0 = Some p
          /\ (clockIn 0 (halfmoveClock p) -> clockIn 1 (fullmoveNumber p) ->
              exists p',
                setPositionFromFEN (currentFEN (syncFENFromState p)) st1 = Some p'
                /\ samePosition p' p)).
Proof.
  split; [apply decode_encode|].
  intros fen st0 st1 Hvalid.
  destruct (validated_decodes fen st0 Hvalid) as (p & Hp & Hb & Hep & Hsp).
  exists p. split; [done|]. intros Hhalf Hfull.
  by apply decode_encode.
Qed.

(** The round trip as the specification states it fails: the accepted FEN
    with fullmove number 0 decodes to a Position whose re-encoding carries
    fullmove number 1. *)
Lemma fen_round_trip_clamps_fullmove :
  ~ (forall fen st0 p,
       validateFEN fen = true -> setPositionFromFEN fen st0 = Some p ->
       exists p',
         setPositionFromFEN (currentFEN (syncFENFromState p)) st0 = Some p'
         /\ samePosition p' p).
Proof.
  intros H.
  destruct (setPositionFromFEN "8/8/8/8/8/8/8/8 w - - 0 0" newGame) as [p|] eqn:Hp;
    [|by vm_compute in Hp].
  destruct (H "8/8/8/8/8/8/8/8 w - - 0 0" newGame p eq_refl Hp)
    as (p' & Hp' & _ & _ & _ & _ & _ & Hfull).
  vm_compute in Hp. injection Hp as <-.
  vm_compute in Hp'. injection Hp' as <-.
  discriminate Hfull.
Qed.

(** Nor does a fullmove number of 2^31 survive: [x | 0] wraps it to a
    negative number, which is then clamped to 1. *)
Lemma fen_round_trip_wraps_fullmove :
  exists p p',
    validateFEN "8/8/8/8/8/8/8/8 w - - 0 2147483648" = true
    /\ setPositionFromFEN "8/8/8/8/8/8/8/8 w - - 0 2147483648" newGame = Some p
    /\ fullmoveNumber p = Int 2147483648
    /\ setPositionFromFEN (currentFEN (syncFENFromState p)) newGame = Some p'
    /\ fullmoveNumber p' = Int 1.
Proof.
  eexists _, _. split; [reflexivity|]. split; [vm_compute; reflexivity|].
  split; [reflexivity|]. split; vm_compute; reflexivity.
Qed.

Lemma startPosition_wf : wfPosition startPosition.
Proof.
  unfold wfPosition. split_and!.
  - split; [reflexivity|]. vm_compute. repeat constructor.
  - done.
  - reflexivity.
  - exists 0. split; [reflexivity|lia].
  - exists 1. split; [reflexivity|lia].
Qed.

Lemma fen_round_trip_witness :
  wfPosition startPosition
  /\ exists st',
       setPositionFromFEN (currentFEN (syncFENFromState startPosition)) newGame = Some st'
       /\ samePosition st' startPosition.
Proof.
  split; [exact startPosition_wf|].
  exact (proj1 fen_round_trip startPosition newGame startPosition_wf).
Defined.

(** * Further properties of the engine and of the code around it *)

(** ** The depth of the recursion *)

Lemma refines_refl {A} (c : M A) : refines c c.
Proof. by intros st r. Qed.

Lemma refines_bind {A B} (c c' : M A) (k k' : A -> M B) :
  refines c c' -> (forall a, refines (k a) (k' a)) ->
  refines (bind c k) (bind c' k').
Proof.
  intros Hc Hk st r. unfold bind.
  destruct (c st) as [[a st1]|] eqn:Hrun; [|discriminate].
  rewrite (Hc _ _ Hrun). apply Hk.
Qed.

Lemma refines_forM {A B} (l : list A) (body body' : A -> B -> M B) :
  (forall x acc, refines (body x acc) (body' x acc)) ->
  forall acc, refines (forM l body acc) (forM l body' acc).
Proof.
  intros Hbody. induction l as [|x l IH]; intros acc; simpl.
  - apply refines_refl.
  - apply refines_bind; [apply Hbody|apply IH].
Qed.

(** Pushes [refines] through the constructs the methods are written in. *)
Ltac refines_step H :=
  lazymatch goal with
  | |- refines (bind _ _) (bind _ _) => apply refines_bind; [|intros ?]
  | |- refines (forM _ _ _) (forM _ _ _) => apply refines_forM; intros ? ?
  | |- refines (if ?b then _ else _) _ => destruct b
  | |- refines (match ?x with _ => _ end) _ => destruct x
  | |- refines ?c ?c => apply refines_refl
  | |- _ => apply H
  end.

Section FuelMonotone.

Variables rec rec' : Square -> Square -> Cell -> option ascii -> M Legality.
Hypothesis rec_refines :
  forall from to piece promo, refines (rec from to piece promo) (rec' from to piece promo).

Lemma generate_refines player opts :
  refines (generateAllPseudoLegalMoves_ rec player opts)
          (generateAllPseudoLegalMoves_ rec' player opts).
Proof.
  unfold generateAllPseudoLegalMoves_. cbv zeta. repeat refines_step rec_refines.
Qed.

Lemma isSquareAttacked_refines square color :
  refines (isSquareAttacked_ rec square color) (isSquareAttacked_ rec' square color).
Proof.
  unfold isSquareAttacked_. cbv zeta. repeat refines_step generate_refines.
Qed.

Lemma isKingInCheck_refines color :
  refines (isKingInCheck_ rec color) (isKingInCheck_ rec' color).
Proof.
  unfold isKingInCheck_. cbv zeta.
  apply refines_bind; [apply refines_refl|]. intros [sq|].
  - apply isSquareAttacked_refines.
  - apply refines_refl.
Qed.

Lemma kingCheck_refines color from to :
  refines (kingCheck rec color from to) (kingCheck rec' color from to).
Proof.
  unfold kingCheck. cbv zeta. repeat refines_step isSquareAttacked_refines.
Qed.

Lemma kindCheck_refines p color from to targetPiece promotionChar :
  refines (kindCheck rec p color from to targetPiece promotionChar)
          (kindCheck rec' p color from to targetPiece promotionChar).
Proof.
  unfold kindCheck. cbv zeta. repeat refines_step kingCheck_refines.
Qed.

Lemma simulateAndVerify_refines p color from to targetPiece flags :
  refines (simulateAndVerify rec p color from to targetPiece flags)
          (simulateAndVerify rec' p color from to targetPiece flags).
Proof.
  unfold simulateAndVerify. repeat refines_step isKingInCheck_refines.
Qed.

Lemma body_refines from to piece promotionChar :
  refines (isLegalMoveWithState_body rec from to piece promotionChar)
          (isLegalMoveWithState_body rec' from to piece promotionChar).
Proof.
  unfold isLegalMoveWithState_body. destruct piece as [p|]; [|apply refines_refl].
  destruct (_ && _); [apply refines_refl|].
  apply refines_bind; [apply refines_refl|]. intros target.
  destruct (match target with Some t => isSameColor p t | None => false end);
    [apply refines_refl|].
  apply refines_bind; [apply refines_refl|]. intros cur.
  destruct (negb _); [apply refines_refl|].
  apply refines_bind; [apply kindCheck_refines|]. intros [why|ep cas promo].
  - apply refines_refl.
  - apply simulateAndVerify_refines.
Qed.

End FuelMonotone.

Lemma isLegalMoveWithState_more_fuel fuel : forall from to piece promotionChar,
  refines (isLegalMoveWithState fuel from to piece promotionChar)
          (isLegalMoveWithState (S fuel) from to piece promotionChar).
Proof.
  induction fuel as [|n IH]; intros from to piece promotionChar.
  - intros st r. discriminate.
  - change (refines
              (isLegalMoveWithState_body (isLegalMoveWithState n) from to piece promotionChar)
              (isLegalMoveWithState_body (isLegalMoveWithState (S n)) from to piece
                 promotionChar)).
    by apply body_refines.
Qed.

Lemma isLegalMoveWithState_fuel_le fuel fuel' from to piece promotionChar :
  (fuel <= fuel')%nat ->
  refines (isLegalMoveWithState fuel from to piece promotionChar)
          (isLegalMoveWithState fuel' from to piece promotionChar).
Proof.
  induction 1 as [|m _ IH]; [apply refines_refl|].
  intros st r Hrun. by apply isLegalMoveWithState_more_fuel, IH.
Qed.

(** X1. On a board with its eight rows and for squares of the grid the checker
    returns, hands back the state it was given, and its answer is the same at
    every depth bound from two on: the recursion through [isSquareAttacked]
    never nests deeper than that. *)
Theorem checker_returns_on_the_grid from to piece promotionChar st :
  hasRanks (board st) -> onGrid from -> onGrid to ->
  exists r, forall fuel, (2 <= fuel)%nat ->
    isLegalMoveWithState fuel from to piece promotionChar st = Some (r, st).
Proof.
  intros Hb Hf Ht.
  destruct (isLegalMoveWithState_total 0 from to piece promotionChar st Hb Hf Ht)
    as [r Hr].
  exists r. intros fuel Hfuel.
  by apply (isLegalMoveWithState_fuel_le 2 fuel).
Qed.

Lemma checker_returns_on_the_grid_witness :
  exists r, forall fuel, (2 <= fuel)%nat ->
    isLegalMoveWithState fuel e2 e4 (Some "P"%char) None startPosition
      = Some (r, startPosition).
Proof.
  apply (checker_returns_on_the_grid e2 e4 (Some "P"%char) None startPosition).
  - vm_compute. lia.
  - vm_compute. repeat split; discriminate.
  - vm_compute. repeat split; discriminate.
Defined.

(** ** What the checker accepts *)

(** X2. Asked about the side on turn, the attack oracle finds nothing: the
    enumeration of the opponent's moves is empty, so [isSquareAttacked] and
    [isKingInCheck] answer [false] for every square and every board. *)
Theorem attack_oracle_blind_for_side_on_turn fuel square opts st :
  hasRanks (board st) -> (1 <= fuel)%nat ->
  generateAllPseudoLegalMoves fuel (opponent (currentPlayer st)) opts st = Some ([], st)
  /\ isSquareAttacked fuel square (currentPlayer st) st = Some (false, st)
  /\ isKingInCheck fuel (currentPlayer st) st = Some (false, st).
Proof.
  intros Hb Hfuel. destruct fuel as [|n]; [lia|]. split_and!.
  - apply generate_wrong_turn_total; [done|]. by destruct (currentPlayer st).
  - by apply isSquareAttacked_mover_total.
  - by apply isKingInCheck_mover_total.
Qed.

Lemma attack_oracle_blind_for_side_on_turn_witness :
  generateAllPseudoLegalMoves 2 (opponent (currentPlayer openFileW)) None openFileW
    = Some ([], openFileW)
  /\ isSquareAttacked 2 e1 (currentPlayer openFileW) openFileW = Some (false, openFileW)
  /\ isKingInCheck 2 (currentPlayer openFileW) openFileW = Some (false, openFileW).
Proof.
  apply (attack_oracle_blind_for_side_on_turn 2 e1 None openFileW).
  - vm_compute. lia.
  - lia.
Defined.

(** X3. Whatever the checker rejects, it rejects for one of seventeen reasons;
    the four that report an attacked king are never given. *)
Theorem rejection_reasons fuel from to piece promotionChar st why st' :
  isLegalMoveWithState fuel from to piece promotionChar st = Some (Illegal why, st') ->
  why ∈ reachableReasons /\ why ∉ attackReasons.
Proof.
  intros H. split; [by eapply isLegalMoveWithState_reasons|].
  apply attack_reasons_unreachable in H as (H1 & H2 & H3 & H4).
  unfold attackReasons. rewrite !elem_of_cons, elem_of_nil. tauto.
Qed.

Lemma rejection_reasons_witness :
  "Bad pawn move" ∈ reachableReasons /\ "Bad pawn move" ∉ attackReasons.
Proof.
  apply (rejection_reasons 2 e2 e5 (Some "P"%char) None startPosition
           "Bad pawn move" startPosition).
  vm_compute. reflexivity.
Defined.

(** An accepted move passed the four guards and the rule of its piece kind;
    the simulation that follows never changes the verdict. *)
Lemma accepted_inv fuel from to piece promotionChar st ep cas pr st' :
  isLegalMoveWithState fuel from to piece promotionChar st
    = Some (Legal ep cas pr, st') ->
  exists n p target,
    fuel = S n /\ piece = Some p /\ st' = st
    /\ (rank from =? rank to) && (file from =? file to) = false
    /\ readSq (board st) (rank to) (file to) = Some target
    /\ match target with Some t => isSameColor p t | None => false end = false
    /\ colorOf p = currentPlayer st
    /\ kindCheck (isLegalMoveWithState n) p (colorOf p) from to target promotionChar st
       = Some (Legal ep cas pr, st).
Proof.
  intros H.
  pose proof (isLegalMoveWithState_state _ _ _ _ _ _ _ _ H) as ->.
  destruct fuel as [|n]; [discriminate|]. simpl in H.
  unfold isLegalMoveWithState_body in H.
  destruct piece as [p|]; [|discriminate].
  destruct ((rank from =? rank to) && (file from =? file to)) eqn:Hsame; [discriminate|].
  apply bind_Some in H as (target & st1 & Hread & H).
  apply readBoard_Some in Hread as [Hread ->].
  destruct (match target with Some t => isSameColor p t | None => false end) eqn:Hown;
    [discriminate|].
  apply bind_Some in H as (cur & st1 & Hcur & H).
  apply gets_Some in Hcur as [-> ->].
  destruct (negb (Player_eqb (colorOf p) (currentPlayer st))) eqn:Hturn; [discriminate|].
  apply negb_false_iff, bool_decide_eq_true in Hturn.
  apply bind_Some in H as (flags & st1 & Hkind & H).
  pose proof (kindCheck_state _ (isLegalMoveWithState_state n) _ _ _ _ _ _ _ _ _ Hkind)
    as ->.
  destruct flags as [why|ep0 cas0 pr0]; [discriminate|].
  apply simulateAndVerify_mover in H; [|done].
  exists n, p, target. by rewrite H.
Qed.

Lemma pathClearFrom_true n : forall i from drStep dfStep st st',
  pathClearFrom n i from drStep dfStep st = Some (true, st') ->
  forall j, i <= j < i + Z.of_nat n ->
    readSq (board st) (rank from + drStep * j) (file from + dfStep * j) = Some None.
Proof.
  induction n as [|n IH]; intros i from drStep dfStep st st' H j Hj; [lia|].
  simpl in H. apply bind_Some in H as (c & st1 & Hread & H).
  apply readBoard_Some in Hread as [Hread ->].
  destruct c as [c|]; [discriminate|].
  destruct (decide (j = i)) as [->|Hne]; [done|].
  apply (IH (i + 1) from drStep dfStep st st' H). lia.
Qed.

Lemma pathClear_true from drStep dfStep steps st st' :
  pathClear from drStep dfStep steps st = Some (true, st') ->
  forall j, 1 <= j < steps ->
    readSq (board st) (rank from + drStep * j) (file from + dfStep * j) = Some None.
Proof.
  unfold pathClear. intros H j Hj.
  apply (pathClearFrom_true _ _ _ _ _ _ _ H). lia.
Qed.

(** X4. Bishops, rooks and queens never jump: when the checker accepts the
    move of one, the move runs along a diagonal (bishop), a rank or file
    (rook) or either (queen), and every square strictly between origin and
    destination is empty. *)
Theorem sliding_pieces_never_jump fuel from to p promotionChar st r st' :
  isLegalMoveWithState fuel from to (Some p) promotionChar st = Some (r, st') ->
  ok r = true ->
  chr_in (toLowerCase p) "brq" = true ->
  let dr := rank to - rank from in
  let df := file to - file from in
  r = Legal false false None
  /\ (toLowerCase p = "b"%char -> Z.abs dr = Z.abs df)
  /\ (toLowerCase p = "r"%char -> dr = 0 \/ df = 0)
  /\ (Z.abs dr = Z.abs df \/ dr = 0 \/ df = 0)
  /\ forall j, 1 <= j < Z.max (Z.abs dr) (Z.abs df) ->
       readSq (board st) (rank from + Z.sgn dr * j) (file from + Z.sgn df * j)
       = Some None.
Proof.
  intros H Hok Hkind dr df.
  destruct r as [why|ep cas pr]; [discriminate|].
  apply accepted_inv in H
    as (n & p' & target & -> & [= <-] & -> & _ & _ & _ & _ & H).
  unfold kindCheck in H. cbv zeta in H. fold dr df in H.
  assert (forall drs dfs steps (st1 : ChessGame) res,
    (let* clear := pathClear from drs dfs steps in
     if negb clear then ret (Illegal "Blocked") else ret (Legal false false None)) st
      = Some (res, st1) ->
    ok res = true ->
    res = Legal false false None
    /\ forall j, 1 <= j < steps ->
         readSq (board st) (rank from + drs * j) (file from + dfs * j) = Some None)
    as Hslide.
  { intros drs dfs steps st1 res Hrun Hres.
    apply bind_Some in Hrun as (clear & st2 & Hclear & Hrun).
    destruct clear; cbn [negb] in Hrun; apply ret_Some in Hrun as [-> _];
      [|discriminate].
    split; [done|]. by eapply pathClear_true. }
  assert (forall x : Z, (if x =? 0 then 0 else sign x) = Z.sgn x) as Hsgn.
  { intros x. unfold sign. destruct (Z.eqb_spec x 0) as [->|]; done. }
  rewrite !Hsgn in H. unfold sign in H.
  unfold chr_in in Hkind. cbn [list_ascii_of_string existsb] in Hkind.
  destruct (Ascii.eqb_spec (toLowerCase p) "p") as [Hp|_];
    [rewrite Hp in Hkind; discriminate|].
  destruct (Ascii.eqb_spec (toLowerCase p) "n") as [Hp|_];
    [rewrite Hp in Hkind; discriminate|].
  destruct (Ascii.eqb_spec (toLowerCase p) "b") as [Hb|Hnb].
  { destruct (Z.abs dr =? Z.abs df) eqn:Hdiag; cbn [negb] in H;
      [|apply ret_Some in H as [[=] _]].
    apply Z.eqb_eq in Hdiag.
    apply Hslide in H as [[= -> -> ->] Hpath]; [|done].
    split_and!; [done|done|by rewrite Hb|by left|].
    intros j Hj. apply Hpath. lia. }
  destruct (Ascii.eqb_spec (toLowerCase p) "r") as [Hr|Hnr].
  { destruct ((dr =? 0) || (df =? 0)) eqn:Haxis; cbn [negb] in H;
      [|apply ret_Some in H as [[=] _]].
    assert (dr = 0 \/ df = 0) as Haxis'
      by (apply orb_true_iff in Haxis as [?%Z.eqb_eq|?%Z.eqb_eq]; auto).
    apply Hslide in H as [[= -> -> ->] Hpath]; [|done].
    split_and!; [done|by rewrite Hr|done|by right|].
    intros j Hj. apply Hpath. lia. }
  destruct (Ascii.eqb_spec (toLowerCase p) "q") as [Hq|Hnq].
  { destruct ((Z.abs dr =? Z.abs df) || (dr =? 0) || (df =? 0)) eqn:Haxis;
      cbn [negb] in H; [|apply ret_Some in H as [[=] _]].
    assert (Z.abs dr = Z.abs df \/ dr = 0 \/ df = 0) as Haxis'.
    { apply orb_true_iff in Haxis as [[?%Z.eqb_eq|?%Z.eqb_eq]%orb_true_iff|?%Z.eqb_eq];
        auto. }
    apply Hslide in H as [[= -> -> ->] Hpath]; [|done].
    split_and!; [done|by rewrite Hq|by rewrite Hq|done|].
    intros j Hj. by apply Hpath. }
  exfalso. revert Hkind.
  destruct (Ascii.eqb_spec (toLowerCase p) "b"); [done|].
  destruct (Ascii.eqb_spec (toLowerCase p) "r"); [done|].
  destruct (Ascii.eqb_spec (toLowerCase p) "q"); [done|]. done.
Qed.

Lemma sliding_pieces_never_jump_witness :
  Legal false false None = Legal false false None
  /\ (toLowerCase "R" = "b"%char ->
      Z.abs (rank f1 - rank h1) = Z.abs (file f1 - file h1))
  /\ (toLowerCase "R" = "r"%char -> rank f1 - rank h1 = 0 \/ file f1 - file h1 = 0)
  /\ (Z.abs (rank f1 - rank h1) = Z.abs (file f1 - file h1)
      \/ rank f1 - rank h1 = 0 \/ file f1 - file h1 = 0)
  /\ forall j, 1 <= j < Z.max (Z.abs (rank f1 - rank h1)) (Z.abs (file f1 - file h1)) ->
       readSq (board castleShort) (rank h1 + Z.sgn (rank f1 - rank h1) * j)
         (file h1 + Z.sgn (file f1 - file h1) * j) = Some None.
Proof.
  apply (sliding_pieces_never_jump 2 h1 f1 "R"%char None castleShort
           (Legal false false None) castleShort); vm_compute; reflexivity.
Defined.



Lemma pawnCheck_Legal color from to targetPiece promotionChar st ep cas pr st' :
  pawnCheck color from to targetPiece promotionChar st = Some (Legal ep cas pr, st') ->
  cas = false /\ pr = choosePromotion color to promotionChar
  /\ ((file to = file from /\ rank to = rank from + pawnDir color
       /\ targetPiece = None /\ ep = false)
      \/ (file to = file from /\ rank to = rank from + 2 * pawnDir color
          /\ rank from = startRank color /\ targetPiece = None
          /\ readSq (board st) (rank from + pawnDir color) (file from) = Some None
          /\ ep = false)
      \/ (Z.abs (file to - file from) = 1 /\ rank to = rank from + pawnDir color
          /\ ((is_Some targetPiece /\ ep = false)
              \/ (targetPiece = None /\ ep = true /\ enPassantTarget st <> "-"
                  /\ algebraicToCoords (enPassantTarget st)
                     = (Int (rank to), Int (file to)))))).
Proof.
  unfold pawnCheck, pawnDir, startRank. cbv zeta. intros H.
  destruct (file to - file from =? 0) eqn:Hdf.
  - apply Z.eqb_eq in Hdf.
    destruct ((rank to - rank from =? _) && negb _) eqn:Hone.
    { apply ret_Some in H as [[= -> -> ->] _].
      apply andb_true_iff in Hone as [Hdr%Z.eqb_eq Hempty%negb_true_iff].
      apply bool_decide_eq_false in Hempty.
      split_and!; [done..|]. left. split_and!; [lia|lia| |done].
      destruct targetPiece; [|done]. by destruct Hempty. }
    destruct ((rank from =? _) && _ && negb _) eqn:Htwo;
      [|apply ret_Some in H as [[=] _]].
    apply andb_true_iff in Htwo as [[Hstart%Z.eqb_eq Hdr%Z.eqb_eq]%andb_true_iff
                                     Hempty%negb_true_iff].
    apply bool_decide_eq_false in Hempty.
    apply bind_Some in H as (c & st1 & Hread & H).
    apply readBoard_Some in Hread as [Hread ->].
    destruct c; apply ret_Some in H as [[= -> -> ->] _].
    split_and!; [done..|]. right. left. split_and!; [lia|lia|done| |done|done].
    destruct targetPiece; [|done]. by destruct Hempty.
  - destruct ((Z.abs (file to - file from) =? 1) && _) eqn:Hdiag;
      [|apply ret_Some in H as [[=] _]].
    apply andb_true_iff in Hdiag as [Habs%Z.eqb_eq Hdr%Z.eqb_eq].
    destruct targetPiece as [t|].
    { apply ret_Some in H as [[= -> -> ->] _].
      split_and!; [done..|]. right. right. split_and!; [done|lia|]. left. eauto. }
    apply bind_Some in H as (e & st1 & He & H). apply gets_Some in He as [-> ->].
    destruct (negb (String.eqb (enPassantTarget st) "-")) eqn:Hep;
      [|apply ret_Some in H as [[=] _]].
    destruct (bool_decide _ && bool_decide _) eqn:Hsq;
      apply ret_Some in H as [[= -> -> ->] _].
    apply andb_true_iff in Hsq as [Hr%bool_decide_eq_true Hf%bool_decide_eq_true].
    apply negb_true_iff, String.eqb_neq in Hep.
    split_and!; [done..|]. right. right. split_and!; [done|lia|]. right.
    split_and!; [done..|].
    destruct (algebraicToCoords (enPassantTarget st)) as [a b]. simpl in *. congruence.
Qed.

(** An accepted pawn move is one the pawn rule accepted. *)
Lemma accepted_pawn_kind fuel from to p promotionChar st ep cas pr st' :
  isLegalMoveWithState fuel from to (Some p) promotionChar st
    = Some (Legal ep cas pr, st') ->
  isPawn p = true ->
  colorOf p = currentPlayer st
  /\ exists target,
       readSq (board st) (rank to) (file to) = Some target
       /\ match target with Some t => isSameColor p t | None => false end = false
       /\ pawnCheck (currentPlayer st) from to target promotionChar st
          = Some (Legal ep cas pr, st).
Proof.
  intros H Hpawn.
  apply accepted_inv in H
    as (n & p' & target & -> & [= <-] & -> & _ & Hread & Hown & Hturn & H).
  unfold kindCheck in H. cbv zeta in H. unfold isPawn in Hpawn. rewrite Hpawn in H.
  rewrite Hturn in H. split; [done|]. by exists target.
Qed.

(** Pieces other than pawns are never accepted with the en-passant flag or
    a promotion piece. *)
Lemma accepted_nonpawn_flags fuel from to p promotionChar st ep cas pr st' :
  isLegalMoveWithState fuel from to (Some p) promotionChar st
    = Some (Legal ep cas pr, st') ->
  isPawn p = false ->
  ep = false /\ pr = None.
Proof.
  intros H Hpawn.
  apply accepted_inv in H as (n & p' & tg & _ & [= <-] & _ & _ & _ & _ & _ & H).
  unfold kindCheck in H. cbv zeta in H. unfold isPawn in Hpawn. rewrite Hpawn in H.
  repeat match type of H with
         | (if Ascii.eqb ?a ?b then _ else _) _ = _ => destruct (Ascii.eqb a b)
         end;
    try (inv_M; try done;
         match goal with H : Legal _ _ _ = Legal _ _ _ |- _ => by injection H as <- _ <- end).
  unfold kingCheck in H. cbv zeta in H.
  inv_M; try done;
    match goal with H : Legal _ _ _ = Legal _ _ _ |- _ => by injection H as <- _ <- end.
Qed.

(** An accepted en-passant capture takes the pawn from the rank the capturing
    pawn came from. *)
Lemma accepted_en_passant_row fuel from to p promotionChar st cas pr st1 :
  isLegalMoveWithState fuel from to (Some p) promotionChar st
    = Some (Legal true cas pr, st1) ->
  rank to + match colorOf p with white => 1 | black => -1 end = rank from.
Proof.
  intros H.
  destruct (isPawn p) eqn:Hpawn.
  - apply accepted_pawn_kind in H as (Hturn & target & _ & _ & H); [|done].
    apply pawnCheck_Legal in H as (_ & _ & Hshape).
    unfold pawnDir in Hshape. rewrite <- Hturn in Hshape.
    destruct Hshape as [(_&_&_&?)|[(_&_&_&_&_&?)|(_&Hr&_)]]; try done.
    destruct (colorOf p); lia.
  - by apply accepted_nonpawn_flags in H as [? _].
Qed.

Lemma readBoard_run r f c st :
  readSq (board st) r f = Some c -> readBoard r f st = Some (c, st).
Proof. unfold readBoard. by intros ->. Qed.

(** For the side on turn the simulation is a formality: it returns the flags
    it was given. *)
Lemma simulateAndVerify_passes n p from to target flags st :
  hasRanks (board st) -> onGrid from -> onGrid to -> currentPlayer st = colorOf p ->
  (l_isEnPassant flags = true -> rank to - rank from = pawnDir (colorOf p)) ->
  simulateAndVerify (isLegalMoveWithState (S n)) p (colorOf p) from to target flags st
    = Some (flags, st).
Proof.
  intros Hb Hf Ht Hturn Hep.
  unfold simulateAndVerify, snapshotState.
  unfold bind at 1. unfold gets at 1.
  destruct (applyMoveToState_total
              (mkMove from to (Some p) target (l_promotion flags) (l_isEnPassant flags)
                 (l_isCastling flags)) true st Hb Hf Ht)
    as (st1 & Happ & Hb1).
  { simpl. intros p' [= <-] Hflag. specialize (Hep Hflag). unfold pawnDir in Hep.
    destruct Hf as [Hfr _]. destruct Ht as [Htr _]. destruct (colorOf p); lia. }
  unfold bind at 1. unfold update at 1. rewrite Happ.
  pose proof (isKingInCheck_mover_total n (colorOf p) st1 Hb1) as Hchk.
  unfold isKingInCheck in Hchk.
  rewrite (bind_run _ _ _ _ _
             (Hchk (eq_trans (applyMoveToState_currentPlayer _ _ _ _ Happ) Hturn))).
  apply applyMoveToState_simulate_outside in Happ
    as (? & ? & ? & ? & ? & ? & ? & ? & ?).
  by rewrite (bind_run _ _ _ _ _ (restore_snapshot_id st st1 ltac:(done) ltac:(done)
    ltac:(done) ltac:(done) ltac:(done) ltac:(done) ltac:(done) ltac:(done) ltac:(done))).
Qed.

(** Once the guards are passed, the checker answers what the rule of the
    piece kind answers. *)
Lemma checker_follows_kind n from to p promotionChar st target flags :
  hasRanks (board st) -> onGrid from -> onGrid to ->
  (rank from =? rank to) && (file from =? file to) = false ->
  readSq (board st) (rank to) (file to) = Some target ->
  match target with Some t => isSameColor p t | None => false end = false ->
  colorOf p = currentPlayer st ->
  kindCheck (isLegalMoveWithState (S n)) p (colorOf p) from to target promotionChar st
    = Some (flags, st) ->
  isLegalMoveWithState (S (S n)) from to (Some p) promotionChar st = Some (flags, st).
Proof.
  intros Hb Hf Ht Hsame Hread Hown Hturn Hkind.
  change (isLegalMoveWithState (S (S n)))
    with (isLegalMoveWithState_body (isLegalMoveWithState (S n))).
  unfold isLegalMoveWithState_body. rewrite Hsame.
  rewrite (bind_run _ _ _ _ _ (readBoard_run _ _ _ _ Hread)). rewrite Hown.
  unfold bind at 1. unfold gets at 1.
  unfold Player_eqb. rewrite bool_decide_eq_true_2 by done. cbn [negb].
  rewrite (bind_run _ _ _ _ _ Hkind).
  destruct flags as [why|ep cas pr]; [done|].
  apply simulateAndVerify_passes; [done..|].
  destruct (kindCheck_total n p (colorOf p) from to target promotionChar st
              Hb Hf Ht (eq_sym Hturn)) as (r & Hr & Hep).
  rewrite Hkind in Hr. by injection Hr as <-.
Qed.

(** The pawn rule accepts each of its three shapes. *)
Lemma pawnCheck_accepts color from to targetPiece promotionChar st ep :
  (file to = file from /\ rank to = rank from + pawnDir color
   /\ targetPiece = None /\ ep = false)
  \/ (file to = file from /\ rank to = rank from + 2 * pawnDir color
      /\ rank from = startRank color /\ targetPiece = None
      /\ readSq (board st) (rank from + pawnDir color) (file from) = Some None
      /\ ep = false)
  \/ (Z.abs (file to - file from) = 1 /\ rank to = rank from + pawnDir color
      /\ ((is_Some targetPiece /\ ep = false)
          \/ (targetPiece = None /\ ep = true /\ enPassantTarget st <> "-"
              /\ algebraicToCoords (enPassantTarget st)
                 = (Int (rank to), Int (file to))))) ->
  pawnCheck color from to targetPiece promotionChar st
  = Some (Legal ep false (choosePromotion color to promotionChar), st).
Proof.
  unfold pawnCheck, pawnDir, startRank. cbv zeta.
  intros [(Hf & Hr & -> & ->)|[(Hf & Hr & Hs & -> & Hmid & ->)|(Hf & Hr & Hcase)]].
  - rewrite (proj2 (Z.eqb_eq (file to - file from) 0)) by lia.
    rewrite (proj2 (Z.eqb_eq (rank to - rank from) _)) by (destruct color; lia).
    reflexivity.
  - rewrite (proj2 (Z.eqb_eq (file to - file from) 0)) by lia.
    rewrite (proj2 (Z.eqb_neq (rank to - rank from)
                      (match color with white => -1 | black => 1 end)))
      by (destruct color; lia).
    rewrite (proj2 (Z.eqb_eq (rank from) _)) by exact Hs.
    rewrite (proj2 (Z.eqb_eq (rank to - rank from) _)) by (destruct color; lia).
    cbn [andb negb]. change (bool_decide (is_Some (@None ascii))) with false.
    cbn [negb]. by rewrite (bind_run _ _ _ _ _ (readBoard_run _ _ _ _ Hmid)).
  - rewrite (proj2 (Z.eqb_neq (file to - file from) 0)) by lia.
    rewrite (proj2 (Z.eqb_eq (Z.abs (file to - file from)) 1)) by exact Hf.
    rewrite (proj2 (Z.eqb_eq (rank to - rank from) _)) by (destruct color; lia).
    cbn [andb].
    destruct Hcase as [[[t ->] ->]|(-> & -> & Hep & Hsq)]; [reflexivity|].
    unfold bind at 1. unfold gets at 1.
    rewrite (proj2 (String.eqb_neq _ _) Hep). cbn [negb].
    rewrite Hsq. cbn [fst snd].
    by rewrite !bool_decide_eq_true_2.
Qed.

(** X6. The pawn moves the checker accepts, on a board with its eight rows
    and between squares of the grid, are exactly these, for a pawn of the
    side on turn: one square forward onto an empty square; two squares
    forward from the start rank over and onto empty squares; one square
    diagonally forward onto a piece of the other colour; or one square
    diagonally forward onto the empty en-passant target, which alone is
    flagged as en passant. No pawn move is flagged as castling. *)
Theorem accepted_pawn_move n from to p promotionChar st ep :
  hasRanks (board st) -> onGrid from -> onGrid to -> isPawn p = true ->
  let color := currentPlayer st in
  ((exists pr,
      isLegalMoveWithState (S (S n)) from to (Some p) promotionChar st
        = Some (Legal ep false pr, st))
   <-> colorOf p = color
       /\ ((file to = file from /\ rank to = rank from + pawnDir color
            /\ readSq (board st) (rank to) (file to) = Some None /\ ep = false)
           \/ (file to = file from /\ rank to = rank from + 2 * pawnDir color
               /\ rank from = startRank color
               /\ readSq (board st) (rank to) (file to) = Some None
               /\ readSq (board st) (rank from + pawnDir color) (file from) = Some None
               /\ ep = false)
           \/ (Z.abs (file to - file from) = 1 /\ rank to = rank from + pawnDir color
               /\ ((exists t, readSq (board st) (rank to) (file to) = Some (Some t)
                              /\ isSameColor p t = false /\ ep = false)
                   \/ (readSq (board st) (rank to) (file to) = Some None /\ ep = true
                       /\ enPassantTarget st <> "-"
                       /\ algebraicToCoords (enPassantTarget st)
                          = (Int (rank to), Int (file to)))))))
  /\ forall pr st',
       isLegalMoveWithState (S (S n)) from to (Some p) promotionChar st
       <> Some (Legal ep true pr, st').
Proof.
  intros Hb Hfrom Hto Hpawn color. split; [split|].
  - intros [pr H].
    apply accepted_pawn_kind in H as (Hturn & target & Hread & Hown & H); [|done].
    fold color in H. split; [done|].
    apply pawnCheck_Legal in H as (_ & _ & H).
    destruct H as [(?&?&->&?)|[(?&?&?&->&?&?)|(?&?&[[[t ->] ?]|(->&?&?&?)])]].
    + left. done.
    + right. left. done.
    + right. right. split_and!; [done..|]. left. exists t. done.
    + right. right. split_and!; [done..|]. right. done.
  - intros [Hturn Hshape].
    exists (choosePromotion color to promotionChar).
    assert (exists target,
      readSq (board st) (rank to) (file to) = Some target
      /\ match target with Some t => isSameColor p t | None => false end = false
      /\ rank to <> rank from
      /\ pawnCheck color from to target promotionChar st
         = Some (Legal ep false (choosePromotion color to promotionChar), st))
      as (target & Hread & Hown & Hne & Hrule).
    { destruct Hshape as [(Hf & Hr & Hread & ->)|[(Hf & Hr & Hs & Hread & Hmid & ->)
                         |(Hf & Hr & [(t & Hread & Hown & ->)|(Hread & -> & Hep & Hsq)])]].
      - exists None. split_and!; [done|done|unfold pawnDir in Hr; destruct color; lia|].
        apply pawnCheck_accepts. left. done.
      - exists None. split_and!; [done|done|unfold pawnDir in Hr; destruct color; lia|].
        apply pawnCheck_accepts. right. left. done.
      - exists (Some t).
        split_and!; [done|done|unfold pawnDir in Hr; destruct color; lia|].
        apply pawnCheck_accepts. right. right. split_and!; [done..|]. left. eauto.
      - exists None. split_and!; [done|done|unfold pawnDir in Hr; destruct color; lia|].
        apply pawnCheck_accepts. right. right. split_and!; [done..|]. right. done. }
    apply (checker_follows_kind n _ _ _ _ _ target); [done..| |done|done|done|].
    { rewrite (proj2 (Z.eqb_neq (rank from) (rank to))) by lia. done. }
    unfold kindCheck. cbv zeta. unfold isPawn in Hpawn. rewrite Hpawn, Hturn.
    exact Hrule.
  - intros pr st' H.
    apply accepted_pawn_kind in H as (_ & target & _ & _ & H); [|done].
    by apply pawnCheck_Legal in H as (? & _).
Qed.

(** The double step e2-e4 from the start position is accepted. *)
Lemma accepted_pawn_move_witness :
  exists pr,
    isLegalMoveWithState 2 e2 e4 (Some "P"%char) None startPosition
    = Some (Legal false false pr, startPosition).
Proof.
  destruct (accepted_pawn_move 0 e2 e4 "P"%char None startPosition false)
    as [[_ Haccepts] _].
  - vm_compute. lia.
  - vm_compute. repeat split; discriminate.
  - vm_compute. repeat split; discriminate.
  - reflexivity.
  - apply Haccepts. split; [reflexivity|].
    right. left. repeat split; reflexivity.
Defined.

Lemma castlePathFree_true n : forall r f step rookFile st st',
  castlePathFree n r f step rookFile st = Some (true, st') ->
  forall k, 0 <= k -> (forall i, 0 <= i <= k -> f + i * step <> rookFile) ->
    readSq (board st) r (f + k * step) = Some None.
Proof.
  induction n as [|n IH]; intros r f step rookFile st st' H k Hk Hnot; simpl in H.
  - destruct (Z.eqb_spec f rookFile) as [Heq|_]; [|discriminate].
    exfalso. apply (Hnot 0); lia.
  - destruct (Z.eqb_spec f rookFile) as [Heq|_].
    { exfalso. apply (Hnot 0); lia. }
    apply bind_Some in H as (c & st1 & Hread & H).
    apply readBoard_Some in Hread as [Hread ->].
    destruct c; [discriminate|].
    destruct (decide (k = 0)) as [->|Hk0].
    { by replace (f + 0 * step) with f by lia. }
    replace (f + k * step) with ((f + step) + (k - 1) * step) by lia.
    apply (IH _ _ _ _ _ _ H); [lia|].
    intros i Hi. replace (f + step + i * step) with (f + (i + 1) * step) by lia.
    apply Hnot. lia.
Qed.

Lemma castlePathFree_free n : forall r f step rookFile st m,
  0 <= m <= Z.of_nat n -> f + m * step = rookFile ->
  (forall i, 0 <= i < m -> f + i * step <> rookFile) ->
  (forall i, 0 <= i < m -> readSq (board st) r (f + i * step) = Some None) ->
  castlePathFree n r f step rookFile st = Some (true, st).
Proof.
  induction n as [|n IH]; intros r f step rookFile st m Hm Hend Hnot Hfree; simpl.
  - assert (m = 0) as -> by lia.
    replace (f =? rookFile) with true by (symmetry; apply Z.eqb_eq; lia). done.
  - destruct (Z.eqb_spec f rookFile) as [Heq|Hne]; [done|].
    assert (m <> 0) as Hm0 by (intros ->; apply Hne; lia).
    pose proof (Hfree 0 ltac:(lia)) as H0.
    replace (f + 0 * step) with f in H0 by lia.
    rewrite (bind_run _ _ _ _ _ (readBoard_run _ _ _ _ H0)).
    apply (IH _ _ _ _ _ (m - 1)); [lia|lia| |].
    + intros i Hi. replace (f + step + i * step) with (f + (i + 1) * step) by lia.
      apply Hnot. lia.
    + intros i Hi. replace (f + step + i * step) with (f + (i + 1) * step) by lia.
      apply Hfree. lia.
Qed.

Lemma kingCheck_castles fuel color from to st ep pr st' :
  kingCheck (isLegalMoveWithState fuel) color from to st = Some (Legal ep true pr, st') ->
  ep = false /\ pr = None
  /\ from = sideKing color /\ rank to = rank from /\ (file to = 6 \/ file to = 2)
  /\ canCastle color (file to =? 6) (castlingRights st) = true
  /\ forall f, betweenKingAndRook (file to =? 6) f ->
       readSq (board st) (rank from) f = Some None.
Proof.
  unfold kingCheck. cbv zeta. intros H.
  destruct ((rank to - rank from =? 0) && (Z.abs (file to - file from) =? 2)) eqn:Hshape.
  2:{ destruct ((1 <? _) || _); apply ret_Some in H as [[=] _]. }
  apply andb_true_iff in Hshape as [Hdr%Z.eqb_eq _].
  apply bind_Some in H as (rights & st1 & Hr & H). apply gets_Some in Hr as [-> ->].
  destruct (negb (rank from =? _) || negb (file from =? _)) eqn:Hhome;
    [apply ret_Some in H as [[=] _]|].
  apply orb_false_iff in Hhome as [Hhr%negb_false_iff%Z.eqb_eq Hhf%negb_false_iff%Z.eqb_eq].
  destruct (negb (file to =? 6) && negb (file to =? 2)) eqn:Htarget;
    [apply ret_Some in H as [[=] _]|].
  fold (canCastle color (file to =? 6) (castlingRights st)) in H.
  destruct (canCastle color (file to =? 6) (castlingRights st)) eqn:Hright;
    cbn [negb] in H; [|apply ret_Some in H as [[=] _]].
  apply bind_Some in H as (free & st1 & Hfree & H).
  pose proof (castlePathFree_state _ _ _ _ _ _ _ _ Hfree) as ->.
  destruct free; cbn [negb] in H; [|apply ret_Some in H as [[=] _]].
  assert (file from = 4) as Hf4 by (rewrite Hhf; by destruct color).
  assert (from = sideKing color) as Hfrom.
  { destruct from as [fr ff]. simpl in *. rewrite Hhr, Hhf. by destruct color. }
  assert (ep = false /\ pr = None) as [-> ->].
  { inv_M; try done; match goal with H : Legal _ _ _ = Legal _ _ _ |- _ => by injection H end. }
  split_and!; [done|done|done|lia| |done|].
  - destruct (Z.eqb_spec (file to) 6), (Z.eqb_spec (file to) 2); auto; discriminate.
  - intros f Hf. rewrite Hf4 in Hfree.
    destruct (file to =? 6); unfold betweenKingAndRook in Hf.
    + replace f with (4 + 1 + (f - 5) * 1) by lia.
      apply (castlePathFree_true _ _ _ _ _ _ _ Hfree); lia.
    + replace f with (4 + -1 + (3 - f) * -1) by lia.
      apply (castlePathFree_true _ _ _ _ _ _ _ Hfree); lia.
Qed.

Lemma kingCheck_castle_run n color to st :
  hasRanks (board st) -> currentPlayer st = color ->
  rank to = rank (sideKing color) -> (file to = 6 \/ file to = 2) ->
  canCastle color (file to =? 6) (castlingRights st) = true ->
  (forall f, betweenKingAndRook (file to =? 6) f ->
     readSq (board st) (rank (sideKing color)) f = Some None) ->
  kingCheck (isLegalMoveWithState (S n)) color (sideKing color) to st
    = Some (Legal false true None, st).
Proof.
  intros Hb Hturn Hr Hfile Hright Hfree. unfold kingCheck. cbv zeta.
  assert (file (sideKing color) = 4) as Hf4 by (by destruct color).
  change (match color with white => mkSquare 7 4 | black => mkSquare 0 4 end)
    with (sideKing color).
  rewrite Hr, Z.sub_diag, !Z.eqb_refl. cbn [negb orb andb].
  rewrite Hf4.
  replace (Z.abs (file to - 4) =? 2) with true by (destruct Hfile as [-> | ->]; done).
  unfold bind at 1. unfold gets at 1.
  replace (negb (file to =? 6) && negb (file to =? 2)) with false
    by (destruct Hfile as [-> | ->]; done).
  fold (canCastle color (file to =? 6) (castlingRights st)). rewrite Hright. cbn [negb].
  assert (castlePathFree 8 (rank (sideKing color))
            (4 + (if file to =? 6 then 1 else -1)) (if file to =? 6 then 1 else -1)
            (if file to =? 6 then 7 else 0) st = Some (true, st)) as Hpath.
  { destruct (file to =? 6).
    - apply (castlePathFree_free _ _ _ _ _ _ 2); [simpl; lia|lia|intros; lia|].
      intros i Hi. apply Hfree. unfold betweenKingAndRook. lia.
    - apply (castlePathFree_free _ _ _ _ _ _ 3); [simpl; lia|lia|intros; lia|].
      intros i Hi. apply Hfree. unfold betweenKingAndRook. lia. }
  rewrite (bind_run _ _ _ _ _ Hpath). cbn [negb].
  pose proof (isSquareAttacked_mover_total n) as Hatt.
  unfold isSquareAttacked in Hatt.
  rewrite (bind_run _ _ _ _ _ (Hatt (sideKing color) color st Hb Hturn)).
  rewrite (bind_run _ _ _ _ _ (Hatt _ color st Hb Hturn)).
  by rewrite (bind_run _ _ _ _ _ (Hatt to color st Hb Hturn)).
Qed.

Lemma kindCheck_castles fuel p color from to target promotionChar st ep pr st' :
  kindCheck (isLegalMoveWithState fuel) p color from to target promotionChar st
    = Some (Legal ep true pr, st') ->
  toLowerCase p = "k"%char
  /\ kingCheck (isLegalMoveWithState fuel) color from to st = Some (Legal ep true pr, st').
Proof.
  unfold kindCheck. cbv zeta. intros H.
  destruct (Ascii.eqb_spec (toLowerCase p) "p") as [_|_].
  { by apply pawnCheck_Legal in H as [[=] _]. }
  destruct (Ascii.eqb_spec (toLowerCase p) "n") as [_|_].
  { destruct (negb _); by apply ret_Some in H as [[=] _]. }
  destruct (Ascii.eqb_spec (toLowerCase p) "b") as [_|_]; [inv_M; done|].
  destruct (Ascii.eqb_spec (toLowerCase p) "r") as [_|_]; [inv_M; done|].
  destruct (Ascii.eqb_spec (toLowerCase p) "q") as [_|_]; [inv_M; done|].
  destruct (Ascii.eqb_spec (toLowerCase p) "k") as [Hk|_]; [done|].
  by apply ret_Some in H as [[=] _].
Qed.

(** X7. Castling as the checker decides it. A move is accepted as castling
    exactly when a king of the side on turn stands on its home square, goes
    two files along its rank, the right for that wing is still held and the
    squares between king and rook are empty. Neither the presence of the rook
    nor any attack on the king's path enters the decision. *)
Theorem castling_accepted_iff n from to p promotionChar st :
  hasRanks (board st) ->
  (exists ep pr,
     isLegalMoveWithState (S (S n)) from to (Some p) promotionChar st
       = Some (Legal ep true pr, st))
  <-> (toLowerCase p = "k"%char /\ colorOf p = currentPlayer st
       /\ from = sideKing (colorOf p) /\ rank to = rank from
       /\ (file to = 6 \/ file to = 2)
       /\ canCastle (colorOf p) (file to =? 6) (castlingRights st) = true
       /\ forall f, betweenKingAndRook (file to =? 6) f ->
            readSq (board st) (rank from) f = Some None).
Proof.
  intros Hb. split.
  - intros (ep & pr & H).
    apply accepted_inv in H
      as (m & p' & target & _ & [= <-] & _ & _ & _ & _ & Hturn & H).
    apply kindCheck_castles in H as [Hk H].
    apply kingCheck_castles in H as (_ & _ & ? & ? & ? & ? & ?). done.
  - intros (Hk & Hturn & -> & Hr & Hfile & Hright & Hfree).
    exists false, None.
    assert (file (sideKing (colorOf p)) = 4) as Hf4 by (by destruct (colorOf p)).
    assert (onGrid (sideKing (colorOf p))) as Hfrom
      by (destruct (colorOf p); unfold onGrid; simpl; lia).
    assert (onGrid to) as Hto.
    { destruct Hfrom as [? ?]. unfold onGrid. destruct Hfile; lia. }
    assert (readSq (board st) (rank to) (file to) = Some None) as Hread.
    { rewrite Hr. apply Hfree. unfold betweenKingAndRook.
      destruct Hfile as [-> | ->]; simpl; lia. }
    apply (checker_follows_kind n _ _ _ _ _ None); [done..| |done|done|done|].
    { rewrite Hf4. destruct Hfile as [-> | ->]; apply andb_false_r. }
    unfold kindCheck. cbv zeta. rewrite Hk.
    change (Ascii.eqb "k" "p") with false. change (Ascii.eqb "k" "n") with false.
    change (Ascii.eqb "k" "b") with false. change (Ascii.eqb "k" "r") with false.
    change (Ascii.eqb "k" "q") with false. change (Ascii.eqb "k" "k") with true.
    cbv iota. by apply kingCheck_castle_run.
Qed.

Lemma castling_accepted_iff_witness :
  (exists ep pr,
     isLegalMoveWithState 2 e1 g1 (Some "K"%char) None castleThroughW
       = Some (Legal ep true pr, castleThroughW))
  <-> (toLowerCase "K" = "k"%char /\ colorOf "K" = currentPlayer castleThroughW
       /\ e1 = sideKing (colorOf "K") /\ rank g1 = rank e1
       /\ (file g1 = 6 \/ file g1 = 2)
       /\ canCastle (colorOf "K") (file g1 =? 6) (castlingRights castleThroughW) = true
       /\ forall f, betweenKingAndRook (file g1 =? 6) f ->
            readSq (board castleThroughW) (rank e1) f = Some None).
Proof.
  apply (castling_accepted_iff 0 e1 g1 "K"%char None castleThroughW).
  vm_compute. lia.
Defined.

Lemma toUpperCase_not_lower x : chr_in (toUpperCase x) "qrbn" = false.
Proof. by destruct x as [[] [] [] [] [] [] [] []]. Qed.

Lemma toLowerCase_not_upper x : chr_in (toLowerCase x) "QRBN" = false.
Proof. by destruct x as [[] [] [] [] [] [] [] []]. Qed.

Lemma choosePromotion_Some color to promotionChar c :
  choosePromotion color to promotionChar = Some c ->
  rank to = promoRank color
  /\ chr_in c (match color with white => "QRBN" | black => "qrbn" end) = true.
Proof.
  unfold choosePromotion, promoRank. cbv zeta.
  destruct (Z.eqb_spec (rank to) (match color with white => 0 | black => 7 end))
    as [Hr|_]; [|discriminate].
  split; [done|].
  destruct color.
  - destruct (chr_in (toUpperCase (default "q"%char promotionChar)) "qrbnQRBN") eqn:Hin;
      cbn [negb] in H; injection H as <-; [|done].
    change "qrbnQRBN" with ("qrbn" +:+ "QRBN") in Hin.
    by rewrite chr_in_app, toUpperCase_not_lower in Hin.
  - destruct (chr_in (toLowerCase (default "q"%char promotionChar)) "qrbnQRBN") eqn:Hin;
      cbn [negb] in H; injection H as <-; [|done].
    change "qrbnQRBN" with ("qrbn" +:+ "QRBN") in Hin.
    by rewrite chr_in_app, toLowerCase_not_upper, orb_false_r in Hin.
Qed.

Lemma kindCheck_promotion fuel p color from to target promotionChar st ep cas pr st' :
  kindCheck (isLegalMoveWithState fuel) p color from to target promotionChar st
    = Some (Legal ep cas pr, st') ->
  pr = if isPawn p then choosePromotion color to promotionChar else None.
Proof.
  unfold kindCheck, isPawn. cbv zeta. intros H.
  destruct (Ascii.eqb (toLowerCase p) "p").
  { by apply pawnCheck_Legal in H as (_ & -> & _). }
  repeat match type of H with
         | (if Ascii.eqb ?a ?b then _ else _) _ = _ => destruct (Ascii.eqb a b)
         end;
    try (inv_M; try done;
         match goal with H : Legal _ _ _ = Legal _ _ _ |- _ => by injection H end).
  unfold kingCheck in H. cbv zeta in H.
  inv_M; try done;
    match goal with H : Legal _ _ _ = Legal _ _ _ |- _ => by injection H end.
Qed.

(** The promotion piece of an accepted move. *)
Lemma accepted_promotion fuel from to p promotionChar st ep cas pr st' :
  isLegalMoveWithState fuel from to (Some p) promotionChar st
    = Some (Legal ep cas pr, st') ->
  pr = if isPawn p then choosePromotion (currentPlayer st) to promotionChar else None.
Proof.
  intros H.
  apply accepted_inv in H
    as (n & p' & target & -> & [= <-] & -> & _ & _ & _ & Hturn & H).
  apply kindCheck_promotion in H. by rewrite Hturn in H.
Qed.

Lemma choosePromotion_request color to promotionChar c :
  choosePromotion color to promotionChar = Some c ->
  toLowerCase c
  = match promotionChar with
    | Some r => if chr_in (toLowerCase r) "qrbn" then toLowerCase r else "q"%char
    | None => "q"%char
    end.
Proof.
  unfold choosePromotion. cbv zeta.
  destruct (rank to =? match color with white => 0 | black => 7 end); [|discriminate].
  destruct promotionChar as [r|]; cbn [default id].
  - intros H.
    destruct color; destruct r as [[] [] [] [] [] [] [] []];
      vm_compute in H; injection H as <-; reflexivity.
  - intros H. destruct color; vm_compute in H; injection H as <-; reflexivity.
Qed.

(** X8. A promotion piece is chosen exactly when a pawn reaches the last rank
    of its side. For a promotion letter of the ASCII range, or none, the
    piece is always a queen, rook, bishop or knight of the mover's colour:
    the requested one when the letter is one of q, r, b, n in either case,
    and a queen otherwise. *)
Theorem promotion_only_on_last_rank fuel from to p promotionChar st ep cas pr st' :
  isLegalMoveWithState fuel from to (Some p) promotionChar st
    = Some (Legal ep cas pr, st') ->
  (is_Some pr <-> isPawn p = true /\ rank to = promoRank (currentPlayer st))
  /\ (asciiPromotion promotionChar ->
      forall c, pr = Some c ->
        chr_in c (match currentPlayer st with white => "QRBN" | black => "qrbn" end) = true
        /\ colorOf c = currentPlayer st
        /\ toLowerCase c
           = match promotionChar with
             | Some r => if chr_in (toLowerCase r) "qrbn" then toLowerCase r else "q"%char
             | None => "q"%char
             end).
Proof.
  intros H. apply accepted_promotion in H. subst pr.
  split.
  - destruct (isPawn p).
    + split.
      * intros [c Hc]. by apply choosePromotion_Some in Hc as [? _].
      * intros [_ Hr]. unfold choosePromotion, promoRank in *. cbv zeta.
        rewrite Hr, Z.eqb_refl. destruct (negb _); eauto.
    + split; [by intros [? ?]|by intros [? _]].
  - intros _ c Hc. destruct (isPawn p); [|discriminate].
    pose proof (choosePromotion_request _ _ _ _ Hc) as Hreq.
    apply choosePromotion_Some in Hc as [_ Hc]. split; [done|]. split; [|done].
    unfold colorOf, isWhitePiece. destruct (currentPlayer st).
    + change "PRNBQK" with ("P" +:+ "RNBQ" +:+ "K").
      rewrite !chr_in_app.
      assert (chr_in c "RNBQ" = true) as ->; [|by rewrite orb_true_r].
      revert Hc. unfold chr_in. cbn [list_ascii_of_string existsb].
      rewrite !orb_false_r, !orb_true_iff. tauto.
    + assert (chr_in c "PRNBQK" = false) as ->; [|done].
      revert Hc. unfold chr_in. cbn [list_ascii_of_string existsb].
      rewrite !orb_false_r, !orb_true_iff.
      intros [Hc|[Hc|[Hc|Hc]]]; apply Ascii.eqb_eq in Hc; by subst.
Qed.

(** The pawn on e7 promotes on e8; asked for a knight, it becomes a white
    knight. *)
Lemma promotion_only_on_last_rank_witness :
  isLegalMoveWithState 2 e7 e8 (Some "P"%char) (Some "n"%char) promotionReady
    = Some (Legal false false (Some "N"%char), promotionReady)
  /\ (is_Some (Some "N"%char)
      <-> isPawn "P" = true /\ rank e8 = promoRank (currentPlayer promotionReady))
  /\ chr_in "N" "QRBN" = true
  /\ colorOf "N" = white
  /\ toLowerCase "N" = "n"%char.
Proof.
  assert (isLegalMoveWithState 2 e7 e8 (Some "P"%char) (Some "n"%char) promotionReady
          = Some (Legal false false (Some "N"%char), promotionReady)) as Hrun
    by (vm_compute; reflexivity).
  split; [exact Hrun|].
  destruct (promotion_only_on_last_rank 2 e7 e8 "P"%char (Some "n"%char) promotionReady
              false false (Some "N"%char) promotionReady Hrun) as [Hiff Hpiece].
  split; [exact Hiff|].
  apply (Hpiece ltac:(vm_compute; reflexivity) "N"%char eq_refl).
Defined.

(** ** The enumerator *)

(** A loop that only appends, and leaves the state alone, collects what its
    rounds append. *)
Lemma forM_collect {A B} (l : list A) (body : A -> list B -> M (list B))
    (P : A -> B -> Prop) st :
  (forall x acc acc' st', x ∈ l -> body x acc st = Some (acc', st') ->
     st' = st /\ exists new, acc' = (acc ++ new)%list /\ forall m, m ∈ new <-> P x m) ->
  forall acc acc' st', forM l body acc st = Some (acc', st') ->
     st' = st
     /\ exists new, acc' = (acc ++ new)%list
          /\ forall m, m ∈ new <-> exists x, x ∈ l /\ P x m.
Proof.
  induction l as [|x l IH]; intros Hbody acc acc' st' H; simpl in H.
  - apply ret_Some in H as [-> ->]. split; [done|]. exists [].
    split; [by rewrite app_nil_r|]. intros m. split.
    + by intros ?%elem_of_nil.
    + by intros (y & ?%elem_of_nil & _).
  - apply bind_Some in H as (a & st1 & H1 & H2).
    apply Hbody in H1 as (-> & new1 & -> & Hnew1); [|by left].
    apply IH in H2 as (-> & new2 & -> & Hnew2).
    2:{ intros y b b' s Hy. apply Hbody. by right. }
    split; [done|]. exists (new1 ++ new2)%list. split; [by rewrite app_assoc|].
    intros m. rewrite elem_of_app, Hnew1, Hnew2. split.
    + intros [Hm|(y & Hy & Hm)]; [exists x|exists y]; split; try done;
        [by left|by right].
    + intros (y & Hy & Hm). apply elem_of_cons in Hy as [->|Hy]; [by left|].
      right. by exists y.
Qed.

(** X9. The enumerator lists exactly the accepted moves: a move is in the
    list [generateAllPseudoLegalMoves] builds for a player if and only if it
    goes from a square of the grid holding a piece of that player to a square
    of the grid, the checker accepts it without a promotion letter, and the
    entry records the piece, the content of the target square and the
    checker's answer. *)
Theorem enumerator_lists_exactly_the_accepted_moves fuel player opts st l st' :
  generateAllPseudoLegalMoves fuel player opts st = Some (l, st') ->
  st' = st
  /\ forall m, m ∈ l <->
       onGrid (g_from m) /\ onGrid (g_to m)
       /\ readSq (board st) (rank (g_from m)) (file (g_from m)) = Some (Some (g_piece m))
       /\ isPieceOwnedByPlayer (g_piece m) player = true
       /\ readSq (board st) (rank (g_to m)) (file (g_to m)) = Some (g_capturedPiece m)
       /\ isLegalMoveWithState fuel (g_from m) (g_to m) (Some (g_piece m)) None st
          = Some (g_meta m, st)
       /\ ok (g_meta m) = true.
Proof.
  unfold generateAllPseudoLegalMoves, generateAllPseudoLegalMoves_. cbv zeta.
  set (Q := fun m : GenMove =>
    readSq (board st) (rank (g_from m)) (file (g_from m)) = Some (Some (g_piece m))
    /\ isPieceOwnedByPlayer (g_piece m) player = true
    /\ readSq (board st) (rank (g_to m)) (file (g_to m)) = Some (g_capturedPiece m)
    /\ isLegalMoveWithState fuel (g_from m) (g_to m) (Some (g_piece m)) None st
       = Some (g_meta m, st)
    /\ ok (g_meta m) = true).
  intros H.
  apply (forM_collect _ _
           (fun r m => exists f, f ∈ range8 /\ exists tr, tr ∈ range8 /\
                       exists tf, tf ∈ range8 /\
                         g_from m = mkSquare r f /\ g_to m = mkSquare tr tf /\ Q m))
    in H as (-> & new & -> & Hnew).
  - split; [done|]. intros m. cbn [app]. rewrite Hnew. unfold onGrid. split.
    + intros (r & Hr%elem_of_range8 & f & Hf%elem_of_range8 & tr & Htr%elem_of_range8
              & tf & Htf%elem_of_range8 & Hfrom & Hto & HQ).
      unfold Q in HQ. rewrite Hfrom, Hto in *. simpl in *.
      destruct HQ as (H1 & H2 & H3 & H4 & H5). split_and!; try done; lia.
    + intros ([Hr Hf] & [Htr Htf] & HQ).
      exists (rank (g_from m)). split; [by apply elem_of_range8|].
      exists (file (g_from m)). split; [by apply elem_of_range8|].
      exists (rank (g_to m)). split; [by apply elem_of_range8|].
      exists (file (g_to m)). split; [by apply elem_of_range8|].
      split_and!; [by destruct (g_from m)|by destruct (g_to m)|done].
  - intros r acc1 acc1' st1 Hr H1.
    apply (forM_collect _ _
             (fun f m => exists tr, tr ∈ range8 /\ exists tf, tf ∈ range8 /\
                           g_from m = mkSquare r f /\ g_to m = mkSquare tr tf /\ Q m))
      in H1 as (-> & new & -> & Hnew).
    { split; [done|]. exists new. split; [done|]. intros m. rewrite Hnew. done. }
    intros f acc2 acc2' st2 Hf H2.
    apply bind_Some in H2 as (c & st3 & Hread & H2).
    apply readBoard_Some in Hread as [Hread ->].
    destruct c as [p|].
    2:{ apply ret_Some in H2 as [-> ->]. split; [done|]. exists [].
        split; [by rewrite app_nil_r|]. intros m. split; [by intros ?%elem_of_nil|].
        intros (tr & _ & tf & _ & Hfrom & _ & Hsq & _).
        rewrite Hfrom in Hsq. simpl in Hsq. congruence. }
    destruct (isPieceOwnedByPlayer p player) eqn:Hown; cbn [negb] in H2.
    2:{ apply ret_Some in H2 as [-> ->]. split; [done|]. exists [].
        split; [by rewrite app_nil_r|]. intros m. split; [by intros ?%elem_of_nil|].
        intros (tr & _ & tf & _ & Hfrom & _ & Hsq & Hown' & _).
        rewrite Hfrom in Hsq. simpl in Hsq. congruence. }
    apply (forM_collect _ _
             (fun tr m => exists tf, tf ∈ range8 /\
                            g_from m = mkSquare r f /\ g_to m = mkSquare tr tf /\ Q m))
      in H2 as (-> & new & -> & Hnew).
    { split; [done|]. exists new. split; [done|]. intros m. rewrite Hnew. done. }
    intros tr acc3 acc3' st3 Htr H3.
    apply (forM_collect _ _
             (fun tf m => g_from m = mkSquare r f /\ g_to m = mkSquare tr tf /\ Q m))
      in H3 as (-> & new & -> & Hnew).
    { split; [done|]. exists new. split; [done|]. intros m. rewrite Hnew. done. }
    intros tf acc4 acc4' st4 Htf H4.
    apply bind_Some in H4 as (res & st5 & Hcall & H4).
    pose proof (isLegalMoveWithState_state _ _ _ _ _ _ _ _ Hcall) as ->.
    destruct (ok res) eqn:Hok.
    + apply bind_Some in H4 as (cap & st5 & Hcap & H4).
      apply readBoard_Some in Hcap as [Hcap ->].
      apply ret_Some in H4 as [-> ->]. split; [done|].
      exists [mkGenMove (mkSquare r f) (mkSquare tr tf) p cap res]. split; [done|].
      intros m. rewrite list_elem_of_singleton. split.
      * intros ->. unfold Q. simpl. done.
      * intros (Hfrom & Hto & Hsq & _ & Hcap' & Hcall' & _).
        destruct m as [mf mt mp mc mm]. simpl in *. subst mf mt.
        simpl in *. congruence.
    + apply ret_Some in H4 as [-> ->]. split; [done|]. exists [].
      split; [by rewrite app_nil_r|]. intros m. split; [by intros ?%elem_of_nil|].
      intros (Hfrom & Hto & Hsq & _ & _ & Hcall' & Hok').
      rewrite Hfrom, Hto in *. simpl in *.
      assert (g_piece m = p) as Hp by congruence. rewrite Hp in Hcall'.
      rewrite Hcall in Hcall'. injection Hcall' as Hres. rewrite <- Hres in Hok'. congruence.
Qed.

Lemma enumerator_lists_exactly_the_accepted_moves_witness :
  exists l,
    generateAllPseudoLegalMoves 2 white None openFileW = Some (l, openFileW)
    /\ openFileW = openFileW
    /\ forall m, m ∈ l <->
         onGrid (g_from m) /\ onGrid (g_to m)
         /\ readSq (board openFileW) (rank (g_from m)) (file (g_from m))
            = Some (Some (g_piece m))
         /\ isPieceOwnedByPlayer (g_piece m) white = true
         /\ readSq (board openFileW) (rank (g_to m)) (file (g_to m))
            = Some (g_capturedPiece m)
         /\ isLegalMoveWithState 2 (g_from m) (g_to m) (Some (g_piece m)) None openFileW
            = Some (g_meta m, openFileW)
         /\ ok (g_meta m) = true.
Proof.
  eexists. split; [vm_compute; reflexivity|].
  apply (enumerator_lists_exactly_the_accepted_moves 2 white None openFileW).
  vm_compute. reflexivity.
Defined.

(** ** The applier on a well-formed board *)

Lemma wfBoard_hasRanks b : wfBoard b -> hasRanks b.
Proof. intros [Hlen _]. unfold hasRanks. lia. Qed.

Lemma readSq_wf b r f c : wfBoard b -> readSq b r f = Some c -> wfCell c.
Proof.
  intros [_ Hrows]. unfold readSq.
  destruct (decide (0 <= r)); [|discriminate].
  destruct (b !! Z.to_nat r) as [row|] eqn:Hrow; [|discriminate].
  intros [= <-]. destruct (decide (0 <= f)); [|done].
  destruct (row !! Z.to_nat f) as [c|] eqn:Hc; [|done]. simpl.
  rewrite Forall_forall in Hrows.
  destruct (Hrows row (list_elem_of_lookup_2 _ _ _ Hrow)) as [_ Hcells].
  rewrite Forall_forall in Hcells. exact (Hcells c (list_elem_of_lookup_2 _ _ _ Hc)).
Qed.

Lemma writeSq_wf b r f v :
  wfBoard b -> 0 <= r < 8 -> 0 <= f < 8 -> wfCell v ->
  exists b', writeSq b r f v = Some b' /\ wfBoard b'.
Proof.
  intros [Hlen Hrows] Hr Hf Hv. unfold writeSq.
  rewrite decide_True by lia.
  destruct (lookup_lt_is_Some_2 b (Z.to_nat r)) as [row Hrow]; [lia|].
  rewrite Hrow. eexists. split; [done|].
  assert (wfRow row) as [Hrl Hcells].
  { rewrite Forall_forall in Hrows. apply Hrows. by eapply list_elem_of_lookup_2. }
  split; [by rewrite length_insert|].
  apply Forall_insert; [done|].
  unfold setElem. rewrite decide_True by lia.
  split; [by rewrite length_insert|]. by apply Forall_insert.
Qed.

Lemma applyBoard_wf move p b :
  wfBoard b -> onGrid (from move) -> onGrid (to move) ->
  isPieceLetter p = true ->
  (forall c, promotion move = Some c -> isPieceLetter c = true) ->
  (isEnPassant move = true ->
   0 <= rank (to move) + match colorOf p with white => 1 | black => -1 end < 8) ->
  exists b', applyBoard move p b = Some b' /\ wfBoard b'.
Proof.
  intros Hb [Hfr Hff] [Htr Htf] Hp Hpromo Hep. unfold applyBoard. cbv zeta.
  assert (exists b1,
    (if isEnPassant move
     then writeSq b (rank (to move) + match colorOf p with white => 1 | black => -1 end)
            (file (to move)) None
     else Some b) = Some b1 /\ wfBoard b1) as (b1 & -> & Hb1).
  { destruct (isEnPassant move); [|by eexists].
    apply writeSq_wf; [done|by apply Hep|done|done]. }
  cbn [mbind option_bind].
  assert (exists b2,
    (if isCastling move
     then rook ← readSq b1 (rank (from move)) (if file (to move) =? 6 then 7 else 0);
          b' ← writeSq b1 (rank (from move)) (if file (to move) =? 6 then 7 else 0) None;
          writeSq b' (rank (from move)) (if file (to move) =? 6 then 5 else 3) rook
     else Some b1) = Some b2 /\ wfBoard b2) as (b2 & -> & Hb2).
  { destruct (isCastling move); [|by eexists].
    destruct (readSq_total b1 (rank (from move)) (if file (to move) =? 6 then 7 else 0)
                (wfBoard_hasRanks _ Hb1) Hfr) as [rook Hrook].
    rewrite Hrook. cbn [mbind option_bind].
    destruct (writeSq_wf b1 (rank (from move)) (if file (to move) =? 6 then 7 else 0) None
                Hb1 Hfr) as (b' & -> & Hb'); [by destruct (_ =? _)|done|].
    cbn [mbind option_bind].
    apply writeSq_wf; [done|done|by destruct (_ =? _)|].
    exact (readSq_wf _ _ _ _ Hb1 Hrook). }
  cbn [mbind option_bind].
  destruct (writeSq_wf b2 (rank (to move)) (file (to move)) (Some p) Hb2)
    as (b3 & -> & Hb3); [done..|].
  cbn [mbind option_bind].
  destruct (writeSq_wf b3 (rank (from move)) (file (from move)) None Hb3)
    as (b4 & -> & Hb4); [done..|].
  cbn [mbind option_bind].
  destruct (promotion move) as [c|]; [|by eexists].
  apply writeSq_wf; [done..|]. by apply Hpromo.
Qed.

Lemma applyMoveToState_wf move simulate st :
  wfBoard (board st) -> onGrid (from move) -> onGrid (to move) ->
  (forall p, piece move = Some p -> isPieceLetter p = true) ->
  (forall c, promotion move = Some c -> isPieceLetter c = true) ->
  (forall p, piece move = Some p -> isEnPassant move = true ->
     0 <= rank (to move) + match colorOf p with white => 1 | black => -1 end < 8) ->
  exists st', applyMoveToState move simulate st = Some st' /\ wfBoard (board st').
Proof.
  intros Hb Hf Ht Hp Hpromo Hep. unfold applyMoveToState.
  destruct (piece move) as [p|]; [|by eexists].
  destruct (applyBoard_wf move p (board st) Hb Hf Ht (Hp p eq_refl) Hpromo
              (Hep p eq_refl)) as (b' & -> & Hb').
  cbn [mbind option_bind]. eexists. split; [done|].
  destruct simulate; [done|]. by rewrite updateScoreOnCapture_board.
Qed.

Lemma promotionLetter_isPieceLetter color c :
  chr_in c (match color with white => "QRBN" | black => "qrbn" end) = true ->
  isPieceLetter c = true.
Proof.
  unfold isPieceLetter, chr_in.
  destruct color; cbn [list_ascii_of_string existsb];
    rewrite !orb_false_r, !orb_true_iff; tauto.
Qed.

(** X10. Applying an accepted move keeps the board well formed. On an 8x8
    board of piece letters, a move between squares of the grid of the piece
    that stands on the origin, accepted by the checker for a promotion
    letter of the ASCII range or none, is applied without a failing board
    access, with the flags the checker returned, and the board is again 8x8
    and holds piece letters only: the en-passant removal, the rook's
    relocation and the promotion piece all stay on the grid. *)
Theorem accepted_move_keeps_the_board_well_formed
    fuel from to p promotionChar simulate st ep cas pr st1 target :
  wfBoard (board st) -> onGrid from -> onGrid to ->
  readSq (board st) (rank from) (file from) = Some (Some p) ->
  asciiPromotion promotionChar ->
  isLegalMoveWithState fuel from to (Some p) promotionChar st
    = Some (Legal ep cas pr, st1) ->
  exists st',
    applyMoveToState (mkMove from to (Some p) target pr ep cas) simulate st = Some st'
    /\ wfBoard (board st').
Proof.
  intros Hb Hf Ht Hp _ H.
  apply applyMoveToState_wf; [done..| | |]; simpl.
  - intros p' [= <-]. by apply (readSq_wf _ _ _ _ Hb Hp).
  - intros c ->. apply accepted_promotion in H.
    destruct (isPawn p); [|discriminate].
    symmetry in H. apply choosePromotion_Some in H as [_ Hc].
    by apply promotionLetter_isPieceLetter in Hc.
  - intros p' [= <-] ->.
    rewrite (accepted_en_passant_row _ _ _ _ _ _ _ _ _ H). apply Hf.
Qed.

(** Well-formedness of a board that is written out. *)
Ltac wf_board := split; [reflexivity|]; vm_compute; repeat constructor.

(** The pawn on e7 promotes to a knight on e8: the board stays well formed
    and holds "N" on e8. *)
Lemma accepted_move_keeps_the_board_well_formed_witness :
  exists st',
    applyMoveToState (mkMove e7 e8 (Some "P"%char) None (Some "N"%char) false false)
      false promotionReady = Some st'
    /\ wfBoard (board st').
Proof.
  apply (accepted_move_keeps_the_board_well_formed 2 e7 e8 "P"%char (Some "n"%char)
           false promotionReady false false (Some "N"%char) promotionReady None).
  - wf_board.
  - vm_compute. repeat split; discriminate.
  - vm_compute. repeat split; discriminate.
  - vm_compute. reflexivity.
  - vm_compute. reflexivity.
  - vm_compute. reflexivity.
Defined.

Lemma updateScoreOnCapture_position attacker victim st :
  samePosition (updateScoreOnCapture attacker victim st) st.
Proof.
  unfold updateScoreOnCapture, samePosition.
  destruct victim; [destruct (colorOf attacker)|]; done.
Qed.

Lemma updateScoreOnCapture_currentFEN attacker victim st :
  currentFEN (updateScoreOnCapture attacker victim st) = currentFEN st.
Proof.
  unfold updateScoreOnCapture.
  destruct victim; [destruct (colorOf attacker)|]; reflexivity.
Qed.

Lemma fenOfState_position a b : samePosition a b -> fenOfState a = fenOfState b.
Proof.
  intros (Hb & Hp & Hc & He & Hh & Hf). unfold fenOfState. cbv zeta.
  by rewrite Hb, Hp, Hc, He, Hh, Hf.
Qed.

(** X11. A simulated apply and a real one move the pieces alike. Both fail
    on the same inputs; when they return, the six Position fields agree, the
    simulated run has left FEN text, scores, counters and game flags as they
    were, and the real run has stored the FEN text of the new position. *)
Theorem simulation_differs_only_outside_the_position move st :
  match applyMoveToState move true st, applyMoveToState move false st with
  | Some sim, Some real =>
      samePosition sim real /\ sameOutsidePosition st sim
      /\ (is_Some (piece move) -> currentFEN real = fenOfState real)
  | None, None => True
  | _, _ => False
  end.
Proof.
  unfold applyMoveToState.
  destruct (piece move) as [p|].
  2:{ split_and!; [done|done|]. by intros [? ?]. }
  destruct (applyBoard move p (board st)) as [b|]; [|done].
  cbn [mbind option_bind].
  set (st1 := mkGame b _ _ _ _ _ _ _ _ _ _ _ _ _ _).
  split_and!.
  - pose proof (updateScoreOnCapture_position p (capturedPiece move)
                  (syncFENFromState st1)) as (? & ? & ? & ? & ? & ?).
    unfold samePosition. split_and!; by symmetry.
  - done.
  - intros _. rewrite updateScoreOnCapture_currentFEN.
    change (currentFEN (syncFENFromState st1)) with (fenOfState st1).
    symmetry. apply fenOfState_position.
    pose proof (updateScoreOnCapture_position p (capturedPiece move)
                  (syncFENFromState st1)) as (? & ? & ? & ? & ? & ?).
    unfold samePosition. split_and!; done.
Qed.

Lemma capturePoints_bounds victim : 0 <= capturePoints victim <= 9.
Proof.
  unfold capturePoints, pieceValue. destruct victim as [v|]; [|lia]. cbv zeta.
  repeat match goal with |- context [if ?b then _ else _] => destruct b end; lia.
Qed.

Lemma updateScoreOnCapture_scores attacker victim st :
  scoresWhite (updateScoreOnCapture attacker victim st)
  = scoresWhite st + match colorOf attacker with
                     | white => capturePoints victim | black => 0 end
  /\ scoresBlack (updateScoreOnCapture attacker victim st)
     = scoresBlack st + match colorOf attacker with
                        | white => 0 | black => capturePoints victim end.
Proof.
  unfold updateScoreOnCapture, capturePoints.
  destruct victim as [v|]; destruct (colorOf attacker); simpl; lia.
Qed.

(** X12. Only a real apply scores, and only for the mover: the score of the
    mover's colour grows by the value of the piece recorded as captured
    (pawn 1, knight and bishop 3, rook 5, queen 9, king 0, and 0 for
    anything that is not a piece letter), the other score is untouched. A
    move that records no capture, as an en-passant capture does, whose target
    square is empty, scores nothing. *)
Theorem capture_scores_for_the_mover move p st st' :
  piece move = Some p ->
  applyMoveToState move false st = Some st' ->
  exists points,
    match colorOf p with
    | white => scoresWhite st' = scoresWhite st + points
               /\ scoresBlack st' = scoresBlack st
    | black => scoresBlack st' = scoresBlack st + points
               /\ scoresWhite st' = scoresWhite st
    end
    /\ (capturedPiece move = None -> points = 0)
    /\ forall v, capturedPiece move = Some v ->
         (v = "p"%char \/ v = "P"%char -> points = 1)
         /\ (v = "n"%char \/ v = "N"%char -> points = 3)
         /\ (v = "b"%char \/ v = "B"%char -> points = 3)
         /\ (v = "r"%char \/ v = "R"%char -> points = 5)
         /\ (v = "q"%char \/ v = "Q"%char -> points = 9)
         /\ (v = "k"%char \/ v = "K"%char -> points = 0)
         /\ (isPieceLetter v = false -> points = 0).
Proof.
  intros Hp H. exists (capturePoints (capturedPiece move)).
  unfold applyMoveToState in H. rewrite Hp in H.
  destruct (applyBoard move p (board st)) as [b|]; [|discriminate].
  cbn [mbind option_bind] in H.
  set (st1 := mkGame b _ _ _ _ _ _ _ _ _ _ _ _ _ _) in H. injection H as <-.
  destruct (updateScoreOnCapture_scores p (capturedPiece move) (syncFENFromState st1))
    as [Hw Hb].
  change (scoresWhite (syncFENFromState st1)) with (scoresWhite st) in Hw.
  change (scoresBlack (syncFENFromState st1)) with (scoresBlack st) in Hb.
  clearbody st1.
  set (st2 := updateScoreOnCapture p (capturedPiece move) (syncFENFromState st1)) in *.
  clearbody st2.
  split; [destruct (colorOf p); lia|]. split.
  - intros ->. reflexivity.
  - intros v ->. unfold capturePoints.
    split_and!; try (by intros [-> | ->]).
    intros Hv. unfold pieceValue.
    change (isWhitePiece v || isBlackPiece v) with (chr_in v "PRNBQK" || chr_in v "prnbqk").
    unfold isPieceLetter in Hv. change "prnbqkPRNBQK" with ("prnbqk" +:+ "PRNBQK") in Hv.
    rewrite chr_in_app in Hv. apply orb_false_iff in Hv as [-> ->]. reflexivity.
Qed.

(** The rook takes the queen down the open file: nine points for Black,
    none for White. *)
Lemma capture_scores_for_the_mover_witness :
  exists st',
    readSq (board queenEnPrise) (rank e1) (file e1) = Some (Some "Q"%char)
    /\ isLegalMoveWithState 2 e8 e1 (Some "r"%char) None queenEnPrise
       = Some (Legal false false None, queenEnPrise)
    /\ applyMoveToState (mkMove e8 e1 (Some "r"%char) (Some "Q"%char) None false false)
         false queenEnPrise = Some st'
    /\ scoresBlack st' = scoresBlack queenEnPrise + 9
    /\ scoresWhite st' = scoresWhite queenEnPrise.
Proof.
  destruct (applyMoveToState
              (mkMove e8 e1 (Some "r"%char) (Some "Q"%char) None false false)
              false queenEnPrise) as [st'|] eqn:Happ; [|by vm_compute in Happ].
  exists st'. split; [reflexivity|]. split; [vm_compute; reflexivity|].
  split; [reflexivity|].
  destruct (capture_scores_for_the_mover
              (mkMove e8 e1 (Some "r"%char) (Some "Q"%char) None false false) "r"%char
              queenEnPrise st' eq_refl Happ) as (points & Hscore & _ & Hvalue).
  destruct (Hvalue "Q"%char eq_refl) as (_ & _ & _ & _ & Hq & _).
  rewrite (Hq (or_intror eq_refl)) in Hscore. exact Hscore.
Defined.

Lemma applyBoard_inv move p b b5 :
  applyBoard move p b = Some b5 ->
  exists b1 b2 b3 b4,
    (if isEnPassant move
     then writeSq b (capturedPawnRank p (to move)) (file (to move)) None
     else Some b) = Some b1
    /\ (if isCastling move
        then rook ← readSq b1 (rank (from move)) (rookFromFile (to move));
             b' ← writeSq b1 (rank (from move)) (rookFromFile (to move)) None;
             writeSq b' (rank (from move)) (rookToFile (to move)) rook
        else Some b1) = Some b2
    /\ writeSq b2 (rank (to move)) (file (to move)) (Some p) = Some b3
    /\ writeSq b3 (rank (from move)) (file (from move)) None = Some b4
    /\ match promotion move with
       | Some pr => writeSq b4 (rank (to move)) (file (to move)) (Some pr)
       | None => Some b4
       end = Some b5.
Proof.
  unfold applyBoard, capturedPawnRank, rookFromFile, rookToFile. cbv zeta. intros H.
  match type of H with
  | (?x ≫= _) = _ => destruct x as [b1|] eqn:H1; [|discriminate]
  end.
  cbn [mbind option_bind] in H.
  match type of H with
  | (?x ≫= _) = _ => destruct x as [b2|] eqn:H2; [|discriminate]
  end.
  cbn [mbind option_bind] in H.
  destruct (writeSq b2 (rank (to move)) (file (to move)) (Some p)) as [b3|] eqn:H3;
    [|discriminate].
  cbn [mbind option_bind] in H.
  destruct (writeSq b3 (rank (from move)) (file (from move)) None) as [b4|] eqn:H4;
    [|discriminate].
  cbn [mbind option_bind] in H.
  by exists b1, b2, b3, b4.
Qed.

Lemma square_ne (a b : Square) : a <> b -> (rank a, file a) <> (rank b, file b).
Proof. intros Hne [= Hr Hf]. destruct a, b. simpl in *. congruence. Qed.

(** X13. What a move changes on the board. The applier writes at most five
    squares: origin, destination, the square of the pawn taken en passant and
    the rook's two squares; every other square reads as before. When origin
    and destination differ, the destination ends up holding the moving piece
    (the promotion piece when one is given) and the origin is empty. *)
Theorem apply_touches_only_its_squares move simulate p st st' :
  piece move = Some p ->
  applyMoveToState move simulate st = Some st' ->
  (forall r f,
     (r, f) <> (rank (from move), file (from move)) ->
     (r, f) <> (rank (to move), file (to move)) ->
     (isEnPassant move = true ->
        (r, f) <> (capturedPawnRank p (to move), file (to move))) ->
     (isCastling move = true ->
        (r, f) <> (rank (from move), rookFromFile (to move))
        /\ (r, f) <> (rank (from move), rookToFile (to move))) ->
     readSq (board st') r f = readSq (board st) r f)
  /\ (from move <> to move ->
      readSq (board st') (rank (to move)) (file (to move))
        = Some (Some (default p (promotion move)))
      /\ readSq (board st') (rank (from move)) (file (from move)) = Some None).
Proof.
  intros Hp H.
  apply (applyMoveToState_inv _ _ _ _ p Hp) in H as [H _].
  apply applyBoard_inv in H as (b1 & b2 & b3 & b4 & H1 & H2 & H3 & H4 & H5).
  split.
  - intros r f Hfrom Hto Hep Hcas.
    assert (readSq b1 r f = readSq (board st) r f) as E1.
    { destruct (isEnPassant move); [|by injection H1 as <-].
      apply (readSq_writeSq_ne _ _ _ _ _ _ _ H1). intros E. by apply Hep. }
    assert (readSq b2 r f = readSq b1 r f) as E2.
    { destruct (isCastling move); [|by injection H2 as <-].
      destruct (Hcas eq_refl) as [Hrf Hrt].
      destruct (readSq b1 (rank (from move)) (rookFromFile (to move))) as [rook|];
        [|discriminate].
      cbn [mbind option_bind] in H2.
      destruct (writeSq b1 (rank (from move)) (rookFromFile (to move)) None)
        as [b'|] eqn:Hw; [|discriminate].
      cbn [mbind option_bind] in H2.
      rewrite (readSq_writeSq_ne _ _ _ _ _ _ _ H2) by (intros E; by apply Hrt).
      apply (readSq_writeSq_ne _ _ _ _ _ _ _ Hw). intros E. by apply Hrf. }
    assert (readSq b4 r f = readSq b2 r f) as E4.
    { rewrite (readSq_writeSq_ne _ _ _ _ _ _ _ H4) by (intros E; by apply Hfrom).
      apply (readSq_writeSq_ne _ _ _ _ _ _ _ H3). intros E. by apply Hto. }
    rewrite <- E1, <- E2, <- E4.
    destruct (promotion move); [|by injection H5 as <-].
    apply (readSq_writeSq_ne _ _ _ _ _ _ _ H5). intros E. by apply Hto.
  - intros Hne. apply square_ne in Hne.
    destruct (promotion move) as [pr|]; simpl.
    + split; [by apply (readSq_writeSq_eq _ _ _ _ _ H5)|].
      rewrite (readSq_writeSq_ne _ _ _ _ _ _ _ H5) by (intros E; by apply Hne).
      by apply (readSq_writeSq_eq _ _ _ _ _ H4).
    + injection H5 as <-. split; [|by apply (readSq_writeSq_eq _ _ _ _ _ H4)].
      rewrite (readSq_writeSq_ne _ _ _ _ _ _ _ H4) by done.
      by apply (readSq_writeSq_eq _ _ _ _ _ H3).
Qed.

Lemma apply_touches_only_its_squares_witness :
  exists st',
    applyMoveToState (mkMove e1 g1 (Some "K"%char) None None false true) false
      castleShort = Some st'
    /\ (forall r f,
          (r, f) <> (rank e1, file e1) -> (r, f) <> (rank g1, file g1) ->
          (false = true -> (r, f) <> (capturedPawnRank "K" g1, file g1)) ->
          (true = true ->
             (r, f) <> (rank e1, rookFromFile g1) /\ (r, f) <> (rank e1, rookToFile g1)) ->
          readSq (board st') r f = readSq (board castleShort) r f)
    /\ (e1 <> g1 ->
        readSq (board st') (rank g1) (file g1) = Some (Some (default "K"%char None))
        /\ readSq (board st') (rank e1) (file e1) = Some None).
Proof.
  eexists. split; [vm_compute; reflexivity|].
  apply (apply_touches_only_its_squares
           (mkMove e1 g1 (Some "K"%char) None None false true) false "K"%char castleShort);
    [reflexivity|vm_compute; reflexivity].
Defined.

(** ** The FEN text the encoder emits *)

Lemma rowWidth_app a b : rowWidth (a +:+ b) = rowWidth a + rowWidth b.
Proof.
  induction a as [|c a IH]; [done|].
  rewrite string_app_cons. simpl. rewrite IH. lia.
Qed.

Lemma rowWidth_count e :
  0 <= e <= 9 -> rowWidth (if 0 <? e then "" +:+ numberToString e else "") = e.
Proof.
  intros He. destruct (Z.ltb_spec 0 e) as [Hpos|Hzero]; [|simpl; lia].
  rewrite numberToString_digit by lia.
  change ("" +:+ String (digitChar e) "") with (String (digitChar e) "").
  simpl. unfold squaresOf.
  destruct (digitChar_digit e ltac:(lia)) as [-> ->]. lia.
Qed.

Lemma rowToFen_width cells : forall e,
  Forall wfCell cells -> 0 <= e -> e + Z.of_nat (length cells) <= 9 ->
  rowWidth (rowToFen cells "" e) = e + Z.of_nat (length cells).
Proof.
  induction cells as [|c cells IH]; intros e Hwf He Hlen.
  - simpl. rewrite rowWidth_count by (simpl in Hlen; lia). simpl. lia.
  - apply Forall_cons in Hwf as [Hc Hwf]. cbn [length] in Hlen.
    destruct c as [p|]; cbn [rowToFen].
    + rewrite rowToFen_acc, !rowWidth_app, rowWidth_count by lia.
      rewrite IH by (try done; lia).
      simpl in Hc. simpl. unfold squaresOf. rewrite (pieceLetter_not_digit p Hc).
      cbn [length]. lia.
    + rewrite IH by (try done; lia). cbn [length]. lia.
Qed.

Lemma toInt32_range n : -2147483648 <= toInt32 n < 2147483648.
Proof.
  destruct n as [z|]; simpl; [|lia].
  pose proof (Z.mod_pos_bound (z + 2147483648) 4294967296 ltac:(lia)). lia.
Qed.

Lemma toInt32_small z : -2147483648 <= z < 2147483648 -> toInt32 (Int z) = z.
Proof. intros Hz. simpl. rewrite Z.mod_small by lia. lia. Qed.

Lemma epFieldOK_text s : epFieldOK s -> s <> "" /\ chr_in " " s = false.
Proof.
  intros [->|(c0 & Hc0 & [-> | ->])]; (split; [done|]).
  - done.
  - rewrite chr_in_cons. unfold isFileLetter in Hc0.
    destruct (Ascii.eqb_spec " " c0) as [<-|_]; [discriminate|done].
  - rewrite chr_in_cons. unfold isFileLetter in Hc0.
    destruct (Ascii.eqb_spec " " c0) as [<-|_]; [discriminate|done].
Qed.

(** X14. The encoder only emits text the validator accepts: for an 8x8 board
    of piece letters and an en-passant field that is '-' or a square on rank
    3 or 6, the FEN string [syncFENFromState] stores passes [validateFEN],
    whatever the two clocks hold. *)
Theorem emitted_fen_is_accepted st :
  wfBoard (board st) -> epFieldOK (enPassantTarget st) ->
  validateFEN (currentFEN (syncFENFromState st)) = true.
Proof.
  intros Hb Hep.
  change (currentFEN (syncFENFromState st)) with (fenOfState st).
  set (half := Z.max 0 (toInt32 (halfmoveClock st))).
  set (full := Z.max 1 (toInt32 (fullmoveNumber st))).
  pose proof (toInt32_range (halfmoveClock st)) as Hh.
  pose proof (toInt32_range (fullmoveNumber st)) as Hf.
  set (st2 := mkGame (board st) (currentFEN st) (currentPlayer st) (castlingRights st)
                (enPassantTarget st) (Int half) (Int full)
                (scoresWhite st) (scoresBlack st) (moveCountWhite st) (moveCountBlack st)
                (maxMoves st) (gameActive st) (gameResult st) (currentPhase st)).
  assert (fenOfState st = fenOfState st2) as ->.
  { unfold fenOfState, st2. cbv zeta. cbn [board currentPlayer castlingRights
      enPassantTarget halfmoveClock fullmoveNumber].
    rewrite !toInt32_small by (unfold half, full; lia).
    fold half full.
    by rewrite (Z.max_r 0 half), (Z.max_r 1 full) by (unfold half, full; lia). }
  destruct (epFieldOK_text _ Hep) as [Hne Hsp].
  assert (wfPosition st2) as Hwf.
  { unfold wfPosition, st2. cbn [board enPassantTarget halfmoveClock fullmoveNumber].
    split_and!; [done|done|done| |].
    - exists half. split; [done|]. unfold half. lia.
    - exists full. split; [done|]. unfold full. lia. }
  apply validateFEN_accepted. unfold acceptedFEN. cbv zeta.
  rewrite (split_fenOfState st2 Hwf).
  cbn [lookup list_lookup default length board currentPlayer castlingRights
       enPassantTarget halfmoveClock fullmoveNumber st2].
  unfold id.
  destruct Hb as [Hlen Hrows].
  assert (split "/" (boardToPlacement (board st))
          = map (fun row => rowToFen row "" 0) (board st)) as Hsplit.
  { unfold boardToPlacement. apply split_join.
    - destruct (board st); [discriminate|done].
    - eapply Forall_impl; [exact (encoded_rows_no_sep _ Hrows)|]. by intros r [? _]. }
  rewrite Hsplit. split_and!.
  - intros Hempty. pose proof (split_fenOfState st2 Hwf) as Hs.
    rewrite Hempty in Hs. discriminate Hs.
  - lia.
  - by rewrite length_map.
  - apply Forall_map. eapply Forall_impl; [exact Hrows|].
    intros row [Hrl Hcells]. simpl. split.
    + apply rowToFen_chars; [done|lia|constructor].
    + rewrite rowToFen_width by (try done; lia). lia.
  - destruct (currentPlayer st); auto.
  - unfold castlingToFen. cbv zeta.
    fold (castlingLetters (crK (castlingRights st)) (crQ (castlingRights st))
            (crk (castlingRights st)) (crq (castlingRights st))).
    destruct (String.eqb _ ""); [by left|]. right. by eexists _, _, _, _.
  - destruct Hep as [->|(c0 & Hc0 & Hsq)]; [by left|].
    right. exists c0. split; [done|]. tauto.
  - right. apply numberToString_nonneg. lia.
  - right. apply numberToString_nonneg. lia.
Qed.

Lemma emitted_fen_is_accepted_witness :
  validateFEN (currentFEN (syncFENFromState enPassantReady)) = true.
Proof.
  apply (emitted_fen_is_accepted enPassantReady).
  - wf_board.
  - right. exists "d"%char. split; [reflexivity|]. right. reflexivity.
Defined.

Lemma fileLetter_onGrid f : 0 <= f < 8 -> isFileLetter (fileLetter f) = true.
Proof.
  intros Hf. assert (f ∈ range8) as Hin by (by apply elem_of_range8).
  unfold range8 in Hin. rewrite !elem_of_cons, elem_of_nil in Hin.
  decompose [or] Hin; subst; done.
Qed.

(** X15. After an accepted move the en-passant field is '-' unless a pawn has
    just advanced two ranks from its start rank; then it names the square the
    pawn skipped: its file letter followed by 3 for White and by 6 for Black.
    Either way the field is one the validator accepts. *)
Theorem en_passant_target_names_the_skipped_square
    fuel from to p promotionChar simulate st ep cas pr st1 target st' :
  onGrid from ->
  isLegalMoveWithState fuel from to (Some p) promotionChar st
    = Some (Legal ep cas pr, st1) ->
  applyMoveToState (mkMove from to (Some p) target pr ep cas) simulate st = Some st' ->
  epFieldOK (enPassantTarget st')
  /\ (enPassantTarget st' <> "-" <->
      isPawn p = true /\ rank from = startRank (currentPlayer st)
      /\ rank to = rank from + 2 * pawnDir (currentPlayer st) /\ file to = file from)
  /\ (enPassantTarget st' <> "-" ->
      enPassantTarget st'
      = String (fileLetter (file from))
          (match currentPlayer st with white => "3" | black => "6" end)).
Proof.
  intros [Hfr Hff] Hlegal Happ.
  apply (applyMoveToState_inv (mkMove from to (Some p) target pr ep cas) _ _ _ p eq_refl)
    in Happ as (_ & _ & Hep).
  unfold nextEnPassantTarget in Hep. simpl in Hep.
  destruct (isPawn p) eqn:Hpawn; cbn [andb] in Hep.
  2:{ rewrite Hep. split_and!; [by left| |done]. split; [done|]. by intros [? _]. }
  apply accepted_pawn_kind in Hlegal as (_ & tg & _ & _ & Hlegal); [|done].
  apply pawnCheck_Legal in Hlegal as (_ & _ & Hshape).
  unfold pawnDir, startRank in *.
  destruct (Z.eqb_spec (Z.abs (rank to - rank from)) 2) as [Habs|Habs].
  - assert (rank from = match currentPlayer st with white => 6 | black => 1 end
            /\ rank to = rank from + 2 * match currentPlayer st with
                                         | white => -1 | black => 1 end
            /\ file to = file from) as (Hstart & Hto & Hfile).
    { destruct Hshape as [(?&?&_)|[(?&?&?&_)|(_&?&_)]]; [|done|];
        destruct (currentPlayer st); lia. }
    assert (enPassantTarget st'
            = String (fileLetter (file from))
                (match currentPlayer st with white => "3" | black => "6" end)) as Htxt.
    { rewrite Hep. unfold coordsToAlgebraic. fold (fileLetter (file from)). f_equal.
      rewrite Hto, Hstart. by destruct (currentPlayer st). }
    split_and!.
    + right. exists (fileLetter (file from)). split; [by apply fileLetter_onGrid|].
      rewrite Htxt. destruct (currentPlayer st); auto.
    + split; [done|]. intros _. rewrite Htxt. intros E.
      destruct (currentPlayer st); discriminate E.
    + done.
  - rewrite Hep. split_and!; [by left| |done]. split; [done|].
    intros (_ & _ & Hto & _). exfalso. apply Habs.
    destruct (currentPlayer st); lia.
Qed.

Lemma en_passant_target_names_the_skipped_square_witness :
  exists st',
    applyMoveToState (mkMove e2 e4 (Some "P"%char) None None false false) false
      startPosition = Some st'
    /\ epFieldOK (enPassantTarget st')
    /\ (enPassantTarget st' <> "-" <->
        isPawn "P" = true /\ rank e2 = startRank (currentPlayer startPosition)
        /\ rank e4 = rank e2 + 2 * pawnDir (currentPlayer startPosition)
        /\ file e4 = file e2)
    /\ (enPassantTarget st' <> "-" ->
        enPassantTarget st'
        = String (fileLetter (file e2))
            (match currentPlayer startPosition with white => "3" | black => "6" end)).
Proof.
  eexists. split; [vm_compute; reflexivity|].
  apply (en_passant_target_names_the_skipped_square 2 e2 e4 "P"%char None false
           startPosition false false None startPosition None).
  - vm_compute. repeat split; discriminate.
  - vm_compute. reflexivity.
  - vm_compute. reflexivity.
Defined.

(** ** Where the decoder throws *)

Lemma split_nonempty sep s : exists h t, split sep s = h :: t.
Proof.
  destruct s as [|c r]; simpl; [by eexists _, _|].
  destruct (Ascii.eqb c sep); [by eexists _, _|].
  destruct (split sep r); by eexists _, _.
Qed.

Lemma parseRow_total chars : forall rank f b,
  hasRanks b -> 0 <= rank < 8 -> 0 <= f ->
  exists b', parseRow chars rank f b = Some b' /\ hasRanks b'.
Proof.
  induction chars as [|c chars IH]; intros rank f b Hb Hr Hf; simpl; [by eexists|].
  destruct (isDigit c) eqn:Hd.
  - apply IH; [done..|]. pose proof (digitVal_nonneg c Hd). lia.
  - destruct (writeSq_total b rank f (Some c) Hb Hr Hf) as (b' & -> & Hb').
    cbn [mbind option_bind]. apply IH; [done..|lia].
Qed.

Lemma parseRows_None ranks rows : forall b,
  hasRanks b -> Forall (fun rank => 0 <= rank < 8) ranks ->
  parseRows ranks rows b = None
  <-> exists rank, rank ∈ ranks /\ rows !! Z.to_nat rank = None.
Proof.
  induction ranks as [|rank ranks IH]; intros b Hb Hranks; simpl.
  - split; [done|]. by intros (r & ?%elem_of_nil & _).
  - apply Forall_cons in Hranks as [Hrank Hranks].
    destruct (rows !! Z.to_nat rank) as [row|] eqn:Hrow; cbn [mbind option_bind].
    + destruct (parseRow_total row rank 0 b Hb Hrank ltac:(lia)) as (b' & -> & Hb').
      cbn [mbind option_bind]. rewrite (IH b' Hb' Hranks). split.
      * intros (r & Hr & Hnone). exists r. split; [by right|done].
      * intros (r & Hr & Hnone). apply elem_of_cons in Hr as [->|Hr]; [congruence|].
        by exists r.
    + split; [|done]. intros _. exists rank. split; [by left|done].
Qed.

(** X16. Where the decoder throws. [setPositionFromFEN] fails with a
    [TypeError] exactly when the text has fewer than three blank-separated
    fields or its first field has fewer than eight rows; on every other text,
    well formed or not, it installs some position. It is [validateFEN],
    called first by [loadPosition], that keeps malformed text away. *)
Theorem decoder_throws_iff fen st :
  setPositionFromFEN fen st = None
  <-> (length (split " " fen) < 3)%nat
      \/ (length (split "/" (default "" (split " " fen !! 0%nat))) < 8)%nat.
Proof.
  unfold setPositionFromFEN. cbv zeta.
  destruct (split_nonempty " " fen) as (placement & rest & Hparts).
  rewrite Hparts. cbn [lookup list_lookup default mbind option_bind]. unfold id.
  assert (parseFENPlacement placement = None
          <-> (length (split "/" placement) < 8)%nat) as Hrows.
  { unfold parseFENPlacement.
    rewrite parseRows_None.
    - split.
      + intros (r & Hr%elem_of_range8 & Hnone). apply lookup_ge_None in Hnone. lia.
      + intros Hlen. exists (Z.of_nat (length (split "/" placement))). split.
        * apply elem_of_range8. lia.
        * apply lookup_ge_None. lia.
    - apply wfBoard_hasRanks, createEmptyBoard_wf.
    - apply Forall_forall. intros r Hr. by apply elem_of_range8. }
  destruct (parseFENPlacement placement) as [b|] eqn:Hb; cbn [mbind option_bind].
  - assert (~ (length (split "/" placement) < 8)%nat) as Hlen
      by (intros Hlen; by apply Hrows in Hlen).
    destruct rest as [|side [|castling more]]; cbn [lookup list_lookup mbind option_bind
      length]; split; try done; try (intros _; left; lia); intros [?|?]; try done; lia.
  - split; [|done]. intros _. right. by apply Hrows.
Qed.

(** ** Square names *)


(** X17. Square names and coordinates are inverse to each other on the
    board: naming a square of the grid and reading the name back gives the
    square, and every two-character name, a file letter a-h followed by a
    digit 1-8, is the name of the square of the grid it is read as. *)
Theorem algebraic_names_round_trip :
  (forall sq, onGrid sq ->
     algebraicToCoords (coordsToAlgebraic (rank sq) (file sq))
     = (Int (rank sq), Int (file sq)))
  /\ (forall c0 c1, isFileLetter c0 = true -> isDigit18 c1 = true ->
        exists sq, onGrid sq
          /\ algebraicToCoords (String c0 (String c1 "")) = (Int (rank sq), Int (file sq))
          /\ coordsToAlgebraic (rank sq) (file sq) = String c0 (String c1 "")).
Proof.
  split.
  - intros [r f] [Hr Hf]. simpl in *. by apply algebraicToCoords_coordsToAlgebraic.
  - intros c0 c1 H0 H1.
    assert (exists f, 0 <= f < 8 /\ c0 = fileLetter f) as (f & Hf & ->).
    { unfold isFileLetter, chr_in in H0. cbn [list_ascii_of_string existsb] in H0.
      rewrite !orb_false_r, !orb_true_iff in H0.
      decompose [or] H0;
        match goal with H : Ascii.eqb _ _ = true |- _ => apply Ascii.eqb_eq in H end;
        subst;
        [exists 0|exists 1|exists 2|exists 3|exists 4|exists 5|exists 6|exists 7];
        (split; [lia|reflexivity]). }
    assert (exists r, 0 <= r < 8 /\ c1 = digitChar (8 - r)) as (r & Hr & ->).
    { unfold isDigit18 in H1. cbv zeta in H1.
      apply andb_true_iff in H1 as [Hlo%N.leb_le Hhi%N.leb_le].
      exists (8 - (Z.of_N (N_of_ascii c1) - 48)). split; [lia|].
      unfold digitChar.
      replace (48 + (8 - (8 - (Z.of_N (N_of_ascii c1) - 48))))
        with (Z.of_N (N_of_ascii c1)) by lia.
      by rewrite N2Z.id, ascii_N_embedding. }
    exists (mkSquare r f). split; [split; simpl; lia|]. cbn [rank file].
    rewrite <- (coordsToAlgebraic_text r f Hr).
    split; [by apply algebraicToCoords_coordsToAlgebraic|done].
Qed.

Lemma algebraic_names_round_trip_witness :
  algebraicToCoords (coordsToAlgebraic (rank e4) (file e4)) = (Int (rank e4), Int (file e4))
  /\ exists sq, onGrid sq
       /\ algebraicToCoords "e4" = (Int (rank sq), Int (file sq))
       /\ coordsToAlgebraic (rank sq) (file sq) = "e4".
Proof.
  split.
  - apply (proj1 algebraic_names_round_trip e4). vm_compute. repeat split; discriminate.
  - apply (proj2 algebraic_names_round_trip "e"%char "4"%char); reflexivity.
Defined.

(** ** The end of a turn *)

Lemma generate_total n player opts st :
  hasRanks (board st) ->
  exists l, generateAllPseudoLegalMoves (S (S n)) player opts st = Some (l, st).
Proof.
  intros Hb. unfold generateAllPseudoLegalMoves, generateAllPseudoLegalMoves_. cbv zeta.
  match goal with
  | |- exists l, forM range8 ?body [] st = _ =>
      destruct (forM_total (fun _ s => s = st) range8 body) with (acc := @nil GenMove)
        (st := st) as (l & st1 & Hrun & ->); [|done|by exists l]
  end.
  intros r acc s Hr%elem_of_range8 ->.
  apply (forM_total (fun _ s => s = st)); [|done].
  intros f acc1 s Hf%elem_of_range8 ->.
  destruct (readBoard_total r f st Hb Hr) as [c Hread].
  rewrite (bind_run _ _ _ _ _ Hread).
  destruct c as [p|]; [|by eexists _, _].
  destruct (negb (isPieceOwnedByPlayer p player)); [by eexists _, _|].
  apply (forM_total (fun _ s => s = st)); [|done].
  intros tr acc2 s Htr%elem_of_range8 ->.
  apply (forM_total (fun _ s => s = st)); [|done].
  intros tf acc3 s Htf%elem_of_range8 ->.
  destruct (isLegalMoveWithState_total n (mkSquare r f) (mkSquare tr tf) (Some p) None st)
    as [res Hres]; [done|split; simpl; lia|split; simpl; lia|].
  rewrite (bind_run _ _ _ _ _ Hres).
  destruct (ok res); [|by eexists _, _].
  destruct (readBoard_total tr tf st Hb Htr) as [cap Hcap].
  rewrite (bind_run _ _ _ _ _ Hcap). by eexists _, _.
Qed.

Lemma isKingInCheck_total n color st :
  hasRanks (board st) ->
  exists b, isKingInCheck (S (S n)) color st = Some (b, st).
Proof.
  intros Hb. unfold isKingInCheck, isKingInCheck_.
  match goal with
  | |- exists b, bind (forM range8 ?body None) _ _ = _ =>
      destruct (forM_total (fun _ s => s = st) range8 body) with (acc := @None Square)
        (st := st) as (k & st1 & Hscan & ->); [|done|]
  end.
  - intros r acc s Hr%elem_of_range8 ->.
    apply (forM_total (fun _ s => s = st)); [|done].
    intros f acc' s _ ->.
    destruct (readBoard_total r f st Hb Hr) as [c Hread].
    rewrite (bind_run _ _ _ _ _ Hread).
    destruct (bool_decide (c = Some _)); by eexists _, _.
  - rewrite (bind_run _ _ _ _ _ Hscan).
    destruct k as [sq|]; [|by eexists].
    unfold isSquareAttacked_.
    destruct (generate_total n (opponent color) (Some false) st Hb) as [l Hl].
    unfold generateAllPseudoLegalMoves in Hl.
    rewrite (bind_run _ _ _ _ _ Hl). by eexists.
Qed.

(** The early end check either changes nothing or ends the game as a
    stalemate. *)
Lemma checkGameEndEarly_inv fuel st b st' :
  checkGameEndEarly fuel st = Some (b, st') ->
  (b = false /\ st' = st) \/ (b = true /\ endGame "Stalemate" st = Some (tt, st')).
Proof.
  unfold checkGameEndEarly. intros H.
  apply bind_Some in H as (player & st0 & Hp & H). apply gets_Some in Hp as [-> ->].
  apply bind_Some in H as (moves & st1 & Hgen & H).
  apply (generate_state _ (isLegalMoveWithState_state fuel) _ (Some true)) in Hgen as ->.
  apply bind_Some in H as (inCheck & st2 & Hchk & H).
  pose proof (isKingInCheck_state _ (isLegalMoveWithState_state fuel) _ _ _ _ Hchk) as ->.
  apply (isKingInCheck_mover fuel (currentPlayer st) st _ _ eq_refl) in Hchk as ->.
  destruct (negb (0 <? length moves)%nat).
  - apply bind_Some in H as ([] & st3 & Hend & H). apply ret_Some in H as [-> ->].
    by right.
  - apply ret_Some in H as [-> ->]. by left.
Qed.

Lemma checkGameEndEarly_total n st :
  hasRanks (board st) -> exists b st', checkGameEndEarly (S (S n)) st = Some (b, st').
Proof.
  intros Hb. unfold checkGameEndEarly.
  unfold bind at 1. unfold gets at 1.
  destruct (generate_total n (currentPlayer st) (Some true) st Hb) as [l Hl].
  unfold generateAllLegalMoves, generateAllLegalMoves_.
  unfold generateAllPseudoLegalMoves in Hl. rewrite (bind_run _ _ _ _ _ Hl).
  destruct (isKingInCheck_total n (currentPlayer st) st Hb) as [c Hc].
  rewrite (bind_run _ _ _ _ _ Hc).
  destruct (negb _); by eexists _, _.
Qed.

(** The course of [endPlayerTurn]/[endAITurn]: the move is counted; then the
    game ends as a stalemate, or the turn passes and the game goes on, or the
    turn passes and the move limit ends the game. *)
Lemma endTurn_inv fuel st ended st' :
  endTurn fuel st = Some (ended, st') ->
  exists st1, bumpMoveCount st = Some (tt, st1)
    /\ ((ended = true /\ endGame "Stalemate" st1 = Some (tt, st'))
        \/ exists st2, switchTurn st1 = Some (tt, st2)
             /\ ((ended = false /\ st' = st2
                  /\ (maxMoves st2 <=? moveCountWhite st2)
                     && (maxMoves st2 <=? moveCountBlack st2) = false)
                 \/ (ended = true
                     /\ (maxMoves st2 <=? moveCountWhite st2)
                        && (maxMoves st2 <=? moveCountBlack st2) = true
                     /\ endGame "Move limit reached" st2 = Some (tt, st')))).
Proof.
  unfold endTurn. intros H.
  apply bind_Some in H as ([] & st1 & Hbump & H). exists st1. split; [done|].
  apply bind_Some in H as (early & st2 & Hearly & H).
  apply checkGameEndEarly_inv in Hearly as [[-> ->]|[-> Hend]].
  - right. apply bind_Some in H as ([] & st2 & Hswitch & H).
    exists st2. split; [done|].
    apply bind_Some in H as (e & st3 & Hlimit & H). apply ret_Some in H as [-> ->].
    unfold checkGameEnd in Hlimit.
    apply bind_Some in Hlimit as (s & st4 & Hs & Hlimit).
    apply gets_Some in Hs as [-> ->]. unfold id in Hlimit.
    destruct ((maxMoves st2 <=? moveCountWhite st2)
              && (maxMoves st2 <=? moveCountBlack st2)) eqn:Hmax.
    + apply bind_Some in Hlimit as ([] & st5 & Hend & Hlimit).
      apply ret_Some in Hlimit as [-> ->]. right. done.
    + apply ret_Some in Hlimit as [-> ->]. left. done.
  - apply ret_Some in H as [-> ->]. by left.
Qed.

Lemma checkGameEnd_total st : exists b st', checkGameEnd st = Some (b, st').
Proof.
  unfold checkGameEnd. unfold bind at 1. unfold gets at 1. unfold id.
  destruct ((maxMoves st <=? moveCountWhite st) && (maxMoves st <=? moveCountBlack st));
    by eexists _, _.
Qed.

Lemma endTurn_total n st :
  hasRanks (board st) -> exists ended st', endTurn (S (S n)) st = Some (ended, st').
Proof.
  intros Hb. unfold endTurn.
  destruct (bumpMoveCount st) as [[[] st0]|] eqn:Hbump;
    [|unfold bumpMoveCount in Hbump; discriminate Hbump].
  rewrite (bind_run _ _ _ _ _ Hbump).
  assert (hasRanks (board st0)) as Hb0.
  { unfold bumpMoveCount in Hbump. injection Hbump as <-.
    by destruct (currentPlayer st). }
  destruct (checkGameEndEarly_total n st0 Hb0) as (b & st1 & Hearly).
  rewrite (bind_run _ _ _ _ _ Hearly).
  destruct b; [by eexists _, _|].
  destruct (switchTurn st1) as [[[] st2]|] eqn:Hsw;
    [|unfold switchTurn in Hsw; discriminate Hsw].
  rewrite (bind_run _ _ _ _ _ Hsw).
  destruct (checkGameEnd_total st2) as (e & st3 & Hend).
  rewrite (bind_run _ _ _ _ _ Hend). by eexists _, _.
Qed.

Lemma endGame_result why st st' :
  endGame why st = Some (tt, st') ->
  samePosition st' st /\ currentFEN st' = currentFEN st
  /\ scoresWhite st' = scoresWhite st /\ scoresBlack st' = scoresBlack st
  /\ moveCountWhite st' = moveCountWhite st /\ moveCountBlack st' = moveCountBlack st
  /\ maxMoves st' = maxMoves st
  /\ gameActive st' = false /\ currentPhase st' = 4
  /\ gameResult st'
     = Some (mkGameResult why (determineWinnerByReason why st) (scoresWhite st)
               (scoresBlack st) (moveCountWhite st + moveCountBlack st)).
Proof. unfold endGame. intros [= <-]. unfold samePosition. by split_and!. Qed.

Lemma determineWinner_onPoints why st :
  why <> "Checkmate" -> determineWinnerByReason why st = winnerOnPoints st.
Proof.
  intros Hwhy. unfold determineWinnerByReason, winnerOnPoints.
  by rewrite (proj2 (String.eqb_neq _ _) Hwhy).
Qed.

Lemma winnerOnPoints_scores a b :
  scoresWhite a = scoresWhite b -> scoresBlack a = scoresBlack b ->
  winnerOnPoints a = winnerOnPoints b.
Proof. unfold winnerOnPoints. by intros -> ->. Qed.

(** X18. However a game ends, it is decided on points. A turn that ends the
    game gives the reason 'Stalemate' or 'Move limit reached', never
    'Checkmate'; then, and after a resignation, the recorded winner is the
    side with the higher capture score, or 'Draw' when the scores are equal:
    a player who resigns while ahead on points is recorded as the winner. *)
Theorem game_end_is_decided_on_points fuel playerSide st :
  (forall st', endTurn fuel st = Some (true, st') ->
     gameActive st' = false
     /\ exists r, gameResult st' = Some r
          /\ (reason r = "Stalemate" \/ reason r = "Move limit reached")
          /\ winner r = winnerOnPoints st'
          /\ finalScoreWhite r = scoresWhite st' /\ finalScoreBlack r = scoresBlack st'
          /\ totalMoves r = moveCountWhite st' + moveCountBlack st')
  /\ (forall st', gameActive st = true -> resignGame playerSide st = Some (tt, st') ->
        gameActive st' = false
        /\ exists r, gameResult st' = Some r
             /\ reason r = playerName playerSide +:+ " resigned"
             /\ winner r = winnerOnPoints st).
Proof.
  split.
  - intros st' H.
    apply endTurn_inv in H
      as (st1 & _ & [[_ Hend]|(st2 & _ & [[[=] _]|(_ & _ & Hend)])]);
      apply endGame_result in Hend
        as (_ & _ & Hsw & Hsb & Hmw & Hmb & _ & Hact & _ & Hres);
      (split; [done|]); eexists; (split; [exact Hres|]); simpl;
      rewrite determineWinner_onPoints by done;
      (split_and!; [auto|by apply winnerOnPoints_scores|congruence..]).
  - intros st' Hactive H. unfold resignGame in H.
    apply bind_Some in H as (a & st0 & Ha & H). apply gets_Some in Ha as [-> ->].
    rewrite Hactive in H.
    apply endGame_result in H as (_ & _ & _ & _ & _ & _ & _ & Hact & _ & Hres).
    split; [done|]. eexists. split; [exact Hres|]. simpl. split; [done|].
    apply determineWinner_onPoints. by destruct playerSide.
Qed.

Lemma game_end_is_decided_on_points_witness :
  exists st',
    endTurn 3 boxedKing = Some (true, st')
    /\ gameActive st' = false
    /\ exists r, gameResult st' = Some r
         /\ (reason r = "Stalemate" \/ reason r = "Move limit reached")
         /\ winner r = winnerOnPoints st'
         /\ finalScoreWhite r = scoresWhite st' /\ finalScoreBlack r = scoresBlack st'
         /\ totalMoves r = moveCountWhite st' + moveCountBlack st'.
Proof.
  eexists. split; [vm_compute; reflexivity|].
  apply (proj1 (game_end_is_decided_on_points 3 white boxedKing)).
  vm_compute. reflexivity.
Defined.

Lemma bumpMoveCount_result st st1 :
  bumpMoveCount st = Some (tt, st1) ->
  samePosition st1 st /\ currentFEN st1 = currentFEN st
  /\ scoresWhite st1 = scoresWhite st /\ scoresBlack st1 = scoresBlack st
  /\ moveCountWhite st1
     = moveCountWhite st + (if bool_decide (currentPlayer st = white) then 1 else 0)
  /\ moveCountBlack st1
     = moveCountBlack st + (if bool_decide (currentPlayer st = black) then 1 else 0)
  /\ maxMoves st1 = maxMoves st /\ gameActive st1 = gameActive st
  /\ gameResult st1 = gameResult st /\ currentPhase st1 = currentPhase st.
Proof.
  unfold bumpMoveCount, samePosition. intros [= <-].
  destruct (currentPlayer st) eqn:Hp; simpl; rewrite ?Hp; split_and!; try done; lia.
Qed.

Lemma syncFENFromState_inSync st : fenInSync (syncFENFromState st).
Proof. reflexivity. Qed.

Lemma switchTurn_result st1 st2 :
  switchTurn st1 = Some (tt, st2) ->
  board st2 = board st1 /\ castlingRights st2 = castlingRights st1
  /\ enPassantTarget st2 = enPassantTarget st1 /\ halfmoveClock st2 = halfmoveClock st1
  /\ currentPlayer st2 = opponent (currentPlayer st1)
  /\ fullmoveNumber st2 = match currentPlayer st1 with
                          | black => incr (fullmoveNumber st1)
                          | white => fullmoveNumber st1
                          end
  /\ fenInSync st2
  /\ scoresWhite st2 = scoresWhite st1 /\ scoresBlack st2 = scoresBlack st1
  /\ moveCountWhite st2 = moveCountWhite st1 /\ moveCountBlack st2 = moveCountBlack st1
  /\ maxMoves st2 = maxMoves st1 /\ gameActive st2 = gameActive st1
  /\ gameResult st2 = gameResult st1 /\ currentPhase st2 = currentPhase st1.
Proof.
  unfold switchTurn. cbv zeta. intros [= <-].
  split_and!; try reflexivity. simpl. by destruct (currentPlayer st1).
Qed.



(** ** The two callers of the checker *)

Lemma square_eta (s : Square) : mkSquare (rank s) (file s) = s.
Proof. by destruct s. Qed.

(** A simulated apply between a snapshot and its restore leaves no trace. *)
Lemma snapshot_simulate_restore fuel move color st b st' :
  (let* snapshot := snapshotState in
   let* captured := readBoard (rank (to move)) (file (to move)) in
   let* _ := update (applyMoveToState
               (mkMove (from move) (to move) (piece move) captured (promotion move)
                  (isEnPassant move) (isCastling move)) true) in
   let* stillChecked := isKingInCheck fuel color in
   let* _ := restoreSnapshot snapshot in
   ret stillChecked) st = Some (b, st') ->
  st' = st.
Proof.
  intros H. unfold snapshotState in H.
  apply bind_Some in H as (snap & st0 & H0 & H). apply gets_Some in H0 as [-> ->].
  apply bind_Some in H as (cap & st0 & Hcap & H).
  apply readBoard_Some in Hcap as [_ ->].
  apply bind_Some in H as ([] & st1 & H1 & H). unfold update in H1.
  destruct (applyMoveToState _ true st) as [st1'|] eqn:Happ; [|discriminate].
  injection H1 as <-.
  apply bind_Some in H as (chk & st2 & H2 & H).
  pose proof (isKingInCheck_state _ (isLegalMoveWithState_state fuel) _ _ _ _ H2) as ->.
  apply bind_Some in H as ([] & st3 & H3 & H). apply ret_Some in H as [-> ->].
  apply applyMoveToState_simulate_outside in Happ
    as (? & ? & ? & ? & ? & ? & ? & ? & ?).
  rewrite (restore_snapshot_id st st1') in H3 by done. by injection H3 as <-.
Qed.

(** What a drop on the play board amounts to. *)
Lemma handlePlayDrop_inv fuel dragSource targetSquare st outcome st' :
  handlePlayDrop fuel dragSource targetSquare st = Some (outcome, st') ->
  match outcome with
  | Ignored =>
      st' = st
      /\ (dragSource = None \/ gameActive st = false
          \/ exists src, dragSource = Some (FromSquare src)
               /\ readSq (board st) (rank src) (file src) = Some None)
  | Toast message =>
      st' = st
      /\ exists src p r,
           dragSource = Some (FromSquare src)
           /\ readSq (board st) (rank src) (file src) = Some (Some p)
           /\ isLegalMoveWithState fuel src targetSquare (Some p) None st = Some (r, st)
           /\ ((message = "Must escape check" /\ colorOf p <> currentPlayer st)
               \/ exists why, r = Illegal why /\ message = orElse (Some why) "Illegal move")
  | Moved notation ended =>
      exists src p r captured st1,
        dragSource = Some (FromSquare src) /\ gameActive st = true
        /\ readSq (board st) (rank src) (file src) = Some (Some p)
        /\ isLegalMoveWithState fuel src targetSquare (Some p) None st = Some (r, st)
        /\ ok r = true
        /\ readSq (board st) (rank targetSquare) (file targetSquare) = Some captured
        /\ applyMoveToState
             (mkMove src targetSquare (Some p) captured (l_promotion r)
                (l_isEnPassant r) (l_isCastling r)) false st = Some st1
        /\ generateMoveNotation src targetSquare (Some p) captured r = Some notation
        /\ endPlayerTurn fuel st1 = Some (ended, st')
  end.
Proof.
  unfold handlePlayDrop. intros H.
  apply bind_Some in H as (active & st0 & Ha & H). apply gets_Some in Ha as [-> ->].
  destruct dragSource as [[src|spare]|]; [| |apply ret_Some in H as [-> ->]; auto].
  2:{ destruct (gameActive st); [done|]. apply ret_Some in H as [-> ->]. auto. }
  destruct (gameActive st) eqn:Hactive; cbn [negb] in H;
    [|apply ret_Some in H as [-> ->]; auto].
  cbv zeta in H. rewrite !square_eta in H.
  apply bind_Some in H as (piece & st0 & Hpiece & H).
  apply readBoard_Some in Hpiece as [Hpiece ->].
  destruct piece as [p|]; [|apply ret_Some in H as [-> ->]; eauto 6].
  apply bind_Some in H as (r & st0 & Hlegal & H).
  pose proof (isLegalMoveWithState_state _ _ _ _ _ _ _ _ Hlegal) as ->.
  apply bind_Some in H as (inCheck & st0 & Hcheck & H).
  pose proof (isKingInCheck_state _ (isLegalMoveWithState_state fuel) _ _ _ _ Hcheck) as ->.
  apply bind_Some in H as (mustEscape & st0 & Hescape & H).
  assert (st0 = st /\ (mustEscape = true -> colorOf p <> currentPlayer st))
    as [-> Hturn].
  { destruct inCheck.
    - split.
      + apply (snapshot_simulate_restore fuel
                 (mkMove src targetSquare (Some p) None (l_promotion r)
                    (l_isEnPassant r) (l_isCastling r)) (colorOf p) st mustEscape st0).
        exact Hescape.
      + intros _ Hcolor.
        by apply (isKingInCheck_mover fuel (colorOf p) st _ _ (eq_sym Hcolor)) in Hcheck.
    - by apply ret_Some in Hescape as [-> ->]. }
  destruct mustEscape.
  { apply ret_Some in H as [-> ->]. split; [done|].
    exists src, p, r. split_and!; [done..|]. left. split; [done|]. by apply Hturn. }
  destruct r as [why|ep cas pr].
  { apply ret_Some in H as [-> ->]. split; [done|].
    exists src, p, (Illegal why). split_and!; [done..|]. right. by exists why. }
  apply bind_Some in H as (captured & st0 & Hcap & H).
  apply readBoard_Some in Hcap as [Hcap ->].
  apply bind_Some in H as ([] & st1 & Happ & H). unfold update in Happ.
  destruct (applyMoveToState _ false st) as [st1'|] eqn:Happ'; [|discriminate].
  injection Happ as <-.
  apply bind_Some in H as (notation & st2 & Hnote & H).
  unfold recordMove in Hnote.
  destruct (generateMoveNotation _ _ _ _ _) as [text|] eqn:Htext; [|discriminate].
  injection Hnote as <- <-.
  apply bind_Some in H as (ended & st3 & Hend & H). apply ret_Some in H as [-> ->].
  exists src, p, (Legal ep cas pr), captured, st1'. by split_and!.
Qed.

Lemma generateMoveNotation_piece from to p captured meta :
  exists notation, generateMoveNotation from to (Some p) captured meta = Some notation.
Proof. unfold generateMoveNotation. cbv zeta. destruct (l_isCastling meta); by eexists. Qed.

Lemma applyMoveToState_hasRanks move simulate st st' :
  hasRanks (board st) -> applyMoveToState move simulate st = Some st' ->
  hasRanks (board st').
Proof.
  intros Hb H. unfold applyMoveToState in H.
  destruct (piece move) as [p|]; [|by injection H as <-].
  destruct (applyBoard move p (board st)) as [b|] eqn:Hboard; [|discriminate].
  cbn [mbind option_bind] in H. injection H as <-.
  assert (hasRanks b) as Hb'.
  { assert (forall b0 r f v b1, writeSq b0 r f v = Some b1 -> hasRanks b0 -> hasRanks b1)
      as Hw.
    { intros b0 r f v b1 Hwr Hb0. unfold writeSq in Hwr.
      destruct (decide _); [|discriminate].
      destruct (b0 !! Z.to_nat r); [|discriminate]. injection Hwr as <-.
      unfold hasRanks in *. by rewrite length_insert. }
    apply applyBoard_inv in Hboard as (b1 & b2 & b3 & b4 & H1 & H2 & H3 & H4 & H5).
    assert (hasRanks b1) as Hb1.
    { destruct (isEnPassant move); [by eapply Hw|by injection H1 as <-]. }
    assert (hasRanks b2) as Hb2.
    { destruct (isCastling move); [|by injection H2 as <-].
      destruct (readSq b1 _ _); [|discriminate]. cbn [mbind option_bind] in H2.
      destruct (writeSq b1 _ _ None) as [b'|] eqn:Hw1; [|discriminate].
      cbn [mbind option_bind] in H2. eapply Hw; [exact H2|]. by eapply Hw. }
    assert (hasRanks b4) as Hb4 by (eapply Hw; [exact H4|]; by eapply Hw).
    destruct (promotion move); [by eapply Hw|by injection H5 as <-]. }
  destruct simulate; [done|]. by rewrite updateScoreOnCapture_board.
Qed.

(** The "must escape check" block returns, and returns the state it found. *)
Lemma escape_block_total n src targetSquare p r st :
  hasRanks (board st) -> onGrid src -> onGrid targetSquare ->
  l_isEnPassant r = false ->
  exists b,
    (let* snapshot := snapshotState in
     let* captured := readBoard (rank targetSquare) (file targetSquare) in
     let* _ := update (applyMoveToState
                 (mkMove src targetSquare (Some p) captured (l_promotion r)
                    (l_isEnPassant r) (l_isCastling r)) true) in
     let* stillChecked := isKingInCheck (S (S n)) (colorOf p) in
     let* _ := restoreSnapshot snapshot in
     ret stillChecked) st = Some (b, st).
Proof.
  intros Hb Hsrc Htgt Hep.
  destruct (readBoard_total (rank targetSquare) (file targetSquare) st Hb (proj1 Htgt))
    as [captured Hcap].
  destruct (applyMoveToState_total
              (mkMove src targetSquare (Some p) captured (l_promotion r)
                 (l_isEnPassant r) (l_isCastling r)) true st Hb Hsrc Htgt)
    as (st1 & Happ & Hb1).
  { simpl. intros p' Hp' Hflag. congruence. }
  destruct (isKingInCheck_total n (colorOf p) st1 Hb1) as [b Hchk].
  exists b. unfold snapshotState. unfold bind at 1. unfold gets at 1.
  rewrite (bind_run _ _ _ _ _ Hcap).
  unfold bind at 1. unfold update at 1. rewrite Happ.
  rewrite (bind_run _ _ _ _ _ Hchk).
  apply applyMoveToState_simulate_outside in Happ
    as (? & ? & ? & ? & ? & ? & ? & ? & ?).
  by rewrite (bind_run _ _ _ _ _ (restore_snapshot_id st st1 ltac:(done) ltac:(done)
    ltac:(done) ltac:(done) ltac:(done) ltac:(done) ltac:(done) ltac:(done) ltac:(done))).
Qed.

Lemma handlePlayDrop_total n src targetSquare st :
  hasRanks (board st) -> onGrid src -> onGrid targetSquare ->
  exists outcome st',
    handlePlayDrop (S (S n)) (Some (FromSquare src)) targetSquare st = Some (outcome, st').
Proof.
  intros Hb Hsrc Htgt. unfold handlePlayDrop.
  unfold bind at 1. unfold gets at 1.
  destruct (gameActive st); cbn [negb]; [|by eexists _, _].
  cbv zeta. rewrite !square_eta.
  destruct (readBoard_total (rank src) (file src) st Hb (proj1 Hsrc)) as [c Hread].
  rewrite (bind_run _ _ _ _ _ Hread).
  destruct c as [p|]; [|by eexists _, _].
  destruct (isLegalMoveWithState_total n src targetSquare (Some p) None st Hb Hsrc Htgt)
    as [r Hr].
  rewrite (bind_run _ _ _ _ _ Hr).
  destruct (isKingInCheck_total n (colorOf p) st Hb) as [inCheck Hcheck].
  rewrite (bind_run _ _ _ _ _ Hcheck).
  assert (exists m,
    (if inCheck
     then
       let* snapshot := snapshotState in
       let* captured := readBoard (rank targetSquare) (file targetSquare) in
       let* _ := update (applyMoveToState
                   (mkMove src targetSquare (Some p) captured (l_promotion r)
                      (l_isEnPassant r) (l_isCastling r)) true) in
       let* stillChecked := isKingInCheck (S (S n)) (colorOf p) in
       let* _ := restoreSnapshot snapshot in
       ret stillChecked
     else ret false) st = Some (m, st)) as [m Hm].
  { destruct inCheck; [|by eexists].
    apply escape_block_total; [done..|].
    destruct (decide (colorOf p = currentPlayer st)) as [Hturn|Hturn].
    - rewrite (isKingInCheck_mover_total (S n) (colorOf p) st Hb (eq_sym Hturn)) in Hcheck.
      discriminate Hcheck.
    - apply isLegalMoveWithState_wrong_turn in Hr; [|done]. by destruct r. }
  rewrite (bind_run _ _ _ _ _ Hm).
  destruct m; [by eexists _, _|].
  destruct r as [why|ep cas pr]; [by eexists _, _|].
  destruct (readBoard_total (rank targetSquare) (file targetSquare) st Hb (proj1 Htgt))
    as [captured Hcap].
  rewrite (bind_run _ _ _ _ _ Hcap).
  destruct (applyMoveToState_total
              (mkMove src targetSquare (Some p) captured pr ep cas) false st Hb Hsrc Htgt)
    as (st1 & Happ & Hb1).
  { simpl. intros p' [= <-] ->.
    rewrite (accepted_en_passant_row _ _ _ _ _ _ _ _ _ Hr). apply Hsrc. }
  unfold bind at 1. unfold update at 1. cbn [l_promotion l_isEnPassant l_isCastling].
  rewrite Happ.
  destruct (generateMoveNotation_piece src targetSquare p captured (Legal ep cas pr))
    as [notation Hnote].
  unfold bind at 1. unfold recordMove at 1. rewrite Hnote.
  destruct (endTurn_total n st1 Hb1) as (ended & st2 & Hend).
  unfold endPlayerTurn. rewrite (bind_run _ _ _ _ _ Hend). by eexists _, _.
Qed.

(** X20. A drop on the play board is all or nothing. For squares of the
    grid the handler returns. If the origin is empty nothing happens. If the
    checker rejects the move, the state is left exactly as it was and a toast
    is shown: the checker's reason, or, only for a piece of the side that is
    not on turn, 'Must escape check'. If the checker accepts, the move is
    applied with the checker's flags and a queen as the only promotion, it
    is recorded, and the turn is ended. For the side on turn the check
    escape test never decides anything. *)
Theorem player_drop_is_all_or_nothing n src targetSquare st :
  hasRanks (board st) -> onGrid src -> onGrid targetSquare -> gameActive st = true ->
  exists outcome st',
    handlePlayDrop (S (S n)) (Some (FromSquare src)) targetSquare st
      = Some (outcome, st')
    /\ match readSq (board st) (rank src) (file src) with
       | Some (Some p) =>
           exists r,
             isLegalMoveWithState (S (S n)) src targetSquare (Some p) None st
               = Some (r, st)
             /\ match r with
                | Illegal why =>
                    st' = st
                    /\ (outcome = Toast why
                        \/ (outcome = Toast "Must escape check"
                            /\ colorOf p <> currentPlayer st))
                | Legal ep cas pr =>
                    exists captured st1 notation ended,
                      readSq (board st) (rank targetSquare) (file targetSquare)
                        = Some captured
                      /\ applyMoveToState
                           (mkMove src targetSquare (Some p) captured pr ep cas) false st
                         = Some st1
                      /\ endPlayerTurn (S (S n)) st1 = Some (ended, st')
                      /\ outcome = Moved notation ended
                end
       | _ => outcome = Ignored /\ st' = st
       end.
Proof.
  intros Hb Hsrc Htgt Hactive.
  destruct (handlePlayDrop_total n src targetSquare st Hb Hsrc Htgt)
    as (outcome & st' & Hrun).
  exists outcome, st'. split; [done|].
  pose proof (handlePlayDrop_inv _ _ _ _ _ _ Hrun) as Hinv.
  destruct (readSq_total (board st) (rank src) (file src) Hb (proj1 Hsrc)) as [c Hc].
  rewrite Hc.
  assert (c = None -> outcome = Ignored /\ st' = st) as Hempty.
  { intros ->. destruct outcome as [|message|notation ended]; [by destruct Hinv| |].
    - destruct Hinv as (_ & src' & p & r & [= <-] & Hp & _). congruence.
    - destruct Hinv as (src' & p & r & cap & st1 & [= <-] & _ & Hp & _). congruence. }
  destruct c as [p|]; [|by apply Hempty].
  destruct (isLegalMoveWithState_total n src targetSquare (Some p) None st Hb Hsrc Htgt)
    as [r Hr].
  exists r. split; [done|].
  destruct outcome as [|message|notation ended].
  - destruct Hinv as (_ & [?|[?|(src' & [= <-] & ?)]]); congruence.
  - destruct Hinv as (-> & src' & p' & r' & [= <-] & Hp & Hr' & Hmsg).
    assert (p' = p) as -> by congruence.
    assert (r' = r) as -> by congruence.
    destruct Hmsg as [[-> Hturn]|(why & -> & ->)].
    + apply isLegalMoveWithState_wrong_turn in Hr as Hok; [|done].
      destruct r as [why|]; [|done]. split; [done|]. by right.
    + split; [done|]. left. f_equal. unfold orElse.
      destruct (String.eqb_spec why "") as [->|]; [|done].
      exfalso. apply isLegalMoveWithState_reasons in Hr'. revert Hr'.
      unfold reachableReasons, kindReasons. cbn [app].
      rewrite !elem_of_cons, elem_of_nil. intros Hin. decompose [or] Hin; congruence.
  - destruct Hinv as (src' & p' & r' & cap & st1 & [= <-] & _ & Hp & Hr' & Hok & Hcap
                      & Happ & _ & Hend).
    assert (p' = p) as -> by congruence.
    assert (r' = r) as -> by congruence.
    destruct r as [|ep cas pr]; [done|].
    by exists cap, st1, notation, ended.
Qed.

Lemma player_drop_is_all_or_nothing_witness :
  exists outcome st',
    handlePlayDrop 2 (Some (FromSquare e2)) e4 gameStarted = Some (outcome, st')
    /\ match readSq (board gameStarted) (rank e2) (file e2) with
       | Some (Some p) =>
           exists r,
             isLegalMoveWithState 2 e2 e4 (Some p) None gameStarted
               = Some (r, gameStarted)
             /\ match r with
                | Illegal why =>
                    st' = gameStarted
                    /\ (outcome = Toast why
                        \/ (outcome = Toast "Must escape check"
                            /\ colorOf p <> currentPlayer gameStarted))
                | Legal ep cas pr =>
                    exists captured st1 notation ended,
                      readSq (board gameStarted) (rank e4) (file e4) = Some captured
                      /\ applyMoveToState
                           (mkMove e2 e4 (Some p) captured pr ep cas) false gameStarted
                         = Some st1
                      /\ endPlayerTurn 2 st1 = Some (ended, st')
                      /\ outcome = Moved notation ended
                end
       | _ => outcome = Ignored /\ st' = gameStarted
       end.
Proof.
  apply (player_drop_is_all_or_nothing 0 e2 e4 gameStarted).
  - vm_compute. lia.
  - vm_compute. repeat split; discriminate.
  - vm_compute. repeat split; discriminate.
  - reflexivity.
Defined.

(** What a move of the engine amounts to, when the method returns. *)
Lemma executeAIMove_inv fuel moveString st outcome st' :
  executeAIMove fuel moveString st = Some (outcome, st') ->
  exists fromSquare toSquare piece captured r,
    algebraicToCoords (slice 0 2 moveString)
      = (Int (rank fromSquare), Int (file fromSquare))
    /\ algebraicToCoords (slice 2 4 moveString)
       = (Int (rank toSquare), Int (file toSquare))
    /\ readSq (board st) (rank fromSquare) (file fromSquare) = Some piece
    /\ readSq (board st) (rank toSquare) (file toSquare) = Some captured
    /\ isLegalMoveWithState fuel fromSquare toSquare piece
         (if (4 <? String.length moveString)%nat then String.get 4 moveString else None) st
       = Some (r, st)
    /\ ok r = true
    /\ exists notation ended st1,
         outcome = Played notation ended
         /\ applyMoveToState
              (mkMove fromSquare toSquare piece captured (l_promotion r)
                 (l_isEnPassant r) (l_isCastling r)) false st = Some st1
         /\ generateMoveNotation fromSquare toSquare piece captured r = Some notation
         /\ endAITurn fuel st1 = Some (ended, st').
Proof.
  unfold executeAIMove. cbv zeta. intros H.
  destruct (algebraicToCoords (slice 0 2 moveString)) as [[fr|] [ff|]]; try done.
  destruct (algebraicToCoords (slice 2 4 moveString)) as [[tr|] [tf|]]; try done.
  apply bind_Some in H as (piece & st0 & Hpiece & H).
  apply readBoard_Some in Hpiece as [Hpiece ->].
  apply bind_Some in H as (captured & st0 & Hcap & H).
  apply readBoard_Some in Hcap as [Hcap ->].
  apply bind_Some in H as (r & st0 & Hlegal & H).
  pose proof (isLegalMoveWithState_state _ _ _ _ _ _ _ _ Hlegal) as ->.
  exists (mkSquare fr ff), (mkSquare tr tf), piece, captured, r.
  split_and!; [done..| |]; destruct (ok r) eqn:Hok; cbn [negb] in H; try done.
  apply bind_Some in H as ([] & st1 & Happ & H). unfold update in Happ.
  destruct (applyMoveToState _ false st) as [st1'|] eqn:Happ'; [|discriminate].
  injection Happ as <-.
  apply bind_Some in H as (notation & st2 & Hnote & H). unfold recordMove in Hnote.
  destruct (generateMoveNotation _ _ _ _ _) as [text|] eqn:Htext; [|discriminate].
  injection Hnote as <- <-.
  apply bind_Some in H as (ended & st3 & Hend & H). apply ret_Some in H as [-> ->].
  by exists text, ended, st1'.
Qed.

Lemma engine_move_text fromSquare toSquare promo :
  onGrid fromSquare -> onGrid toSquare ->
  let moveString :=
    coordsToAlgebraic (rank fromSquare) (file fromSquare)
    +:+ coordsToAlgebraic (rank toSquare) (file toSquare) +:+ promoSuffix promo in
  slice 0 2 moveString = coordsToAlgebraic (rank fromSquare) (file fromSquare)
  /\ slice 2 4 moveString = coordsToAlgebraic (rank toSquare) (file toSquare)
  /\ (if (4 <? String.length moveString)%nat then String.get 4 moveString else None)
     = promo.
Proof.
  intros [Hfr _] [Htr _]. cbv zeta.
  rewrite !coordsToAlgebraic_text by done.
  destruct promo; done.
Qed.

(** X21. A move of the engine is all or nothing, too. On a board with its
    eight rows, the text of a move between two squares of the grid (origin
    name, destination name and an optional promotion letter of the ASCII
    range) is read back as exactly that move, of whatever stands on the
    origin. If the checker rejects it, the method throws: it calls
    [handleAIFallback], which the class does not define, and the checker has
    handed back the state it was given, so nothing was written. If the
    checker accepts it, the method returns: the move is applied with the
    checker's flags, recorded, and the turn is ended. *)
Theorem engine_move_is_all_or_nothing n fromSquare toSquare promo st :
  hasRanks (board st) -> onGrid fromSquare -> onGrid toSquare ->
  asciiPromotion promo ->
  let moveString :=
    coordsToAlgebraic (rank fromSquare) (file fromSquare)
    +:+ coordsToAlgebraic (rank toSquare) (file toSquare) +:+ promoSuffix promo in
  exists piece r,
    readSq (board st) (rank fromSquare) (file fromSquare) = Some piece
    /\ isLegalMoveWithState (S (S n)) fromSquare toSquare piece promo st = Some (r, st)
    /\ match r with
       | Illegal _ => executeAIMove (S (S n)) moveString st = None
       | Legal ep cas pr =>
           exists captured st1 notation ended st',
             readSq (board st) (rank toSquare) (file toSquare) = Some captured
             /\ applyMoveToState
                  (mkMove fromSquare toSquare piece captured pr ep cas) false st
                = Some st1
             /\ generateMoveNotation fromSquare toSquare piece captured r = Some notation
             /\ endAITurn (S (S n)) st1 = Some (ended, st')
             /\ executeAIMove (S (S n)) moveString st = Some (Played notation ended, st')
       end.
Proof.
  intros Hb Hfrom Hto _ moveString.
  destruct (engine_move_text fromSquare toSquare promo Hfrom Hto) as (Hs1 & Hs2 & Hs3).
  fold moveString in Hs1, Hs2, Hs3.
  destruct (readSq_total (board st) (rank fromSquare) (file fromSquare) Hb (proj1 Hfrom))
    as [piece Hpiece].
  destruct (readSq_total (board st) (rank toSquare) (file toSquare) Hb (proj1 Hto))
    as [captured Hcap].
  destruct (isLegalMoveWithState_total n fromSquare toSquare piece promo st Hb Hfrom Hto)
    as [r Hr].
  exists piece, r. split_and!; [done..|].
  assert (executeAIMove (S (S n)) moveString st
          = (if negb (ok r) then fun _ => None
             else
               let* _ := update (applyMoveToState
                           (mkMove fromSquare toSquare piece captured
                              (l_promotion r) (l_isEnPassant r) (l_isCastling r)) false) in
               let* notation := recordMove fromSquare toSquare piece captured r in
               let* ended := endAITurn (S (S n)) in
               ret (Played notation ended)) st) as ->.
  { unfold executeAIMove. cbv zeta. rewrite Hs1, Hs2, Hs3.
    rewrite !algebraicToCoords_coordsToAlgebraic by (apply Hfrom || apply Hto).
    rewrite !square_eta.
    rewrite (bind_run _ _ _ _ _ (readBoard_run _ _ _ _ Hpiece)).
    rewrite (bind_run _ _ _ _ _ (readBoard_run _ _ _ _ Hcap)).
    by rewrite (bind_run _ _ _ _ _ Hr). }
  destruct r as [why|ep cas pr]; cbn [ok negb]; [done|].
  pose proof Hr as Hacc.
  apply accepted_inv in Hacc as (m & p & tg & _ & -> & _).
  destruct (applyMoveToState_total
              (mkMove fromSquare toSquare (Some p) captured pr ep cas) false st
              Hb Hfrom Hto) as (st1 & Happ & Hb1).
  { simpl. intros p' [= <-] ->.
    rewrite (accepted_en_passant_row _ _ _ _ _ _ _ _ _ Hr). apply Hfrom. }
  unfold bind at 1. unfold update at 1. cbn [l_promotion l_isEnPassant l_isCastling].
  rewrite Happ.
  destruct (generateMoveNotation_piece fromSquare toSquare p captured (Legal ep cas pr))
    as [notation Hnote].
  unfold bind at 1. unfold recordMove at 1. rewrite Hnote.
  destruct (endTurn_total n st1 Hb1) as (ended & st2 & Hend).
  unfold endAITurn. rewrite (bind_run _ _ _ _ _ Hend).
  by exists captured, st1, notation, ended, st2.
Qed.

(** Black's reply e7e5 to 1. e4 is played; the move e7e4, which the checker
    rejects, makes the method throw. *)
Lemma engine_move_is_all_or_nothing_witness :
  (exists st', executeAIMove 2 "e7e5" afterE4 = Some (Played "-e5" false, st'))
  /\ executeAIMove 2 "e7e4" afterE4 = None.
Proof.
  split.
  - destruct (engine_move_is_all_or_nothing 0 e7 e5 None afterE4)
      as (piece & r & Hpiece & Hr & Hrun);
      [vm_compute; lia|vm_compute; repeat split; discriminate
      |vm_compute; repeat split; discriminate|exact I|].
    vm_compute in Hpiece. injection Hpiece as <-.
    vm_compute in Hr. injection Hr as <-.
    destruct Hrun
      as (captured & st1 & notation & ended & st' & Hcap & Happ & Hnote & Hend & Hrun).
    vm_compute in Hcap. injection Hcap as <-.
    vm_compute in Hnote. injection Hnote as <-.
    vm_compute in Happ. injection Happ as <-.
    vm_compute in Hend. injection Hend as <- <-.
    eexists. exact Hrun.
  - destruct (engine_move_is_all_or_nothing 0 e7 e4 None afterE4)
      as (piece & r & Hpiece & Hr & Hrun);
      [vm_compute; lia|vm_compute; repeat split; discriminate
      |vm_compute; repeat split; discriminate|exact I|].
    vm_compute in Hpiece. injection Hpiece as <-.
    vm_compute in Hr. injection Hr as <-.
    exact Hrun.
Defined.

(** ** The states of a started game *)

Lemma applyMoveToState_real_outside move st st' :
  applyMoveToState move false st = Some st' ->
  (fenInSync st -> fenInSync st')
  /\ scoresWhite st <= scoresWhite st' /\ scoresBlack st <= scoresBlack st'
  /\ moveCountWhite st' = moveCountWhite st /\ moveCountBlack st' = moveCountBlack st
  /\ maxMoves st' = maxMoves st /\ gameActive st' = gameActive st
  /\ gameResult st' = gameResult st /\ currentPhase st' = currentPhase st.
Proof.
  unfold applyMoveToState. intros H.
  destruct (piece move) as [p|]; [|injection H as <-; by split_and!].
  destruct (applyBoard move p (board st)) as [b|]; [|discriminate].
  cbn [mbind option_bind] in H.
  set (st1 := mkGame b _ _ _ _ _ _ _ _ _ _ _ _ _ _) in H. injection H as <-.
  destruct (updateScoreOnCapture_scores p (capturedPiece move) (syncFENFromState st1))
    as [Hw Hb].
  change (scoresWhite (syncFENFromState st1)) with (scoresWhite st) in Hw.
  change (scoresBlack (syncFENFromState st1)) with (scoresBlack st) in Hb.
  pose proof (capturePoints_bounds (capturedPiece move)) as Hbound.
  split_and!.
  - intros _. unfold fenInSync. rewrite updateScoreOnCapture_currentFEN.
    change (currentFEN (syncFENFromState st1)) with (fenOfState (syncFENFromState st1)).
    symmetry. apply fenOfState_position, updateScoreOnCapture_position.
  - rewrite Hw. destruct (colorOf p); lia.
  - rewrite Hb. destruct (colorOf p); lia.
  - unfold updateScoreOnCapture. by destruct (capturedPiece move), (colorOf p).
  - unfold updateScoreOnCapture. by destruct (capturedPiece move), (colorOf p).
  - unfold updateScoreOnCapture. by destruct (capturedPiece move), (colorOf p).
  - unfold updateScoreOnCapture. by destruct (capturedPiece move), (colorOf p).
  - unfold updateScoreOnCapture. by destruct (capturedPiece move), (colorOf p).
  - unfold updateScoreOnCapture. by destruct (capturedPiece move), (colorOf p).
Qed.

Lemma endGame_keeps why st st' :
  playInvariant st -> endGame why st = Some (tt, st') -> playInvariant st'.
Proof.
  intros (Hsync & Hb & Hmw & Hmb & Hsw & Hsb & Hact & Hph) H.
  apply endGame_result in H
    as (Hpos & Hfen & Hsw' & Hsb' & Hmw' & Hmb' & _ & Hact' & Hph' & Hres).
  unfold playInvariant. split_and!; try lia.
  - unfold fenInSync in *. rewrite Hfen, Hsync. symmetry. by apply fenOfState_position.
  - destruct Hpos as [-> _]. done.
  - rewrite Hact', Hres. done.
  - by rewrite Hact'.
Qed.

Lemma endTurn_keeps fuel st ended st' :
  playInvariant st -> endTurn fuel st = Some (ended, st') -> playInvariant st'.
Proof.
  intros Hinv H. apply endTurn_inv in H as (st1 & Hbump & H).
  assert (playInvariant st1) as Hinv1.
  { destruct Hinv as (Hsync & Hb & Hmw & Hmb & Hsw & Hsb & Hact & Hph).
    apply bumpMoveCount_result in Hbump
      as (Hpos & Hfen & Hsw1 & Hsb1 & Hmw1 & Hmb1 & _ & Ha1 & Hr1 & Hp1).
    unfold playInvariant. split_and!.
    - unfold fenInSync in *. rewrite Hfen, Hsync. symmetry. by apply fenOfState_position.
    - destruct Hpos as [-> _]. done.
    - rewrite Hmw1. destruct (bool_decide (currentPlayer st = white)); lia.
    - rewrite Hmb1. destruct (bool_decide (currentPlayer st = black)); lia.
    - lia.
    - lia.
    - by rewrite Ha1, Hr1.
    - by rewrite Ha1, Hp1. }
  destruct H as [[_ Hend]|(st2 & Hswitch & H)]; [by eapply endGame_keeps|].
  assert (playInvariant st2) as Hinv2.
  { destruct Hinv1 as (Hsync & Hb & Hmw & Hmb & Hsw & Hsb & Hact & Hph).
    apply switchTurn_result in Hswitch
      as (Hb2 & _ & _ & _ & _ & _ & Hsync2 & Hsw2 & Hsb2 & Hmw2 & Hmb2 & _ & Ha2 & Hr2
          & Hp2).
    unfold playInvariant. split_and!; try lia; try done.
    - by rewrite Hb2.
    - by rewrite Ha2, Hr2.
    - by rewrite Ha2, Hp2. }
  destruct H as [(_ & -> & _)|(_ & _ & Hend)]; [done|by eapply endGame_keeps].
Qed.

Lemma move_keeps fuel move st st1 ended st' :
  playInvariant st -> applyMoveToState move false st = Some st1 ->
  endTurn fuel st1 = Some (ended, st') -> playInvariant st'.
Proof.
  intros (Hsync & Hb & Hmw & Hmb & Hsw & Hsb & Hact & Hph) Happ Hend.
  apply (endTurn_keeps fuel st1 ended); [|done].
  pose proof (applyMoveToState_hasRanks _ _ _ _ Hb Happ) as Hb1.
  apply applyMoveToState_real_outside in Happ
    as (Hsync1 & Hsw1 & Hsb1 & Hmw1 & Hmb1 & _ & Ha1 & Hr1 & Hp1).
  unfold playInvariant. split_and!; try lia; try done.
  - by apply Hsync1.
  - by rewrite Ha1, Hr1.
  - by rewrite Ha1, Hp1.
Qed.

(** X22. Invariants of a started game. Through any sequence of drops on the
    play board, engine moves and resignations that [startGame] has let
    begin, whatever the squares and move texts: the FEN text kept for the
    engine is the text of the position held, the board keeps its eight rows,
    move counts and scores are never negative, the game is active exactly
    while no result is recorded, and the page shows the play phase while the
    game is active and the results phase afterwards. *)
Theorem play_invariants fuel st : playing fuel st -> playInvariant st.
Proof.
  induction 1 as [firstMove st st' Hb Hstart
                 |dragSource targetSquare outcome st st' _ IH Hdrop
                 |moveString outcome st st' _ IH Hmove
                 |playerSide st st' _ IH Hresign].
  - unfold startGame in Hstart.
    apply bind_Some in Hstart as (b & st0 & Hget & Hstart).
    apply gets_Some in Hget as [-> ->].
    destruct (negb _ || negb _); [by apply ret_Some in Hstart as [[=] _]|].
    apply bind_Some in Hstart as ([] & st1 & H1 & Hstart).
    apply bind_Some in Hstart as ([] & st2 & H2 & Hstart).
    apply ret_Some in Hstart as [_ ->].
    unfold update in H1, H2. injection H1 as <-. injection H2 as <-.
    unfold playInvariant. split_and!; done.
  - apply handlePlayDrop_inv in Hdrop.
    destruct outcome as [|message|notation ended].
    + by destruct Hdrop as [-> _].
    + by destruct Hdrop as [-> _].
    + destruct Hdrop as (src & p & r & cap & st1 & _ & _ & _ & _ & _ & _ & Happ & _ & Hend).
      by eapply move_keeps.
  - apply executeAIMove_inv in Hmove
      as (f & t & pc & cap & r & _ & _ & _ & _ & _ & _ & notation & ended & st1 & _
          & Happ & _ & Hend).
    by eapply move_keeps.
  - unfold resignGame in Hresign.
    apply bind_Some in Hresign as (a & st0 & Ha & Hresign).
    apply gets_Some in Ha as [-> ->].
    destruct (gameActive st); [by eapply endGame_keeps|].
    by apply ret_Some in Hresign as [_ ->].
Qed.

Lemma play_invariants_witness : playInvariant gameStarted.
Proof.
  apply (play_invariants 2 gameStarted).
  apply (playing_start 2 white startPosition); [vm_compute; lia|vm_compute; reflexivity].
Defined.

(** ** Loading a position *)

Lemma samePosition_trans a b c : samePosition a b -> samePosition b c -> samePosition a c.
Proof.
  intros (? & ? & ? & ? & ? & ?) (? & ? & ? & ? & ? & ?).
  unfold samePosition. split_and!; congruence.
Qed.

Lemma renderBoardEditor_total boardEl st :
  exists st', renderBoardEditor boardEl st = Some (tt, st') /\ samePosition st' st.
Proof.
  unfold renderBoardEditor. destruct boardEl; eexists; (split; [reflexivity|]); done.
Qed.

Lemma updatePhaseUI_total boardEl st :
  exists st', updatePhaseUI boardEl st = Some (tt, st') /\ samePosition st' st.
Proof.
  unfold updatePhaseUI. unfold bind at 1. unfold gets at 1.
  destruct (currentPhase st =? 1); [apply renderBoardEditor_total|].
  eexists. split; [reflexivity|done].
Qed.

Lemma nextPhase_total boardEl st :
  exists st', nextPhase boardEl st = Some (tt, st') /\ samePosition st' st.
Proof.
  unfold nextPhase. unfold bind at 1. unfold gets at 1.
  destruct (currentPhase st <? 4); [|eexists; split; [reflexivity|done]].
  unfold bind at 1. unfold update at 1.
  destruct (updatePhaseUI_total boardEl (set_currentPhase (currentPhase st + 1) st))
    as (st' & -> & Hpos).
  exists st'. split; [done|]. eapply samePosition_trans; [exact Hpos|done].
Qed.

Lemma renderBoardEditor_phase boardEl st st' :
  renderBoardEditor boardEl st = Some (tt, st') -> currentPhase st' = currentPhase st.
Proof. unfold renderBoardEditor, update, ret. destruct boardEl; by intros [= <-]. Qed.

Lemma nextPhase_phase boardEl st st' :
  nextPhase boardEl st = Some (tt, st') ->
  currentPhase st' = if currentPhase st <? 4 then currentPhase st + 1 else currentPhase st.
Proof.
  unfold nextPhase. intros H.
  apply bind_Some in H as (ph & st0 & Hget & H). apply gets_Some in Hget as [-> ->].
  destruct (currentPhase st <? 4); [|by apply ret_Some in H as [_ ->]].
  apply bind_Some in H as ([] & st1 & Hset & H).
  unfold update in Hset. injection Hset as <-.
  unfold updatePhaseUI in H.
  apply bind_Some in H as (ph & st0 & Hget & H). apply gets_Some in Hget as [-> ->].
  destruct (_ =? 1); [by apply renderBoardEditor_phase in H|].
  by apply ret_Some in H as [_ ->].
Qed.

Lemma setPositionFromFEN_currentPhase fen st p :
  setPositionFromFEN fen st = Some p -> currentPhase p = currentPhase st.
Proof.
  unfold setPositionFromFEN. cbv zeta. intros H.
  destruct (split " " fen !! 0%nat); [|discriminate]. cbn [mbind option_bind] in H.
  destruct (parseFENPlacement _); [|discriminate]. cbn [mbind option_bind] in H.
  destruct (split " " fen !! 2%nat); [|discriminate]. cbn [mbind option_bind] in H.
  by injection H as <-.
Qed.

(** X23. Loading a position never throws, and loads exactly the text that
    [validateFEN] accepts. Whatever the input field holds, [loadPosition]
    returns; it loads if and only if the input element exists and its
    trimmed text passes [validateFEN]. Otherwise the state is left exactly as
    it was. Accepted text is decoded without a failing access: the position
    installed is the decoded one, on an 8x8 board of piece letters, and the
    page moves on to its next phase. *)
Theorem loading_a_position_never_throws boardEl fenInput st :
  exists st',
    loadPosition boardEl fenInput st = Some (fenAccepted fenInput, st')
    /\ (fenAccepted fenInput = false -> st' = st)
    /\ forall value,
         fenInput = Some value -> validateFEN (trim value) = true ->
         exists p,
           setPositionFromFEN (trim value) st = Some p
           /\ samePosition st' p /\ wfBoard (board st')
           /\ currentPhase st'
              = if currentPhase st <? 4 then currentPhase st + 1 else currentPhase st.
Proof.
  unfold loadPosition, fenAccepted. destruct fenInput as [value|].
  2:{ exists st. split; [done|]. split; [done|]. discriminate. }
  cbv zeta.
  destruct (validateFEN (trim value)) eqn:Hvalid.
  2:{ rewrite orb_true_r. exists st. split; [done|]. split; [done|].
      intros v [= <-]. by rewrite Hvalid. }
  assert (String.eqb (trim value) "" = false) as ->.
  { apply String.eqb_neq. intros E. by rewrite E in Hvalid. }
  cbn [orb negb].
  destruct (validated_decodes (trim value) st Hvalid) as (p & Hp & Hwf & _).
  unfold setPositionFromFEN_rendered.
  unfold bind at 1. unfold bind at 1. unfold update at 1. rewrite Hp.
  unfold bind at 1. unfold gets at 1.
  assert (exists p1,
    (if currentPhase p =? 1 then renderBoardEditor boardEl else ret tt) p = Some (tt, p1)
    /\ samePosition p1 p /\ currentPhase p1 = currentPhase p) as (p1 & -> & Hp1 & Hph1).
  { destruct (currentPhase p =? 1).
    - destruct (renderBoardEditor_total boardEl p) as (p1 & Hrun & Hpos).
      exists p1. split_and!; [done|done|by eapply renderBoardEditor_phase].
    - eexists. split; [reflexivity|done]. }
  destruct (nextPhase_total boardEl p1) as (p2 & Hnext & Hp2).
  rewrite (bind_run _ _ _ _ _ Hnext).
  exists p2. split; [done|]. split; [discriminate|]. intros v [= <-] _.
  exists p. split_and!; [done| | |].
  - eapply samePosition_trans; [exact Hp2|exact Hp1].
  - destruct Hp2 as [-> _]. destruct Hp1 as [-> _]. done.
  - rewrite (nextPhase_phase _ _ _ Hnext), Hph1.
    by rewrite (setPositionFromFEN_currentPhase _ _ _ Hp).
Qed.

(** A position typed with blanks around it is loaded; a text that is not a
    FEN string is not, and leaves the state as it was. *)
Lemma loading_a_position_never_throws_witness :
  (exists st',
     loadPosition true (Some "  4k3/8/8/3pP3/8/8/8/4K3 w - d6 0 2 ") newGame
       = Some (true, st')
     /\ samePosition st' enPassantReady)
  /\ loadPosition true (Some "not a fen") newGame = Some (false, newGame).
Proof.
  split.
  - destruct (loading_a_position_never_throws true
                (Some "  4k3/8/8/3pP3/8/8/8/4K3 w - d6 0 2 ") newGame)
      as (st' & Hrun & _ & Hload).
    exists st'. split; [exact Hrun|].
    destruct (Hload _ eq_refl) as (p & Hp & Hpos & _); [vm_compute; reflexivity|].
    vm_compute in Hp. injection Hp as <-.
    eapply samePosition_trans; [exact Hpos|]. vm_compute. by split_and!.
  - destruct (loading_a_position_never_throws true (Some "not a fen") newGame)
      as (st' & Hrun & Hsame & _).
    rewrite (Hsame eq_refl) in Hrun. exact Hrun.
Defined.

(** ** The editor *)

Lemma writeBoard_run r f v b' st :
  writeSq (board st) r f v = Some b' -> writeBoard r f v st = Some (tt, set_board b' st).
Proof. unfold writeBoard, update. by intros ->. Qed.

(** X24. A drop in the board editor. On an 8x8 board of piece letters, a
    piece dragged from one square of the grid to another is moved: the
    origin is left empty, the target holds the piece, every other square is
    as before, the board is still well formed, the FEN text is that of the
    new board, and the drag source is cleared. Dropped on its own square,
    the piece is removed from the board. *)
Theorem editor_drop_moves_the_piece boardEl src targetSquare p st :
  wfBoard (board st) -> onGrid src -> onGrid targetSquare ->
  readSq (board st) (rank src) (file src) = Some (Some p) ->
  exists st',
    handleDrop boardEl (Some (FromSquare src)) targetSquare st = Some (None, st')
    /\ wfBoard (board st') /\ fenInSync st'
    /\ readSq (board st') (rank src) (file src) = Some None
    /\ (src <> targetSquare ->
        readSq (board st') (rank targetSquare) (file targetSquare) = Some (Some p))
    /\ forall r f,
         (r, f) <> (rank src, file src) ->
         (r, f) <> (rank targetSquare, file targetSquare) ->
         readSq (board st') r f = readSq (board st) r f.
Proof.
  intros Hb Hsrc Htgt Hp. unfold handleDrop.
  rewrite (bind_run _ _ _ _ _ (readBoard_run _ _ _ _ Hp)).
  destruct (readSq_total (board st) (rank targetSquare) (file targetSquare)
              (wfBoard_hasRanks _ Hb) (proj1 Htgt)) as [existing Hex].
  rewrite (bind_run _ _ _ _ _ (readBoard_run _ _ _ _ Hex)).
  set (st1 := match existing with
              | Some v => updateScoreOnCapture p (Some v) st
              | None => st
              end).
  assert ((match existing with Some v => handleCapture p v | None => ret tt end) st
          = Some (tt, st1)) as Hcap by (by destruct existing).
  rewrite (bind_run _ _ _ _ _ Hcap).
  assert (board st1 = board st) as Hb1.
  { unfold st1. destruct existing; [apply updateScoreOnCapture_board|done]. }
  assert (isPieceLetter p = true) as Hletter by exact (readSq_wf _ _ _ _ Hb Hp).
  destruct (writeSq_wf (board st) (rank targetSquare) (file targetSquare) (Some p) Hb)
    as (b2 & Hw2 & Hwf2); [apply Htgt..|done|].
  destruct (writeSq_wf b2 (rank src) (file src) None Hwf2)
    as (b3 & Hw3 & Hwf3); [apply Hsrc..|done|].
  rewrite <- Hb1 in Hw2.
  rewrite (bind_run _ _ _ _ _ (writeBoard_run _ _ _ _ _ Hw2)).
  rewrite (bind_run _ _ _ _ _ (writeBoard_run _ _ _ _ (set_board b2 st1) Hw3)).
  unfold bind at 1. unfold update at 1.
  destruct (renderBoardEditor_total boardEl
              (syncFENFromState (set_board b3 (set_board b2 st1))))
    as (st' & Hrender & Hpos).
  rewrite (bind_run _ _ _ _ _ Hrender).
  exists st'. split; [done|].
  assert (board st' = b3) as Hb3 by (by destruct Hpos as [-> _]).
  rewrite Hb3. rewrite Hb1 in Hw2. split_and!.
  - done.
  - unfold renderBoardEditor in Hrender. destruct boardEl.
    + unfold update in Hrender. injection Hrender as <-. apply syncFENFromState_inSync.
    + apply ret_Some in Hrender as [_ ->]. apply syncFENFromState_inSync.
  - by apply (readSq_writeSq_eq _ _ _ _ _ Hw3).
  - intros Hne%square_ne.
    rewrite (readSq_writeSq_ne _ _ _ _ _ _ _ Hw3) by done.
    by apply (readSq_writeSq_eq _ _ _ _ _ Hw2).
  - intros r f Hs Ht.
    rewrite (readSq_writeSq_ne _ _ _ _ _ _ _ Hw3) by (intros E; by apply Hs).
    apply (readSq_writeSq_ne _ _ _ _ _ _ _ Hw2). intros E. by apply Ht.
Qed.

Lemma editor_drop_moves_the_piece_witness :
  exists st',
    handleDrop true (Some (FromSquare e2)) e2 startPosition = Some (None, st')
    /\ wfBoard (board st') /\ fenInSync st'
    /\ readSq (board st') (rank e2) (file e2) = Some None
    /\ (e2 <> e2 -> readSq (board st') (rank e2) (file e2) = Some (Some "P"%char))
    /\ forall r f,
         (r, f) <> (rank e2, file e2) -> (r, f) <> (rank e2, file e2) ->
         readSq (board st') r f = readSq (board startPosition) r f.
Proof.
  apply (editor_drop_moves_the_piece true e2 e2 "P"%char startPosition).
  - wf_board.
  - vm_compute. repeat split; discriminate.
  - vm_compute. repeat split; discriminate.
  - vm_compute. reflexivity.
Defined.

(** ** The drawing order *)

(** X25. The drawing order covers the board once. In either orientation
    [getSquareOrder] lists 64 squares, all on the grid and no square twice,
    each coloured light exactly when rank index plus file index is even;
    flipping the board reverses the order, which starts at a1 when the board
    is not flipped. *)
Theorem drawing_order_covers_the_board_once isFlipped :
  length (getSquareOrder isFlipped) = 64%nat
  /\ NoDup (map (fun s => mkSquare (sq_rank s) (sq_file s)) (getSquareOrder isFlipped))
  /\ Forall (fun s => onGrid (mkSquare (sq_rank s) (sq_file s))
                      /\ sq_color s = if Z.even (sq_rank s + sq_file s)
                                      then "light" else "dark")
       (getSquareOrder isFlipped)
  /\ getSquareOrder (negb isFlipped) = rev (getSquareOrder isFlipped)
  /\ head (getSquareOrder false) = Some (mkBoardSquare 7 0 "dark").
Proof.
  split_and!.
  - by destruct isFlipped.
  - apply (bool_decide_unpack _). by destruct isFlipped; vm_compute.
  - apply Forall_forall. intros s Hs.
    assert (Forall (fun s => bool_decide (0 <= sq_rank s < 8 /\ 0 <= sq_file s < 8)
                             && String.eqb (sq_color s)
                                  (if Z.even (sq_rank s + sq_file s)
                                   then "light" else "dark") = true)
              (getSquareOrder isFlipped)) as Hall.
    { destruct isFlipped; vm_compute; repeat constructor. }
    rewrite Forall_forall in Hall.
    apply Hall, andb_true_iff in Hs as [Hgrid%bool_decide_eq_true Hcol%String.eqb_eq].
    split; [exact Hgrid|exact Hcol].
  - by destruct isFlipped.
  - reflexivity.
Qed.

(** ** Move ordering *)

Lemma mvvValue_letter v :
  isPieceLetter v = true ->
  mvvValue (Some v) = 1 \/ mvvValue (Some v) = 3 \/ mvvValue (Some v) = 5
  \/ mvvValue (Some v) = 9 \/ (mvvValue (Some v) = 100 /\ toLowerCase v = "k"%char).
Proof.
  unfold isPieceLetter, chr_in. cbn [list_ascii_of_string existsb].
  rewrite !orb_false_r, !orb_true_iff. intros H.
  decompose [or] H;
    match goal with H : Ascii.eqb _ _ = true |- _ => apply Ascii.eqb_eq in H end;
    subst; vm_compute; tauto.
Qed.

(** X26. Most valuable victim first. [scoreMVVLVA] gives 0 to a move that
    captures nothing. Among captures made by pieces other than the king, a
    more valuable victim always scores higher, whatever the attackers and
    whether or not the moves promote; for one victim, the less valuable
    attacker scores higher. *)
Theorem most_valuable_victim_scores_highest m1 m2 v1 v2 :
  g_capturedPiece m1 = Some v1 -> g_capturedPiece m2 = Some v2 ->
  isPieceLetter v1 = true -> isPieceLetter v2 = true ->
  isPieceLetter (g_piece m1) = true -> isPieceLetter (g_piece m2) = true ->
  toLowerCase (g_piece m1) <> "k"%char -> toLowerCase (g_piece m2) <> "k"%char ->
  (mvvValue (Some v1) < mvvValue (Some v2) -> scoreMVVLVA m1 < scoreMVVLVA m2)
  /\ (mvvValue (Some v1) = mvvValue (Some v2) -> g_meta m1 = g_meta m2 ->
      mvvValue (Some (g_piece m1)) < mvvValue (Some (g_piece m2)) ->
      scoreMVVLVA m2 < scoreMVVLVA m1)
  /\ forall m, g_capturedPiece m = None -> l_isEnPassant (g_meta m) = false ->
       scoreMVVLVA m = 0.
Proof.
  intros Hc1 Hc2 Hv1 Hv2 Ha1 Ha2 Hk1 Hk2.
  pose proof (mvvValue_letter v1 Hv1) as Hval1.
  pose proof (mvvValue_letter v2 Hv2) as Hval2.
  assert (1 <= mvvValue (Some (g_piece m1)) <= 9) as Hatt1
    by (destruct (mvvValue_letter _ Ha1) as [?|[?|[?|[?|[_ ?]]]]]; [lia..|done]).
  assert (1 <= mvvValue (Some (g_piece m2)) <= 9) as Hatt2
    by (destruct (mvvValue_letter _ Ha2) as [?|[?|[?|[?|[_ ?]]]]]; [lia..|done]).
  unfold scoreMVVLVA. cbv zeta. rewrite Hc1, Hc2.
  rewrite !(bool_decide_eq_true_2 (is_Some (Some _))) by eauto. cbn [negb andb].
  split_and!.
  - intros Hlt.
    destruct (bool_decide (is_Some (l_promotion (g_meta m1)))),
             (bool_decide (is_Some (l_promotion (g_meta m2)))),
             (l_isEnPassant (g_meta m1)), (l_isEnPassant (g_meta m2)); lia.
  - intros Heq -> Hlt.
    destruct (bool_decide (is_Some (l_promotion (g_meta m2)))),
             (l_isEnPassant (g_meta m2)); lia.
  - intros m -> ->. by rewrite bool_decide_eq_false_2 by (by intros [? ?]).
Qed.

Lemma most_valuable_victim_scores_highest_witness :
  (mvvValue (Some "p"%char) < mvvValue (Some "q"%char) ->
   scoreMVVLVA (mkGenMove e2 e4 "N" (Some "p"%char) (Legal false false None))
   < scoreMVVLVA (mkGenMove e2 e4 "Q" (Some "q"%char) (Legal false false None)))
  /\ (mvvValue (Some "p"%char) = mvvValue (Some "q"%char) ->
      Legal false false None = Legal false false None ->
      mvvValue (Some "N"%char) < mvvValue (Some "Q"%char) ->
      scoreMVVLVA (mkGenMove e2 e4 "Q" (Some "q"%char) (Legal false false None))
      < scoreMVVLVA (mkGenMove e2 e4 "N" (Some "p"%char) (Legal false false None)))
  /\ forall m, g_capturedPiece m = None -> l_isEnPassant (g_meta m) = false ->
       scoreMVVLVA m = 0.
Proof.
  apply (most_valuable_victim_scores_highest
           (mkGenMove e2 e4 "N" (Some "p"%char) (Legal false false None))
           (mkGenMove e2 e4 "Q" (Some "q"%char) (Legal false false None))
           "p"%char "q"%char); try reflexivity; discriminate.
Defined.

Lemma store_snapshot_restore_witness :
  exists s h1,
    Store.copyRows [1%positive] {[ 1%positive := [None; None] ]} = Some (s, h1)
    /\ forall h2, Store.writes [1%positive] h1 h2 ->
         exists b' h3, Store.copyRows s h2 = Some (b', h3)
                       /\ Store.holds h3 b' [[None; None]].
Proof.
  apply (store_snapshot_restore [1%positive] {[ 1%positive := [None; None] ]}
           [[None; None]]).
  repeat constructor.
Defined.
